(** * CATS pharmacophore fingerprints and AVE/VE split bias

    A shallow embedding of [code/make_cats.py] and [code/utils.py].

    Conventions of the embedding.
    - A Python call that may raise returns an [outcome]: [Ok v] or
      [Raise e] with the exception class [e].
    - A [float64] is an extended rational ([npfloat]): the exact value of
      the float, an infinity, or NaN.  Where the rounding of a float64
      operation decides a comparison, a count or a slice bound (the
      thresholds of [np.linspace], the products [len * fraction], the sum
      of two proportions), the operation is rounded to the nearest
      float64, ties to even ([float64]).  The sums and quotients behind a
      mean are exact.  Division by zero, the mean of an empty array and
      NaN propagation follow numpy; overflow to infinity is not modelled.
    - A 2-D array carries its column count next to its rows, so that the
      shapes (0, 0) and (0, n) stay distinct, as numpy reductions
      distinguish them.
    - Integer arrays ([int64]) are lists of [Z]; overflow is not modelled. *)

From Stdlib Require Import Reals Qreals.
From Stdlib Require Import ZArith QArith Qround Qminmax Qabs.
From Stdlib Require Import Lia Lra Lqa Bool Ascii String.
From Stdlib Require Import List Permutation.
Import ListNotations.

Set Implicit Arguments.

(* ================================================================== *)
(** * Definitions                                                      *)
(* ================================================================== *)

(** ** Python: exceptions, loops, indices and slices *)

Module Py.

Inductive exn : Set := ValueError | IndexError | KeyError | AssertionError.

Inductive outcome (A : Type) : Type :=
| Ok (a : A)
| Raise (e : exn).

Arguments Ok {A} a.
Arguments Raise {A} e.

Definition bind {A B : Type} (m : outcome A) (k : A -> outcome B) : outcome B :=
  match m with
  | Ok a => k a
  | Raise e => Raise e
  end.

(** A [for] loop over [l] threading the mutated object [s]; an exception
    leaves the loop. *)
Fixpoint for_each {A S : Type} (body : S -> A -> outcome S) (l : list A) (s : S)
  : outcome S :=
  match l with
  | [] => Ok s
  | a :: l' => bind (body s a) (for_each body l')
  end.

(** [mapM f l]: a comprehension whose element expression may raise. *)
Fixpoint mapM {A B : Type} (f : A -> outcome B) (l : list A) : outcome (list B) :=
  match l with
  | [] => Ok []
  | a :: l' => bind (f a) (fun b => bind (mapM f l') (fun bs => Ok (b :: bs)))
  end.

(** An index [i] into a sequence of length [n]: negative indices count
    from the end, anything outside [-n, n) is an [IndexError]. *)
Definition index (n : nat) (i : Z) : outcome nat :=
  if ((0 <=? i) && (i <? Z.of_nat n))%Z then Ok (Z.to_nat i)
  else if ((- Z.of_nat n <=? i) && (i <? 0))%Z then Ok (Z.to_nat (Z.of_nat n + i))
  else Raise IndexError.

(** The bound [k] of a slice [l[:k]] or [l[k:]] on a sequence of length
    [n], clamped as [slice.indices] does. *)
Definition slice_bound (n : nat) (k : Z) : nat :=
  if (k <? 0)%Z then Z.to_nat (Z.max 0 (Z.of_nat n + k))
  else Nat.min n (Z.to_nat k).

Definition slice_to {A : Type} (l : list A) (k : Z) : list A :=
  firstn (slice_bound (length l) k) l.

Definition slice_from {A : Type} (l : list A) (k : Z) : list A :=
  skipn (slice_bound (length l) k) l.

(** [int(x)]: truncation toward zero. *)
Definition int (x : Q) : Z := Z.quot (Qnum x) (Z.pos (Qden x)).

(** [round(x)]: to the nearest integer, ties to the even one. *)
Definition round (x : Q) : Z :=
  let f := Qfloor x in
  match ((x - inject_Z f) ?= (1 # 2))%Q with
  | Lt => f
  | Gt => (f + 1)%Z
  | Eq => if Z.even f then f else (f + 1)%Z
  end.

(** [sorted((x, y))] on two strings, as the pair of its two items. *)
Definition sorted2 (x y : string) : string * string :=
  if String.ltb y x then (y, x) else (x, y).

(** [itertools.combinations(l, 2)]. *)
Fixpoint combinations2 {A : Type} (l : list A) : list (A * A) :=
  match l with
  | [] => []
  | x :: xs => map (pair x) xs ++ combinations2 xs
  end.

(** [itertools.combinations_with_replacement(l, 2)]. *)
Fixpoint combinations_with_replacement2 {A : Type} (l : list A) : list (A * A) :=
  match l with
  | [] => []
  | x :: xs => map (pair x) (x :: xs) ++ combinations_with_replacement2 xs
  end.

End Py.

Import Py.

Notation "x <- m ;; k" := (Py.bind m (fun x => k))
  (at level 61, m at next level, right associativity).
Notation "' p <- m ;; k" := (Py.bind m (fun x => match x with p => k end))
  (at level 61, p pattern, m at next level, right associativity).

(** ** numpy: floats, arrays and reductions *)

Module Np.

(** A [float64]: a rational, a signed infinity ([Inf true] is +inf), or NaN. *)
Inductive ext (A : Type) : Type :=
| Num (a : A)
| Inf (positive : bool)
| NaN.

Arguments Num {A} a.
Arguments Inf {A} positive.
Arguments NaN {A}.

Definition npfloat : Type := ext Q.

Definition Qltb (a b : Q) : bool := negb (Qle_bool b a).

Definition neg (a : npfloat) : npfloat :=
  match a with
  | Num x => Num (- x)%Q
  | Inf s => Inf (negb s)
  | NaN => NaN
  end.

Definition add (a b : npfloat) : npfloat :=
  match a, b with
  | Num x, Num y => Num (x + y)%Q
  | Num _, Inf s => Inf s
  | Inf s, Num _ => Inf s
  | Inf s, Inf s' => if Bool.eqb s s' then Inf s else NaN
  | _, _ => NaN
  end.

Definition sub (a b : npfloat) : npfloat := add a (neg b).

(** [a / b]: [0/0] is NaN and [x/0] an infinity, with a warning only. *)
Definition true_divide (a b : npfloat) : npfloat :=
  match a, b with
  | Num x, Num y =>
      if Qeq_bool y 0 then
        if Qeq_bool x 0 then NaN else Inf (Qltb 0 x)
      else Num (x / y)%Q
  | Num _, Inf _ => Num 0
  | Inf s, Num y => Inf (if Qltb y 0 then negb s else s)
  | _, _ => NaN
  end.

(** [a ** 2]. *)
Definition square (a : npfloat) : npfloat :=
  match a with
  | Num x => Num (x * x)%Q
  | Inf _ => Inf true
  | NaN => NaN
  end.

(** [np.sqrt]: the result is no longer rational. *)
Definition sqrt (a : npfloat) : ext R :=
  match a with
  | Num x => if Qltb x 0 then NaN else Num (R_sqrt.sqrt (Q2R x))
  | Inf true => Inf true
  | Inf false => NaN
  | NaN => NaN
  end.


Definition of_nat (n : nat) : npfloat := Num (inject_Z (Z.of_nat n)).
Definition of_Z (n : Z) : npfloat := Num (inject_Z n).

(** [np.add.reduce] over a 1-D array of floats. *)
Definition sum (l : list npfloat) : npfloat := fold_left add l (Num 0).

(** [np.mean] of a 1-D array (or list) of floats: sum over count; the
    mean of an empty array is [0/0]. *)
Definition mean (l : list npfloat) : npfloat :=
  true_divide (sum l) (of_nat (length l)).

(** [np.mean] of a 1-D boolean array: the count of [True] over the size. *)
Definition mean_bool (l : list bool) : npfloat :=
  true_divide (of_nat (count_occ bool_dec l true)) (of_nat (length l)).

(** [2 ** e] for an integer exponent. *)
Definition pow2 (e : Z) : Q :=
  if (0 <=? e)%Z then inject_Z (2 ^ e) else (1 # Z.to_pos (2 ^ (- e))).

(** The exponent [b] with [2 ** b <= a < 2 ** (b + 1)], for [a > 0]. *)
Definition binade (a : Q) : Z :=
  let e0 := (Z.log2 (Qnum a) - Z.log2 (Zpos (Qden a)))%Z in
  if Qle_bool (pow2 e0) a then e0 else (e0 - 1)%Z.

(** The float64 nearest to the real number [x], ties to the even
    significand: the result of a float64 operation whose exact result is
    [x].  A significand has 53 bits, and the unit in the last place is
    never below [2 ** -1074]. *)
Definition float64 (x : Q) : Q :=
  if Qeq_bool x 0 then 0%Q
  else
    let ulp := pow2 (Z.max (binade (Qabs x) - 52) (-1074)) in
    (inject_Z (round (x / ulp)) * ulp)%Q.

(** [np.linspace(start, stop, num)] on float64: [step = delta / div] with
    [delta = stop - start] and [div = num - 1], then
    [y = arange(0, num) * step + start], and [y[-1] = stop]. *)
Definition linspace (start stop : Q) (num : nat) : list Q :=
  let div := (inject_Z (Z.of_nat num) - 1)%Q in
  let delta := float64 (stop - start) in
  let step := float64 (delta / div) in
  let y := map (fun i => float64 (float64 (inject_Z (Z.of_nat i) * step) + start))
             (seq 0 num) in
  if (1 <? num)%nat then firstn (num - 1) y ++ [stop] else y.

(** A 2-D array of shape [(length rows, ncols)]. *)
Record ndarray2 (A : Type) : Type := Array2 {
  ncols : nat;
  rows : list (list A)
}.

Definition nrows {A : Type} (M : ndarray2 A) : nat := length (rows M).

(** Every stored row has [ncols] entries. *)
Definition rectangular {A : Type} (M : ndarray2 A) : Prop :=
  Forall (fun r => length r = ncols M) (rows M).

(** [M < t], elementwise. *)
Definition less (M : ndarray2 Q) (t : Q) : ndarray2 bool :=
  Array2 (ncols M) (map (map (fun d => Qltb d t)) (rows M)).

(** [np.any(B, axis=1)]: one boolean per row; [False] on an empty row. *)
Definition any_axis1 (B : ndarray2 bool) : list bool :=
  map (existsb (fun b => b)) (rows B).

(** The minimum of a non-empty row. *)
Definition row_min (r : list Q) : Q :=
  match r with
  | [] => 0%Q
  | x :: xs => fold_left Qmin xs x
  end.

(** [M.min(axis=1)]: numpy refuses a reduction along an axis of length
    zero ("zero-size array to reduction operation minimum which has no
    identity"), whatever the number of rows. *)
Definition min_axis1 (M : ndarray2 Q) : outcome (list Q) :=
  if Nat.eqb (ncols M) 0 then Raise ValueError else Ok (map row_min (rows M)).

(** [np.minimum(a, b)] on floats: NaN if either is NaN. *)
Definition minimum (a b : npfloat) : npfloat :=
  match a, b with
  | NaN, _ | _, NaN => NaN
  | Inf false, _ | _, Inf false => Inf false
  | Inf true, v | v, Inf true => v
  | Num x, Num y => Num (Qmin x y)
  end.

(** The minimum of a non-empty row of floats; a NaN entry makes it NaN. *)
Definition amin (r : list npfloat) : npfloat :=
  match r with
  | [] => NaN
  | x :: xs => fold_left minimum xs x
  end.

(** [M.min(axis=1)] on a matrix of floats. *)
Definition amin_axis1 (M : ndarray2 npfloat) : outcome (list npfloat) :=
  if Nat.eqb (ncols M) 0 then Raise ValueError else Ok (map amin (rows M)).

(** [a - b] on 1-D arrays of floats, with broadcasting of a length-one
    operand. *)
Definition subtract (a b : list npfloat) : outcome (list npfloat) :=
  if Nat.eqb (length a) (length b) then
    Ok (map (fun p => sub (fst p) (snd p)) (combine a b))
  else
    match a, b with
    | [x], _ => Ok (map (fun y => sub x y) b)
    | _, [y] => Ok (map (fun x => sub x y) a)
    | _, _ => Raise ValueError
    end.

(** A matrix of numbers as a matrix of floats, none of them NaN or
    infinite. *)
Definition finite (M : ndarray2 Q) : ndarray2 npfloat :=
  Array2 (ncols M) (map (map Num) (rows M)).

(** [M[idx]] with an integer index array: the selected rows. *)
Definition take_rows {A : Type} (M : ndarray2 A) (idx : list Z) : outcome (ndarray2 A) :=
  ks <- mapM (index (nrows M)) idx ;;
  Ok (Array2 (ncols M) (map (fun i => nth i (rows M) []) ks)).

(** [M[:, idx]] with an integer index array: the selected columns of
    every row.  The indices are checked against the column count even
    when there is no row. *)
Definition take_cols {A : Type} (dflt : A) (M : ndarray2 A) (idx : list Z)
  : outcome (ndarray2 A) :=
  js <- mapM (index (ncols M)) idx ;;
  Ok (Array2 (length idx) (map (fun r => map (fun j => nth j r dflt) js) (rows M))).

End Np.

(** ** [code/utils.py] *)

Module Utils.

Import Np.

(** The four distance matrices, in the order
    [aTest_aTrain_D, aTest_iTrain_D, iTest_iTrain_D, iTest_aTrain_D]. *)
Definition quartet : Type :=
  (ndarray2 Q * ndarray2 Q * ndarray2 Q * ndarray2 Q)%type.

(** [np.mean([np.mean(np.any(D < t, axis=1)) for t in np.linspace(0, 1.0, 50)])] *)
Definition any_S (D : ndarray2 Q) : npfloat :=
  mean (map (fun t => mean_bool (any_axis1 (less D t))) (linspace 0 1 50)).

Definition calc_AVE (distances : quartet) : npfloat :=
  let '(aTest_aTrain_D, aTest_iTrain_D, iTest_iTrain_D, iTest_aTrain_D) := distances in
  let aTest_aTrain_S := any_S aTest_aTrain_D in
  let aTest_iTrain_S := any_S aTest_iTrain_D in
  let iTest_iTrain_S := any_S iTest_iTrain_D in
  let iTest_aTrain_S := any_S iTest_aTrain_D in
  sub (add (sub aTest_aTrain_S aTest_iTrain_S) iTest_iTrain_S) iTest_aTrain_S.

(** [D < t] on a 1-D array. *)
Definition less1 (D : list Q) (t : Q) : list bool := map (fun d => Qltb d t) D.

(** [np.mean([np.mean(D < t) for t in np.linspace(0, 1.0, 50)])] on the
    1-D array of row minima. *)
Definition min_S (D : list Q) : npfloat :=
  mean (map (fun t => mean_bool (less1 D t)) (linspace 0 1 50)).

Definition calc_AVE_quick (dmat : ndarray2 Q)
    (actives_train actives_test inactives_train inactives_test : list Z)
  : outcome npfloat :=
  inactive_dmat <- take_rows dmat inactives_test ;;
  iTest_iTrain_D <- (M <- take_cols 0%Q inactive_dmat inactives_train ;; min_axis1 M) ;;
  iTest_aTrain_D <- (M <- take_cols 0%Q inactive_dmat actives_train ;; min_axis1 M) ;;
  active_dmat <- take_rows dmat actives_test ;;
  aTest_aTrain_D <- (M <- take_cols 0%Q active_dmat actives_train ;; min_axis1 M) ;;
  aTest_iTrain_D <- (M <- take_cols 0%Q active_dmat inactives_train ;; min_axis1 M) ;;
  let aTest_aTrain_S := min_S aTest_aTrain_D in
  let aTest_iTrain_S := min_S aTest_iTrain_D in
  let iTest_iTrain_S := min_S iTest_iTrain_D in
  let iTest_aTrain_S := min_S iTest_aTrain_D in
  Ok (sub (add (sub aTest_aTrain_S aTest_iTrain_S) iTest_iTrain_S) iTest_aTrain_S).

(** The four distance matrices as [calc_distance_matrices] returns them:
    an entry is a float, NaN included. *)
Definition float_quartet : Type :=
  (ndarray2 npfloat * ndarray2 npfloat * ndarray2 npfloat * ndarray2 npfloat)%type.

Definition calc_VE (distances : float_quartet) : outcome (ext R) :=
  let '(aTest_aTrain_D, aTest_iTrain_D, iTest_iTrain_D, iTest_aTrain_D) := distances in
  ai <- amin_axis1 aTest_iTrain_D ;;
  aa <- amin_axis1 aTest_aTrain_D ;;
  d1 <- subtract ai aa ;;
  let term_one := mean d1 in
  ia <- amin_axis1 iTest_aTrain_D ;;
  ii <- amin_axis1 iTest_iTrain_D ;;
  d2 <- subtract ia ii ;;
  let term_two := mean d2 in
  Ok (sqrt (add (square term_one) (square term_two))).

(** *** Cluster splitting *)

(** The [neg_test_fraction] argument: a float, or a pair
    (test proportion, train proportion). *)
Inductive neg_fraction : Type :=
| AFloat (f : Q)
| APair (f0 f1 : Q).

(** [num * fraction] with [num] an integer and [fraction] a float64: the
    integer is converted to float64 and the product rounded. *)
Definition times (num : Z) (fraction : Q) : Q :=
  float64 (float64 (inject_Z num) * fraction).

(** [num * fraction] with [num] a length. *)
Definition scale (num : nat) (fraction : Q) : Q := times (Z.of_nat num) fraction.

(** [sum(pair)] on a pair of float64: [0 + f0] is exact, and its sum
    with [f1] is rounded. *)
Definition sum_pair (f0 f1 : Q) : Q := float64 (0 + f0 + f1).

Section Shuffle.

(** The global random generator: [np.random.shuffle] maps a generator
    state and a list to the next state and the shuffled list. *)
Variable rng : Type.
Variable np_random_shuffle : rng -> list Z -> rng * list Z.

Definition split_clusters (g : rng) (pos_labels neg_labels : list Z)
    (pos_test_fraction : Q) (neg_test_fraction : neg_fraction) (shuffle : bool)
  : outcome (list Z * list Z) :=
  let '(g, pos_labels) :=
    if shuffle then np_random_shuffle g pos_labels else (g, pos_labels) in
  let '(_, neg_labels) :=
    if shuffle then np_random_shuffle g neg_labels else (g, neg_labels) in
  let num_pos_clusters := length pos_labels in
  let num_neg_clusters := length neg_labels in
  let test_pos_clusters :=
    slice_to pos_labels (Z.max 1 (round (scale num_pos_clusters pos_test_fraction))) in
  let train_pos_clusters :=
    slice_from pos_labels (Z.max 1 (round (scale num_pos_clusters pos_test_fraction))) in
  '(test_neg_clusters, train_neg_clusters) <-
    match neg_test_fraction with
    | AFloat f =>
        Ok (slice_to neg_labels (int (scale num_neg_clusters f)),
            slice_from neg_labels (int (scale num_neg_clusters f)))
    | APair f0 f1 =>
        if Qltb 1 (sum_pair f0 f1) then Raise ValueError
        else
          Ok (slice_to neg_labels (round (scale num_neg_clusters f0)),
              slice_from neg_labels (- round (scale num_neg_clusters f1)))
    end ;;
  let test_clusters := test_pos_clusters ++ test_neg_clusters in
  let train_clusters := train_pos_clusters ++ train_neg_clusters in
  Ok (test_clusters, train_clusters).

End Shuffle.

(** *** Merging and splitting feature matrices *)

(** A numpy array of one or two dimensions. *)
Inductive ndarray : Type :=
| Arr1 (a : list Q)
| Arr2 (M : ndarray2 Q).

(** [np.vstack([a, b])]: the column counts must agree. *)
Definition vstack (a b : ndarray2 Q) : outcome (ndarray2 Q) :=
  if Nat.eqb (ncols a) (ncols b) then Ok (Array2 (ncols a) (rows a ++ rows b))
  else Raise ValueError.

(** [y = np.zeros(n); y[:k] = 1]. *)
Definition zeros_with_ones_prefix (n k : nat) : list Q :=
  let y := repeat 0%Q n in
  repeat 1%Q (length (firstn k y)) ++ skipn k y.

Definition merge_feature_matrices
    (matrices : ndarray2 Q * ndarray2 Q * ndarray2 Q * ndarray2 Q)
  : outcome (ndarray2 Q * ndarray2 Q * list Q * list Q) :=
  let '(x_actives_train, x_actives_test, x_inactives_train, x_inactives_test) :=
    matrices in
  x_train <- vstack x_actives_train x_inactives_train ;;
  x_test <- vstack x_actives_test x_inactives_test ;;
  let y_train := zeros_with_ones_prefix (nrows x_train) (nrows x_actives_train) in
  let y_test := zeros_with_ones_prefix (nrows x_test) (nrows x_actives_test) in
  Ok (x_train, x_test, y_train, y_test).

(** [y[:, idx]]: two indices need a 2-D array ("too many indices for
    array" otherwise). *)
Definition column (y : ndarray) (idx : Z) : outcome (list Q) :=
  match y with
  | Arr1 _ => Raise IndexError
  | Arr2 M =>
      j <- index (ncols M) idx ;;
      Ok (map (fun r => nth j r 0%Q) (rows M))
  end.

(** [x[mask]] with a 1-D boolean mask over the rows. *)
Definition mask_rows (x : ndarray2 Q) (mask : list bool) : outcome (ndarray2 Q) :=
  if Nat.eqb (length mask) (nrows x) then
    Ok (Array2 (ncols x)
          (map fst (filter (fun p => snd p) (combine (rows x) mask))))
  else Raise IndexError.

Definition split_feature_matrices (x_train x_test : ndarray2 Q)
    (y_train y_test : ndarray) (idx : Z)
  : outcome (ndarray2 Q * ndarray2 Q * ndarray2 Q * ndarray2 Q) :=
  x_actives_train <-
    (c <- column y_train idx ;; mask_rows x_train (map (fun v => Qeq_bool v 1) c)) ;;
  x_actives_test <-
    (c <- column y_test idx ;; mask_rows x_test (map (fun v => Qeq_bool v 1) c)) ;;
  x_inactives_train <-
    (c <- column y_train idx ;;
     mask_rows x_train (map (fun v => negb (Qeq_bool v 1)) c)) ;;
  x_inactives_test <-
    (c <- column y_test idx ;;
     mask_rows x_test (map (fun v => negb (Qeq_bool v 1)) c)) ;;
  Ok (x_actives_train, x_actives_test, x_inactives_train, x_inactives_test).

(** *** Jaccard and Dice distances *)

(** [X.astype(bool).astype(int)]. *)
Definition binarize (X : ndarray2 Z) : ndarray2 Z :=
  Array2 (ncols X) (map (map (fun v => if (v =? 0)%Z then 0%Z else 1%Z)) (rows X)).

Definition sumZ (l : list Z) : Z := fold_left Z.add l 0%Z.

(** The dot product of two rows. *)
Definition dot_row (x y : list Z) : Z :=
  sumZ (map (fun p => (fst p * snd p)%Z) (combine x y)).

(** [X.dot(Y.T)]: entry [(i, j)] is the dot product of row [i] of [X]
    and row [j] of [Y]. *)
Definition dot_T (X Y : ndarray2 Z) : ndarray2 Z :=
  Array2 (nrows Y) (map (fun x => map (dot_row x) (rows Y)) (rows X)).

(** The outer sum of two 1-D arrays, entry [(i, j)] being [xs[i] + ys[j]].
    [fast_jaccard] builds it as [(xx + yy).T] from
    [xx, yy = np.meshgrid(xs, ys)], [fast_dice] by broadcasting
    [xs[:, None] + ys]. *)
Definition outer_add (xs ys : list Z) : ndarray2 Z :=
  Array2 (length ys) (map (fun x => map (fun y => (x + y)%Z) ys) xs).

(** An elementwise binary operation on two arrays of one shape. *)
Definition zip_with {A B C : Type} (f : A -> B -> C) (M : ndarray2 A) (N : ndarray2 B)
  : ndarray2 C :=
  Array2 (ncols M)
    (map (fun rs => map (fun p => f (fst p) (snd p)) (combine (fst rs) (snd rs)))
       (combine (rows M) (rows N))).

(** [X.sum(axis=1)]. *)
Definition sum_axis1 (X : ndarray2 Z) : list Z := map sumZ (rows X).

(** [X.getnnz(1)]: the number of non-zero entries of each row. *)
Definition getnnz1 (X : ndarray2 Z) : list Z :=
  map (fun r => Z.of_nat (length (filter (fun v => negb (v =? 0)%Z) r))) (rows X).

Definition fast_jaccard (X : ndarray2 Z) (Y : option (ndarray2 Z))
  : outcome (ndarray2 npfloat) :=
  let Y := match Y with None => X | Some Y => Y end in
  if negb (Nat.eqb (ncols X) (ncols Y)) then Raise AssertionError
  else
    let X := binarize X in
    let Y := binarize Y in
    let intersect := dot_T X Y in
    let x_sum := sum_axis1 X in
    let y_sum := sum_axis1 Y in
    let union := zip_with Z.sub (outer_add x_sum y_sum) intersect in
    Ok (zip_with (fun i u => sub (Num 1) (true_divide (of_Z i) (of_Z u)))
          intersect union).

(** [fast_dice] on dense ([np.ndarray]) inputs, which it binarizes. *)
Definition fast_dice (X : ndarray2 Z) (Y : option (ndarray2 Z))
  : outcome (ndarray2 npfloat) :=
  let X := binarize X in
  let Y := match Y with None => X | Some Y => binarize Y end in
  if negb (Nat.eqb (ncols X) (ncols Y)) then Raise ValueError
  else
    let intersect := dot_T X Y in
    let cardinality_X := getnnz1 X in
    let cardinality_Y := getnnz1 Y in
    Ok (zip_with (fun i c => sub (Num 1) (true_divide (of_Z (2 * i)) (of_Z c)))
          intersect (outer_add cardinality_X cardinality_Y)).

(** *** The four distance matrices *)

(** The [metric] argument: ['jaccard'], ['dice'], or any other string. *)
Inductive metric : Set := Jaccard | Dice | OtherMetric.

(** What [calc_distance_matrices] can fail with: beside the exceptions of
    the distance functions, the [NameError] of a name that the module never
    binds, and the [UnboundLocalError] of a local that no branch assigned. *)
Inductive failure : Set :=
| NameError
| UnboundLocalError
| Exception (e : exn).

Inductive result (A : Type) : Type :=
| Returns (a : A)
| Fails (f : failure).

Arguments Returns {A} a.
Arguments Fails {A} f.

(** [calc_distance_matrices] on dense feature matrices.  Above 15000
    inactive train rows the first statement after the prints calls
    [NNDescent], which [utils.py] neither imports nor defines. *)
Definition calc_distance_matrices
    (matrices : ndarray2 Z * ndarray2 Z * ndarray2 Z * ndarray2 Z) (metric : metric)
  : result (ndarray2 npfloat * ndarray2 npfloat * ndarray2 npfloat * ndarray2 npfloat) :=
  let '(x_actives_train, x_actives_test, x_inactives_train, x_inactives_test) :=
    matrices in
  let distFun :=
    match metric with
    | Jaccard => Some fast_jaccard
    | Dice => Some fast_dice
    | OtherMetric => None
    end in
  if (15000 <? Z.of_nat (nrows x_inactives_train))%Z then Fails NameError
  else
    match distFun with
    | None => Fails UnboundLocalError
    | Some distFun =>
        match
          (aTest_aTrain_D <- distFun x_actives_test (Some x_actives_train) ;;
           aTest_iTrain_D <- distFun x_actives_test (Some x_inactives_train) ;;
           iTest_iTrain_D <- distFun x_inactives_test (Some x_inactives_train) ;;
           iTest_aTrain_D <- distFun x_inactives_test (Some x_actives_train) ;;
           Ok (aTest_aTrain_D, aTest_iTrain_D, iTest_iTrain_D, iTest_aTrain_D))
        with
        | Ok distances => Returns distances
        | Raise e => Fails (Exception e)
        end
    end.

(** *** Label subsets, index partitions and hold-out splits *)

Definition sumQ (l : list Q) : Q := fold_left Qplus l 0%Q.

(** [get_subset(x, y, indices)]: the label columns [indices], and the
    rows of [x] and of those columns that keep a positive label. *)
Definition get_subset (x y : ndarray2 Q) (indices : list Z)
  : outcome (ndarray2 Q * ndarray2 Q) :=
  y_ <- take_cols 0%Q y indices ;;
  let row_mask := map (fun r => Qltb 0 (sumQ r)) (rows y_) in
  y_ <- mask_rows y_ row_mask ;;
  x_ <- mask_rows x row_mask ;;
  Ok (x_, y_).

(** [np.isin(labels, clusters)]. *)
Definition isin (labels clusters : list Z) : list bool :=
  map (fun l => existsb (Z.eqb l) clusters) labels.

(** [c.astype(bool)] on a 1-D array of numbers. *)
Definition astype_bool (c : list Q) : list bool :=
  map (fun v => negb (Qeq_bool v 0)) c.

(** [~m] on a 1-D boolean array. *)
Definition invert (m : list bool) : list bool := map negb m.

(** [a & b] on 1-D boolean arrays, with broadcasting of a length-one
    operand. *)
Definition logical_and (a b : list bool) : outcome (list bool) :=
  if Nat.eqb (length a) (length b) then
    Ok (map (fun p => fst p && snd p) (combine a b))
  else
    match a, b with
    | [x], _ => Ok (map (fun y => x && y) b)
    | _, [y] => Ok (map (fun x => x && y) a)
    | _, _ => Raise ValueError
    end.

(** [m.nonzero()[0]]: the positions of [True], in increasing order. *)
Fixpoint nonzero_from (i : nat) (m : list bool) : list Z :=
  match m with
  | [] => []
  | b :: m' => (if b then [Z.of_nat i] else []) ++ nonzero_from (S i) m'
  end.

Definition nonzero (m : list bool) : list Z := nonzero_from 0 m.

(** [_split_indices]; the clusterer is read through its [labels_] only.
    [get_split_indices] has the same body. *)
Definition _split_indices (y_ : ndarray) (idx : Z) (labels_ : list Z)
    (test_clusters train_clusters : list Z)
  : outcome (list bool * list bool * list bool * list bool) :=
  let alltest := isin labels_ test_clusters in
  let alltrain := isin labels_ train_clusters in
  c <- column y_ idx ;;
  let allpos := astype_bool c in
  let allneg := invert allpos in
  Ok (alltest, alltrain, allpos, allneg).

Definition get_split_indices (y_ : ndarray) (idx : Z) (labels_ : list Z)
    (test_clusters train_clusters : list Z)
  : outcome (list bool * list bool * list bool * list bool) :=
  let alltest := isin labels_ test_clusters in
  let alltrain := isin labels_ train_clusters in
  c <- column y_ idx ;;
  let allpos := astype_bool c in
  let allneg := invert allpos in
  Ok (alltest, alltrain, allpos, allneg).

Definition get_four_matrices (y_ : ndarray) (idx : Z) (labels_ : list Z)
    (test_clusters train_clusters : list Z)
  : outcome (list Z * list Z * list Z * list Z) :=
  '(alltest, alltrain, allpos, allneg) <-
    _split_indices y_ idx labels_ test_clusters train_clusters ;;
  actives_test_indices <- (m <- logical_and alltest allpos ;; Ok (nonzero m)) ;;
  actives_train_indices <- (m <- logical_and alltrain allpos ;; Ok (nonzero m)) ;;
  inactives_test_indices <- (m <- logical_and alltest allneg ;; Ok (nonzero m)) ;;
  inactives_train_indices <- (m <- logical_and alltrain allneg ;; Ok (nonzero m)) ;;
  Ok (actives_test_indices, actives_train_indices,
      inactives_test_indices, inactives_train_indices).

(** [a.max()] on a 1-D integer array; an empty array has no maximum. *)
Definition amax (a : list Z) : outcome Z :=
  match a with
  | [] => Raise ValueError
  | x :: xs => Ok (fold_left Z.max xs x)
  end.

Section Choice.

(** [np.random.choice(a, size, replace=False)] on the global generator:
    it may refuse its arguments. *)
Variable rng : Type.
Variable np_random_choice : rng -> Z -> Z -> outcome (list Z).

(** [make_cluster_split]; [test_clusters] is [None] for the default
    [False], which draws the hold-out clusters at random. *)
Definition make_cluster_split (g : rng) (x_ y_ : ndarray2 Q) (labels_ : list Z)
    (percentage_holdout : Q) (test_clusters : option (list Z))
  : outcome (ndarray2 Q * ndarray2 Q * ndarray2 Q * ndarray2 Q) :=
  test_clusters <-
    match test_clusters with
    | Some t => Ok t
    | None =>
        m <- amax labels_ ;;
        np_random_choice g m (int (times m percentage_holdout))
    end ;;
  let mask := invert (isin labels_ test_clusters) in
  x_test <- mask_rows x_ (invert mask) ;;
  x_train <- mask_rows x_ mask ;;
  y_test <- mask_rows y_ (invert mask) ;;
  y_train <- mask_rows y_ mask ;;
  Ok (x_train, x_test, y_train, y_test).

End Choice.

(** [M.min(0)]: the minimum of every column; numpy refuses the reduction
    when there is no row. *)
Definition min_axis0 (M : ndarray2 Q) : outcome (list Q) :=
  if Nat.eqb (nrows M) 0 then Raise ValueError
  else Ok (map (fun j => row_min (map (fun r => nth j r 0%Q) (rows M)))
             (seq 0 (ncols M))).

(** [a[idx]] on a 1-D integer array with an integer index array. *)
Definition take (a : list Z) (idx : list Z) : outcome (list Z) :=
  mapM (fun k => i <- index (length a) k ;; Ok (nth i a 0%Z)) idx.

Section Argsort.

(** [v.argsort()]: numpy's default sort is not stable, so the order
    among equal values is left to the sort. *)
Variable argsort : list Q -> list Z.

(** [trim]; [test_indices] is not read. *)
Definition trim (dmat : ndarray2 Q) (train_indices test_indices : list Z)
    (fraction_to_trim : Q) : outcome (list Z) :=
  let num_to_trim := int (scale (length train_indices) fraction_to_trim) in
  M <- take_cols 0%Q dmat train_indices ;;
  mins <- min_axis0 M ;;
  take train_indices (slice_from (argsort mins) num_to_trim).

End Argsort.

End Utils.

(** ** [code/make_cats.py] *)

Module MakeCats.

(** The seven pharmacophore SMARTS patterns, by their Python names; the
    patterns themselves are only read by the chemistry toolkit. *)
Inductive pphore : Set :=
| hbd | hba | pi_e | halogen | basic | acidic | aliphatic_C.

Definition atomTypes : list string :=
  ["D"; "A"; "E"; "H"; "B"; "P"; "L"]%string.

(** [sorted(p)[0] + sorted(p)[1]] for a pair [p] of strings. *)
Definition pair_key (x y : string) : string :=
  (fst (sorted2 x y) ++ snd (sorted2 x y))%string.

Definition possible_pairs : list string :=
  map (fun i => pair_key (fst i) (snd i)) (combinations_with_replacement2 atomTypes).

(** A molecule as the toolkit presents it: the number of atoms, the keys
    of each atom's property dictionary (in dictionary order), and the
    matrix of topological distances, whose entries are integral floats. *)
Record Mol : Type := mkMol {
  GetNumAtoms : nat;
  GetPropsAsDict : nat -> list string;
  GetDistanceMatrix : nat -> nat -> Z
}.

(** [atom.SetProp(label, str(1))]: a new key goes last, a known key
    keeps its place. *)
Definition SetProp (mol : Mol) (atom : nat) (label : string) : Mol :=
  mkMol (GetNumAtoms mol)
    (fun a =>
       if Nat.eqb a atom then
         if existsb (String.eqb label) (GetPropsAsDict mol a)
         then GetPropsAsDict mol a
         else GetPropsAsDict mol a ++ [label]
       else GetPropsAsDict mol a)
    (GetDistanceMatrix mol).

Section Toolkit.

(** [[i[0] for i in mol.GetSubstructMatches(Chem.MolFromSmarts(pphore))]]:
    the atoms the toolkit matches to a pattern. *)
Variable GetSubstructMatches : Mol -> pphore -> list nat.

Definition setProps (mol : Mol) : Mol :=
  fold_left
    (fun mol lp =>
       let atoms := GetSubstructMatches mol (snd lp) in
       fold_left (fun mol atom => SetProp mol atom (fst lp)) atoms mol)
    (combine atomTypes [hbd; hba; pi_e; halogen; basic; acidic; aliphatic_C])
    mol.

End Toolkit.

(** The fingerprint dictionary: an [OrderedDict] from pair keys to
    arrays of ten counters, as its items in insertion order. *)
Definition fp_dict : Type := list (string * list Z).

(** [fp[key]]. *)
Fixpoint getitem (fp : fp_dict) (key : string) : outcome (list Z) :=
  match fp with
  | [] => Raise KeyError
  | (k, v) :: fp' => if String.eqb k key then Ok v else getitem fp' key
  end.

(** [fp[key] = v] *)
Fixpoint setitem (fp : fp_dict) (key : string) (v : list Z) : fp_dict :=
  match fp with
  | [] => [(key, v)]
  | (k, w) :: fp' =>
      if String.eqb k key then (k, v) :: fp' else (k, w) :: setitem fp' key v
  end.

(** [arr[i] = v] at an index already checked. *)
Fixpoint array_set (arr : list Z) (i : nat) (v : Z) : list Z :=
  match arr, i with
  | [], _ => []
  | _ :: arr', O => v :: arr'
  | a :: arr', S i' => a :: array_set arr' i' v
  end.

(** [fp[key][distance] = fp[key][distance] + 1]: the array held under
    [key] is updated in place. *)
Definition increment (fp : fp_dict) (key : string) (distance : Z) : outcome fp_dict :=
  arr <- getitem fp key ;;
  i <- index (length arr) distance ;;
  Ok (setitem fp key (array_set arr i (nth i arr 0 + 1)%Z)).

(** The pharmacophore labels among an atom's property keys. *)
Definition labels (mol : Mol) (atom : nat) : list string :=
  filter (fun i => existsb (String.eqb i) atomTypes) (GetPropsAsDict mol atom).

Definition addBond (point : nat * nat) (mol : Mol) (distance : Z) (fp : fp_dict)
  : outcome fp_dict :=
  let atom1 := labels mol (fst point) in
  let atom2 := labels mol (snd point) in
  for_each
    (fun fp x => for_each (fun fp y => increment fp (pair_key x y) distance) atom2 fp)
    atom1 fp.

Definition make_blank_distributions : fp_dict :=
  fold_left (fun mol_fp pair => setitem mol_fp pair [0; 0; 0; 0; 0; 0; 0; 0; 0; 0]%Z)
    possible_pairs [].

Definition getDistances (mol : Mol) (fp : fp_dict) : outcome fp_dict :=
  for_each
    (fun fp point =>
       let distance := GetDistanceMatrix mol (fst point) (snd point) in
       if (distance <? 11)%Z then addBond point mol (distance - 1)%Z fp
       else Ok fp)
    (combinations2 (seq 0 (GetNumAtoms mol))) fp.

(** [blank_FP[count] = value] on a 2-D array with rows of ten entries:
    the row index is checked, and [value] must have ten entries or
    broadcast from one. *)
Definition assign_row (blank_FP : list (list Z)) (count : nat) (value : list Z)
  : outcome (list (list Z)) :=
  if Nat.ltb count (length blank_FP) then
    if Nat.eqb (length value) 10 then
      Ok (firstn count blank_FP ++ value :: skipn (S count) blank_FP)
    else
      match value with
      | [v] => Ok (firstn count blank_FP ++ repeat v 10 :: skipn (S count) blank_FP)
      | _ => Raise ValueError
      end
  else Raise IndexError.

(** [enumerate(l)]. *)
Definition enumerate {A : Type} (l : list A) : list (nat * A) :=
  combine (seq 0 (length l)) l.

Section MakeFP.

Variable GetSubstructMatches : Mol -> pphore -> list nat.

(** The entries of the result are [float64] values holding the integer
    counters; they are kept as integers here. *)
Definition make_FP (mol : Mol) : outcome (list Z) :=
  let mol := setProps GetSubstructMatches mol in
  let fp := make_blank_distributions in
  fp <- getDistances mol fp ;;
  let blank_FP := repeat (repeat 0%Z 10) 28 in
  blank_FP <-
    for_each (fun blank_FP cv => assign_row blank_FP (fst cv) (snd (snd cv)))
      (enumerate fp) blank_FP ;;
  Ok (concat blank_FP).

End MakeFP.

End MakeCats.

(** ** The properties, in the words of the specification *)

Module Spec.

Import Np.

Definition Qsum (l : list Q) : Q := fold_right Qplus 0%Q l.

(** The 50 thresholds, as float64 values: 0, for [k] from 1 to 48 the
    float64 product of [k] and the float64 nearest to 1/49, and 1.  All
    but those of [k] = 0, 25 and 49 lie strictly below [k/49]; that of
    [k] = 25 lies above. *)
Definition thresholds : list Q :=
  [ 0; 5882252574524729 # 288230376151711744;
    5882252574524729 # 144115188075855872;
    4411689430893547 # 72057594037927936;
    5882252574524729 # 72057594037927936;
    7352815718155911 # 72057594037927936;
    4411689430893547 # 36028797018963968;
    2573485501354569 # 18014398509481984;
    5882252574524729 # 36028797018963968; 206797942073135 # 1125899906842624;
    7352815718155911 # 36028797018963968;
    4044048644985751 # 18014398509481984;
    4411689430893547 # 18014398509481984;
    2389665108400671 # 9007199254740992; 2573485501354569 # 9007199254740992;
    5514611788616933 # 18014398509481984;
    5882252574524729 # 18014398509481984;
    6249893360432525 # 18014398509481984; 206797942073135 # 562949953421312;
    1746293733062029 # 4503599627370496;
    7352815718155911 # 18014398509481984;
    7720456504063707 # 18014398509481984;
    4044048644985751 # 9007199254740992; 4227869037939649 # 9007199254740992;
    4411689430893547 # 9007199254740992; 4595509823847445 # 9007199254740992;
    2389665108400671 # 4503599627370496; 620393826219405 # 1125899906842624;
    2573485501354569 # 4503599627370496; 1332697848915759 # 2251799813685248;
    5514611788616933 # 9007199254740992; 5698432181570831 # 9007199254740992;
    5882252574524729 # 9007199254740992; 6066072967478627 # 9007199254740992;
    6249893360432525 # 9007199254740992; 3216856876693211 # 4503599627370496;
    206797942073135 # 281474976710656; 3400677269647109 # 4503599627370496;
    1746293733062029 # 2251799813685248; 7168995325202013 # 9007199254740992;
    7352815718155911 # 9007199254740992; 7536636111109809 # 9007199254740992;
    7720456504063707 # 9007199254740992; 7904276897017605 # 9007199254740992;
    4044048644985751 # 4503599627370496; 1033989710365675 # 1125899906842624;
    4227869037939649 # 4503599627370496; 2159889617208299 # 2251799813685248;
    4411689430893547 # 4503599627370496; 1 ]%Q.

(** The 50 evenly spaced points [k/49] of [[0, 1]], both ends included. *)
Definition even_thresholds : list Q := map (fun k => (Z.of_nat k # 49)%Q) (seq 0 50).

(** The row has at least one entry strictly below [t]. *)
Definition has_entry_below (t : Q) (r : list Q) : bool :=
  existsb (fun d => if Qlt_le_dec d t then true else false) r.

(** The fraction of the rows of [M] with an entry strictly below [t]. *)
Definition fraction_below (M : ndarray2 Q) (t : Q) : Q :=
  (inject_Z (Z.of_nat (length (filter (has_entry_below t) (rows M))))
   / inject_Z (Z.of_nat (nrows M)))%Q.

(** The similarity score of one matrix: the mean of [fraction_below]
    over the thresholds. *)
Definition S (M : ndarray2 Q) : Q :=
  (Qsum (map (fraction_below M) thresholds) / 50)%Q.

Definition AVE (distances : Utils.quartet) : Q :=
  let '(aTest_aTrain, aTest_iTrain, iTest_iTrain, iTest_aTrain) := distances in
  (S aTest_aTrain - S aTest_iTrain + S iTest_iTrain - S iTest_aTrain)%Q.

(** The same score and bias over the evenly spaced points [k/49]. *)
Definition S_even (M : ndarray2 Q) : Q :=
  (Qsum (map (fraction_below M) even_thresholds) / 50)%Q.

Definition AVE_even (distances : Utils.quartet) : Q :=
  let '(aTest_aTrain, aTest_iTrain, iTest_iTrain, iTest_aTrain) := distances in
  (S_even aTest_aTrain - S_even aTest_iTrain + S_even iTest_iTrain
   - S_even iTest_aTrain)%Q.

(** [m] is the minimum of the row [r]. *)
Definition is_min (r : list Q) (m : Q) : Prop :=
  In m r /\ forall d, In d r -> (m <= d)%Q.



(** Entry [(i, j)] of a matrix of floats; NaN outside. *)
Definition entry (D : ndarray2 npfloat) (i j : nat) : npfloat :=
  nth j (nth i (rows D) []) NaN.



(** Some group of the quartet is empty: a matrix has no row or no column. *)
Definition empty_matrix (M : ndarray2 Q) : Prop := nrows M = 0%nat \/ ncols M = 0%nat.

Definition has_empty_group (distances : Utils.quartet) : Prop :=
  let '(a, b, c, d) := distances in
  empty_matrix a \/ empty_matrix b \/ empty_matrix c \/ empty_matrix d.

(** The call reported a condition. *)
Definition reported {A : Type} (o : outcome A) : Prop := exists e, o = Raise e.

(** Test and train share no cluster id. *)
Definition disjoint (test train : list Z) : Prop :=
  forall c, In c test -> ~ In c train.

(** Test and train together hold every given cluster id. *)
Definition covers (pos_labels neg_labels test train : list Z) : Prop :=
  forall c, In c pos_labels \/ In c neg_labels -> In c test \/ In c train.

(** The unordered pairs of distinct atoms, each once as [(i, j)] with [i < j]. *)
Definition atom_pairs (n : nat) : list (nat * nat) :=
  filter (fun p => Nat.ltb (fst p) (snd p)) (list_prod (seq 0 n) (seq 0 n)).

(** Every (atom pair, label of the first atom, label of the second). *)
Definition label_pairs (mol : MakeCats.Mol) : list (nat * nat * (string * string)) :=
  flat_map
    (fun p => map (pair p)
                (list_prod (MakeCats.labels mol (fst p)) (MakeCats.labels mol (snd p))))
    (atom_pairs (MakeCats.GetNumAtoms mol)).

(** The keys of every atom's property dictionary are distinct. *)
Definition dict_keys (mol : MakeCats.Mol) : Prop :=
  forall atom : nat, NoDup (MakeCats.GetPropsAsDict mol atom).

(** The labels an atom carries: the symbols of the alphabet that are keys
    of its property dictionary. *)
Definition carried (mol : MakeCats.Mol) (atom : nat) : list string :=
  filter (fun x => existsb (String.eqb x) (MakeCats.GetPropsAsDict mol atom))
    MakeCats.atomTypes.

(** Every (atom pair, label carried by the first atom, label carried by
    the second). *)
Definition carried_pairs (mol : MakeCats.Mol) : list (nat * nat * (string * string)) :=
  flat_map
    (fun p => map (pair p) (list_prod (carried mol (fst p)) (carried mol (snd p))))
    (atom_pairs (MakeCats.GetNumAtoms mol)).

(** The number of those combinations that fall on [key] at distance
    [bucket + 1], the distance being under 11. *)
Definition counted (mol : MakeCats.Mol) (key : string) (bucket : nat) : Z :=
  Z.of_nat
    (length
       (filter
          (fun c =>
             let d := MakeCats.GetDistanceMatrix mol (fst (fst c)) (snd (fst c)) in
             (d <? 11)%Z && (d - 1 =? Z.of_nat bucket)%Z
             && String.eqb (MakeCats.pair_key (fst (snd c)) (snd (snd c))) key)
          (carried_pairs mol))).

(** The number of label pairs that fall on [key] at distance
    [bucket + 1], the distance being under 11. *)
Definition contributions (mol : MakeCats.Mol) (key : string) (bucket : nat) : Z :=
  Z.of_nat
    (length
       (filter
          (fun c =>
             let d := MakeCats.GetDistanceMatrix mol (fst (fst c)) (snd (fst c)) in
             (d <? 11)%Z && (d - 1 =? Z.of_nat bucket)%Z
             && String.eqb (MakeCats.pair_key (fst (snd c)) (snd (snd c))) key)
          (label_pairs mol))).

(** Topological distances: two distinct atoms are at least one bond apart. *)
Definition topological (mol : MakeCats.Mol) : Prop :=
  forall i j : nat, (i < j < MakeCats.GetNumAtoms mol)%nat ->
              (1 <= MakeCats.GetDistanceMatrix mol i j)%Z.

(** Counter [bucket] of the histogram of [key]. *)
Definition counter (fp : MakeCats.fp_dict) (key : string) (bucket : nat) : Z :=
  match MakeCats.getitem fp key with
  | Ok arr => nth bucket arr 0%Z
  | Raise _ => 0%Z
  end.

(** A float that is a number or NaN, never an infinity. *)
Definition finite_or_nan (a : npfloat) : Prop :=
  match a with
  | Inf _ => False
  | _ => True
  end.

(** A row of zeros and ones. *)
Definition binary (r : list Z) : Prop := Forall (fun v => v = 0%Z \/ v = 1%Z) r.

(** The Jaccard distance of two binarized rows. *)
Definition jaccard_rows (x y : list Z) : npfloat :=
  sub (Num 1%Q)
    (true_divide (of_Z (Utils.dot_row x y))
       (of_Z (Utils.sumZ x + Utils.sumZ y - Utils.dot_row x y))).

(** The Dice distance of two binarized rows. *)
Definition dice_rows (x y : list Z) : npfloat :=
  sub (Num 1%Q)
    (true_divide (of_Z (2 * Utils.dot_row x y))
       (of_Z (Z.of_nat (length (filter (fun v => negb (v =? 0)%Z) x))
              + Z.of_nat (length (filter (fun v => negb (v =? 0)%Z) y))))).

(** The dictionary holds the 28 pair keys in their order, each with an
    array of ten counters. *)
Definition well_formed (fp : MakeCats.fp_dict) : Prop :=
  map fst fp = MakeCats.possible_pairs
  /\ Forall (fun kv => length (snd kv) = 10%nat) fp.

(** The increments of one fingerprinting pass, in the order of the
    loops: the key and the array index of each. *)
Definition events (mol : MakeCats.Mol) : list (string * Z) :=
  flat_map
    (fun point =>
       let distance := MakeCats.GetDistanceMatrix mol (fst point) (snd point) in
       if (distance <? 11)%Z then
         map (fun xy => (MakeCats.pair_key (fst xy) (snd xy), (distance - 1)%Z))
           (list_prod (MakeCats.labels mol (fst point))
              (MakeCats.labels mol (snd point)))
       else [])
    (combinations2 (seq 0 (MakeCats.GetNumAtoms mol))).

(** The number of increments of counter [bucket] of [key] among [evs]. *)
Definition hits (evs : list (string * Z)) (key : string) (bucket : nat) : Z :=
  Z.of_nat
    (length
       (filter (fun ev => String.eqb (fst ev) key && (snd ev =? Z.of_nat bucket)%Z)
          evs)).

(** A 1-D label array as the single column of a label matrix. *)
Definition as_column (y : list Q) : Utils.ndarray :=
  Utils.Arr2 (Array2 1 (map (fun v => [v]) y)).

(** Every index of [idx] addresses a sequence of length [n], from the
    front or, when negative, from the end. *)
Definition valid_indices (n : nat) (idx : list Z) : Prop :=
  Forall (fun k => (- Z.of_nat n <= k < Z.of_nat n)%Z) idx.



(** Row [i] of a matrix. *)
Definition row {A : Type} (M : ndarray2 A) (i : nat) : list A := nth i (rows M) [].

(** Position [k] is picked for a group: it is a row position whose
    cluster is one of [clusters] and whose label in column [j] is
    non-zero (for the actives) or zero (for the inactives). *)
Definition picks (labels_ : list Z) (M : ndarray2 Q) (j : nat) (clusters : list Z)
    (active : bool) (k : Z) : Prop :=
  exists i : nat,
    k = Z.of_nat i /\ (i < length labels_)%nat
    /\ In (nth i labels_ 0%Z) clusters
    /\ (if active then ~ (nth j (nth i (rows M) []) 0 == 0)%Q
        else (nth j (nth i (rows M) []) 0 == 0)%Q).

(** Strictly increasing. *)
Fixpoint increasing (l : list Z) : Prop :=
  match l with
  | [] => True
  | a :: l' => Forall (Z.lt a) l' /\ increasing l'
  end.

(** Column [k] of [dmat], [k] counting from the end when negative. *)
Definition column (dmat : ndarray2 Q) (k : Z) : list Q :=
  match index (ncols dmat) k with
  | Ok j => map (fun r => nth j r 0%Q) (rows dmat)
  | Raise _ => []
  end.

(** The smallest entry of column [k] of [dmat], [k] counting from the
    end when negative. *)
Definition column_min (dmat : ndarray2 Q) (k : Z) : Q :=
  match index (ncols dmat) k with
  | Ok j => row_min (map (fun r => nth j r 0%Q) (rows dmat))
  | Raise _ => 0%Q
  end.

(** In non-decreasing order. *)
Fixpoint ascending (l : list Q) : Prop :=
  match l with
  | [] => True
  | a :: l' => Forall (Qle a) l' /\ ascending l'
  end.

(** A matrix of distances with one row per row of [X] and one column
    per row of [Y], every entry NaN or a number between 0 and 1. *)
Definition distance_table (T : ndarray2 npfloat) (X Y : ndarray2 Z) : Prop :=
  nrows T = nrows X /\ ncols T = nrows Y /\ rectangular T
  /\ forall i j : nat, (i < nrows X)%nat -> (j < nrows Y)%nat ->
       entry T i j = NaN
       \/ exists q : Q, entry T i j = Num q /\ (0 <= q)%Q /\ (q <= 1)%Q.

(** [dmat[rows_idx][:, cols_idx]]. *)
Definition submatrix (dmat : ndarray2 Q) (rows_idx cols_idx : list Z)
  : outcome (ndarray2 Q) :=
  M <- take_rows dmat rows_idx ;; take_cols 0%Q M cols_idx.

(** [calc_AVE] on the quartet of submatrices that the four index sets
    select from [dmat]. *)
Definition AVE_of_submatrices (dmat : ndarray2 Q)
    (actives_train actives_test inactives_train inactives_test : list Z)
  : outcome npfloat :=
  aTest_aTrain <- submatrix dmat actives_test actives_train ;;
  aTest_iTrain <- submatrix dmat actives_test inactives_train ;;
  iTest_iTrain <- submatrix dmat inactives_test inactives_train ;;
  iTest_aTrain <- submatrix dmat inactives_test actives_train ;;
  Ok (Utils.calc_AVE (aTest_aTrain, aTest_iTrain, iTest_iTrain, iTest_aTrain)).

End Spec.

(* ================================================================== *)
(** * Theorems                                                         *)
(* ================================================================== *)

Import Np.

(** ** Rationals and floats *)

Lemma Qltb_lt (a b : Q) : Qltb a b = true <-> (a < b)%Q.
Proof.
  unfold Qltb. rewrite negb_true_iff.
  destruct (Qle_bool b a) eqn:E.
  - apply Qle_bool_iff in E. split; [discriminate | intro H; exfalso; lra].
  - split; [intros _ | reflexivity].
    apply Qnot_le_lt. intro H. apply Qle_bool_iff in H. congruence.
Qed.

Lemma Qltb_compat (a b t u : Q) : (a == b)%Q -> (t == u)%Q -> Qltb a t = Qltb b u.
Proof.
  intros Hab Htu.
  destruct (Qltb a t) eqn:E1, (Qltb b u) eqn:E2; try reflexivity.
  - apply Qltb_lt in E1. rewrite Hab, Htu in E1. apply Qltb_lt in E1. congruence.
  - apply Qltb_lt in E2. rewrite <- Hab, <- Htu in E2. apply Qltb_lt in E2. congruence.
Qed.

Lemma Qsum_fold_left (l : list Q) (a : Q) :
  (fold_left Qplus l a == a + Spec.Qsum l)%Q.
Proof.
  revert a. induction l as [|x l IH]; intro a; simpl.
  - ring.
  - rewrite IH. ring.
Qed.

Lemma Qsum_Forall2 (l l' : list Q) :
  Forall2 Qeq l l' -> (Spec.Qsum l == Spec.Qsum l')%Q.
Proof.
  induction 1 as [|x y l l' Hxy _ IH]; simpl.
  - reflexivity.
  - rewrite Hxy, IH. reflexivity.
Qed.

Lemma sum_Num (l : list Q) (a : Q) :
  fold_left add (map Num l) (Num a) = Num (fold_left Qplus l a).
Proof.
  revert a. induction l as [|x l IH]; intro a; simpl; [reflexivity | apply IH].
Qed.

Lemma of_nat_nonzero (n : nat) :
  n <> 0%nat -> Qeq_bool (inject_Z (Z.of_nat n)) 0 = false.
Proof.
  intro H. destruct (Qeq_bool (inject_Z (Z.of_nat n)) 0) eqn:E; [|reflexivity].
  apply Qeq_bool_eq in E. unfold Qeq in E. simpl in E. lia.
Qed.

(** The mean of a non-empty array of finite floats is their sum over
    their count. *)
Lemma mean_Num (l : list Q) :
  l <> [] ->
  mean (map Num l) = Num (fold_left Qplus l 0 / inject_Z (Z.of_nat (length l)))%Q.
Proof.
  intro H. unfold mean, sum. rewrite sum_Num, length_map.
  unfold of_nat, true_divide.
  rewrite of_nat_nonzero; [reflexivity|].
  destruct l; [congruence | simpl; lia].
Qed.

Lemma mean_bool_Num (l : list bool) :
  l <> [] ->
  mean_bool l = Num (inject_Z (Z.of_nat (count_occ bool_dec l true))
                     / inject_Z (Z.of_nat (length l)))%Q.
Proof.
  intro H. unfold mean_bool, of_nat, true_divide.
  rewrite of_nat_nonzero; [reflexivity|].
  destruct l; [congruence | simpl; lia].
Qed.

Lemma count_occ_true_filter {A : Type} (f : A -> bool) (l : list A) :
  count_occ bool_dec (map f l) true = length (filter f l).
Proof.
  induction l as [|a l IH]; simpl; [reflexivity|].
  destruct (f a); destruct (bool_dec _ _); simpl; congruence.
Qed.

(** ** Rounding to float64 *)

Lemma round_monotone (a b : Q) : (a <= b)%Q -> (round a <= round b)%Z.
Proof.
  intro H. unfold round.
  assert (Hf := Qfloor_resp_le _ _ H).
  assert (Fa := Qfloor_le a). assert (Fb := Qlt_floor b).
  set (fa := Qfloor a) in *. set (fb := Qfloor b) in *. clearbody fa fb.
  destruct (Qcompare_spec (a - inject_Z fa) (1 # 2)) as [Ea|Ea|Ea];
    destruct (Qcompare_spec (b - inject_Z fb) (1 # 2)) as [Eb|Eb|Eb];
    destruct (Z.even fa) eqn:Pa; destruct (Z.even fb) eqn:Pb; try lia;
    (destruct (Z.eq_dec fa fb) as [E|NE]; [subst fb | lia]);
    try congruence.
  all: exfalso; lra.
Qed.

Lemma round_inject_Z (k : Z) : round (inject_Z k) = k.
Proof.
  unfold round. rewrite Qfloor_Z.
  assert (E : (inject_Z k - inject_Z k == 0)%Q) by ring.
  rewrite E. reflexivity.
Qed.

Lemma pow2_pos (e : Z) : (0 < pow2 e)%Q.
Proof.
  unfold pow2. destruct (Z.leb_spec 0 e).
  - rewrite <- (Zlt_Qlt 0). apply Z.pow_pos_nonneg; lia.
  - reflexivity.
Qed.

Lemma pow2_nonpos (e : Z) : (e <= 0)%Z -> (inject_Z (2 ^ (- e)) * pow2 e == 1)%Q.
Proof.
  intro H. unfold pow2. destruct (Z.leb_spec 0 e).
  - assert (e = 0%Z) by lia. subst e. reflexivity.
  - assert (K : (0 < 2 ^ (- e))%Z) by (apply Z.pow_pos_nonneg; lia).
    unfold Qeq, Qmult, inject_Z. cbn [Qnum Qden].
    rewrite Pos.mul_1_l, Z2Pos.id by exact K. lia.
Qed.

(** Rounding keeps the sign. *)
Lemma float64_nonneg (x : Q) : (0 <= x)%Q -> (0 <= float64 x)%Q.
Proof.
  intro H. unfold float64. destruct (Qeq_bool x 0); [apply Qle_refl|].
  set (u := pow2 _). assert (Hu : (0 < u)%Q) by apply pow2_pos.
  apply Qmult_le_0_compat; [|apply Qlt_le_weak; exact Hu].
  rewrite <- (Zle_Qle 0). rewrite <- (round_inject_Z 0) at 1.
  apply round_monotone. apply Qle_shift_div_l; [exact Hu|].
  change (inject_Z 0) with 0%Q. lra.
Qed.

(** Rounding does not cross 1. *)
Lemma float64_le_one (x : Q) : (x <= 1)%Q -> (float64 x <= 1)%Q.
Proof.
  intro H. unfold float64. destruct (Qeq_bool x 0); [discriminate|].
  destruct (Qlt_le_dec 0 x) as [Hpos|Hneg].
  - set (e := Z.max (binade (Qabs x) - 52) (-1074)).
    assert (He : (e <= 0)%Z).
    { assert (Hb : (binade (Qabs x) <= 0)%Z).
      { destruct x as [p q]. unfold Qlt in Hpos. unfold Qle in H.
        cbn [Qnum Qden] in Hpos, H.
        unfold Qabs, binade. cbn [Qnum Qden].
        assert (Hp : Z.abs p = p) by lia. rewrite Hp.
        assert (L : (Z.log2 p <= Z.log2 (Z.pos q))%Z) by (apply Z.log2_le_mono; lia).
        destruct (Qle_bool _ _); lia. }
      unfold e. lia. }
    assert (Hu : (0 < pow2 e)%Q) by apply pow2_pos.
    assert (K := pow2_nonpos He).
    set (u := pow2 e) in *. set (k := (2 ^ (- e))%Z) in *.
    assert (R : (round (x / u) <= k)%Z).
    { rewrite <- (round_inject_Z k). apply round_monotone.
      apply Qle_shift_div_r; [exact Hu|]. lra. }
    rewrite Zle_Qle in R.
    assert (M : (inject_Z (round (x / u)) * u <= inject_Z k * u)%Q)
      by (apply Qmult_le_compat_r; [exact R | apply Qlt_le_weak; exact Hu]).
    lra.
  - set (u := pow2 _). assert (Hu : (0 < u)%Q) by apply pow2_pos.
    assert (R : (round (x / u) <= 0)%Z).
    { rewrite <- (round_inject_Z 0) at 1. apply round_monotone.
      apply Qle_shift_div_r; [exact Hu|]. change (inject_Z 0) with 0%Q. lra. }
    rewrite Zle_Qle in R. change (inject_Z 0) with 0%Q in R.
    assert (M : (inject_Z (round (x / u)) * u <= 0 * u)%Q)
      by (apply Qmult_le_compat_r; [exact R | apply Qlt_le_weak; exact Hu]).
    lra.
Qed.

(** The rounding on a few decimal literals: the step of the thresholds,
    [50 * 0.01], [10 * 0.7], [3 * (1 / 3)], [50 * 0.58] and [0.1 + 0.2]. *)
Lemma float64_values :
  (float64 (1 / 49) == 5882252574524729 # 288230376151711744)%Q
  /\ (Utils.times 50 (float64 (1 # 100)) == 1 # 2)%Q
  /\ (Utils.times 10 (float64 (7 # 10)) == 7)%Q
  /\ (Utils.times 3 (float64 (1 # 3)) == 1)%Q
  /\ (Utils.times 50 (float64 (58 # 100)) == 8162774324609023 # 281474976710656)%Q
  /\ (float64 (float64 (1 # 10) + float64 (2 # 10))
      == 1351079888211149 # 4503599627370496)%Q.
Proof. vm_compute. repeat split. Qed.

(** ** AVE bias: [calc_AVE] *)

(** The thresholds [calc_AVE] compares with are the float64 values that
    [np.linspace(0, 1.0, 50)] computes. *)
Lemma linspace_thresholds : Forall2 Qeq (linspace 0 1 50) Spec.thresholds.
Proof.
  let v := eval vm_compute in (linspace 0 1 50) in
  change (linspace 0 1 50) with v.
  unfold Spec.thresholds.
  repeat (constructor; [vm_compute; reflexivity|]). constructor.
Qed.

Lemma linspace_length : length (linspace 0 1 50) = 50%nat.
Proof.
  rewrite (Forall2_length linspace_thresholds). reflexivity.
Qed.

Lemma any_row_below (t t' : Q) (r : list Q) :
  (t == t')%Q ->
  existsb (fun b : bool => b) (map (fun d => Qltb d t) r) = Spec.has_entry_below t' r.
Proof.
  intro Ht. unfold Spec.has_entry_below.
  induction r as [|d r IH]; simpl; [reflexivity|].
  rewrite IH. f_equal.
  destruct (Qlt_le_dec d t') as [Hlt|Hle].
  - apply Qltb_lt. rewrite Ht. exact Hlt.
  - destruct (Qltb d t) eqn:E; [|reflexivity].
    apply Qltb_lt in E. rewrite Ht in E. exfalso. lra.
Qed.

Lemma filter_length_ext {A : Type} (f g : A -> bool) (l : list A) :
  (forall a, f a = g a) -> length (filter f l) = length (filter g l).
Proof.
  intro H. induction l as [|a l IH]; simpl; [reflexivity|].
  rewrite H. destruct (g a); simpl; congruence.
Qed.

(** At one threshold, the mean of the row-wise [any] is the fraction of
    rows with an entry below the threshold. *)
Lemma any_fraction (M : ndarray2 Q) (t t' : Q) :
  (t == t')%Q ->
  (inject_Z (Z.of_nat (count_occ bool_dec (any_axis1 (less M t)) true))
   / inject_Z (Z.of_nat (length (any_axis1 (less M t))))
   == Spec.fraction_below M t')%Q.
Proof.
  intro Ht. unfold any_axis1, less, Spec.fraction_below, nrows. simpl rows.
  rewrite map_map, count_occ_true_filter, length_map.
  rewrite (filter_length_ext _ (Spec.has_entry_below t')).
  - reflexivity.
  - intro r. apply any_row_below. exact Ht.
Qed.

Lemma Forall2_map_Qeq (f g : Q -> Q) (l l' : list Q) :
  (forall t t', (t == t')%Q -> (f t == g t')%Q) ->
  Forall2 Qeq l l' -> Forall2 Qeq (map f l) (map g l').
Proof.
  intros H. induction 1; simpl; constructor; auto.
Qed.

(** The score of one matrix with at least one row is a finite number,
    the mean of the fractions over the thresholds. *)
Lemma any_S_spec (M : ndarray2 Q) :
  (0 < nrows M)%nat ->
  exists v : Q, Utils.any_S M = Num v /\ (v == Spec.S M)%Q.
Proof.
  intro Hrows. unfold Utils.any_S.
  set (f := fun t : Q =>
              (inject_Z (Z.of_nat (count_occ bool_dec (any_axis1 (less M t)) true))
               / inject_Z (Z.of_nat (length (any_axis1 (less M t)))))%Q).
  assert (E : map (fun t => mean_bool (any_axis1 (less M t))) (linspace 0 1 50)
              = map Num (map f (linspace 0 1 50))).
  { rewrite map_map. apply map_ext. intro t. apply mean_bool_Num.
    unfold any_axis1, less. simpl rows. unfold nrows in Hrows.
    destruct (rows M); simpl in *; [lia | discriminate]. }
  rewrite E, mean_Num
    by (intro E0; apply (f_equal (@length Q)) in E0;
        rewrite length_map, linspace_length in E0; discriminate).
  eexists. split; [reflexivity|].
  unfold Spec.S. rewrite Qsum_fold_left, length_map.
  rewrite linspace_length.
  rewrite (Qsum_Forall2 (l := map f (linspace 0 1 50))
             (l' := map (Spec.fraction_below M) Spec.thresholds)).
  - change (inject_Z (Z.of_nat 50)) with (50 # 1)%Q. field.
  - apply Forall2_map_Qeq; [|exact linspace_thresholds].
    intros t t' Ht. apply any_fraction. exact Ht.
Qed.

(** C1, as the code has it: on a quartet whose four matrices each have
    at least one row, [calc_AVE] returns a finite number, equal to
    S(aTest,aTrain) - S(aTest,iTrain) + S(iTest,iTrain) - S(iTest,aTrain),
    where S(M) is the mean, over the 50 float64 thresholds of
    [np.linspace(0, 1.0, 50)], of the fraction of rows of M having an
    entry strictly below the threshold. *)
Theorem calc_AVE_spec (aTest_aTrain aTest_iTrain iTest_iTrain iTest_aTrain : ndarray2 Q) :
  (0 < nrows aTest_aTrain)%nat -> (0 < nrows aTest_iTrain)%nat ->
  (0 < nrows iTest_iTrain)%nat -> (0 < nrows iTest_aTrain)%nat ->
  exists v : Q,
    Utils.calc_AVE (aTest_aTrain, aTest_iTrain, iTest_iTrain, iTest_aTrain) = Num v
    /\ (v == Spec.AVE (aTest_aTrain, aTest_iTrain, iTest_iTrain, iTest_aTrain))%Q.
Proof.
  intros H1 H2 H3 H4.
  destruct (any_S_spec _ H1) as (v1 & E1 & Q1).
  destruct (any_S_spec _ H2) as (v2 & E2 & Q2).
  destruct (any_S_spec _ H3) as (v3 & E3 & Q3).
  destruct (any_S_spec _ H4) as (v4 & E4 & Q4).
  unfold Utils.calc_AVE. rewrite E1, E2, E3, E4. simpl.
  eexists. split; [reflexivity|].
  unfold Spec.AVE. rewrite Q1, Q2, Q3, Q4. ring.
Qed.

(** A quartet of 2-by-2 distance matrices. *)
Lemma calc_AVE_spec_witness :
  let near := Array2 2 [[1 # 8; 7 # 8]; [1 # 2; 3 # 4]]%Q in
  let far := Array2 2 [[3 # 4; 7 # 8]; [1; 5 # 8]]%Q in
  exists v : Q,
    Utils.calc_AVE (near, far, near, far) = Num v
    /\ (v == Spec.AVE (near, far, near, far))%Q.
Proof.
  intros near far.
  apply (calc_AVE_spec near far near far); unfold nrows; simpl; lia.
Defined.

(** The thresholds are not the evenly spaced points [k/49].  An active
    test sample whose nearest train active is at the float64 distance
    0.061224489795918366, the fourth threshold, is below 46 of the 50
    thresholds and scores 46/50; over the points [k/49], of which [3/49]
    lies above that distance, it would score 47/50. *)
Lemma calc_AVE_even_thresholds :
  let near := Array2 1 [[4411689430893547 # 72057594037927936]]%Q in
  let far := Array2 1 [[1]]%Q in
  exists v : Q,
    Utils.calc_AVE (near, far, far, far) = Num v
    /\ (v == 46 # 50)%Q
    /\ (Spec.AVE_even (near, far, far, far) == 47 # 50)%Q
    /\ ~ (v == Spec.AVE_even (near, far, far, far))%Q.
Proof.
  intros near far.
  destruct (@any_S_spec near) as (v1 & E1 & Q1); [unfold nrows; simpl; lia|].
  destruct (@any_S_spec far) as (v2 & E2 & Q2); [unfold nrows; simpl; lia|].
  assert (S1 : (Spec.S near == 46 # 50)%Q) by (vm_compute; reflexivity).
  assert (S2 : (Spec.S far == 0)%Q) by (vm_compute; reflexivity).
  assert (A : (Spec.AVE_even (near, far, far, far) == 47 # 50)%Q)
    by (vm_compute; reflexivity).
  unfold Utils.calc_AVE. rewrite E1, E2. cbn [sub add neg].
  eexists. split; [reflexivity|].
  assert (V : (v1 + - v2 + v2 + - v2 == 46 # 50)%Q) by (rewrite Q1, Q2, S1, S2; ring).
  split; [exact V|]. split; [exact A|].
  rewrite V, A. discriminate.
Qed.

(** ** AVE bias from row minima: [calc_AVE_quick] *)

Lemma Qltb_min (x y t : Q) : Qltb (Qmin x y) t = Qltb x t || Qltb y t.
Proof.
  destruct (Qltb (Qmin x y) t) eqn:E.
  - apply Qltb_lt in E. apply Q.min_lt_iff in E. symmetry. apply orb_true_iff.
    destruct E as [E|E]; [left | right]; apply Qltb_lt; exact E.
  - symmetry. apply orb_false_iff.
    split.
    + destruct (Qltb x t) eqn:Ex; [|reflexivity].
      apply Qltb_lt in Ex.
      assert (H : (Qmin x y < t)%Q) by (apply Q.min_lt_iff; left; exact Ex).
      apply Qltb_lt in H. congruence.
    + destruct (Qltb y t) eqn:Ey; [|reflexivity].
      apply Qltb_lt in Ey.
      assert (H : (Qmin x y < t)%Q) by (apply Q.min_lt_iff; right; exact Ey).
      apply Qltb_lt in H. congruence.
Qed.

Lemma fold_min_below (xs : list Q) (x t : Q) :
  Qltb (fold_left Qmin xs x) t = Qltb x t || existsb (fun d => Qltb d t) xs.
Proof.
  revert x. induction xs as [|y ys IH]; intro x; simpl.
  - rewrite orb_false_r. reflexivity.
  - rewrite IH, Qltb_min, orb_assoc. reflexivity.
Qed.

(** The minimum of a non-empty row is below [t] exactly when some entry
    of the row is. *)
Lemma row_min_below (r : list Q) (t : Q) :
  r <> [] ->
  Qltb (row_min r) t = existsb (fun b : bool => b) (map (fun d => Qltb d t) r).
Proof.
  intro H. destruct r as [|x xs]; [congruence|].
  simpl. rewrite fold_min_below. f_equal.
  induction xs as [|y ys IH]; simpl; [reflexivity|].
  rewrite IH by discriminate. reflexivity.
Qed.

Lemma min_S_any_S (c : nat) (rs : list (list Q)) :
  Forall (fun r => r <> []) rs ->
  Utils.min_S (map row_min rs) = Utils.any_S (Array2 c rs).
Proof.
  intro H. unfold Utils.min_S, Utils.any_S. f_equal.
  apply map_ext. intro t. f_equal.
  unfold Utils.less1, any_axis1, less. simpl rows.
  rewrite !map_map. apply map_ext_in. intros r Hr.
  apply row_min_below. rewrite Forall_forall in H. apply H. exact Hr.
Qed.

Lemma mapM_length {A B : Type} (f : A -> outcome B) (l : list A) (bs : list B) :
  mapM f l = Ok bs -> length bs = length l.
Proof.
  revert bs. induction l as [|a l IH]; intros bs; simpl.
  - intro E. inversion E. reflexivity.
  - destruct (f a) as [b|e]; simpl; [|discriminate].
    destruct (mapM f l) as [bs'|e]; simpl; [|discriminate].
    intro E. inversion E. simpl. f_equal. apply IH. reflexivity.
Qed.

Lemma index_raises (n : nat) (i : Z) (e : exn) : index n i = Raise e -> e = IndexError.
Proof.
  unfold index. destruct (_ && _); [discriminate|].
  destruct (_ && _); [discriminate|]. congruence.
Qed.

Lemma mapM_index_raises (n : nat) (l : list Z) (e : exn) :
  mapM (index n) l = Raise e -> e = IndexError.
Proof.
  induction l as [|a l IH]; simpl; [discriminate|].
  destruct (index n a) as [b|e'] eqn:E; simpl.
  - destruct (mapM (index n) l) as [bs|e'']; simpl; [discriminate|].
    intro H. inversion H. subst. apply IH. reflexivity.
  - intro H. inversion H. subst. eapply index_raises. exact E.
Qed.

(** The row minima of selected columns, when at least one is selected. *)
Lemma min_axis1_selected (rs : list (list Q)) (idx : list Z) (js : list nat) :
  idx <> [] -> length js = length idx ->
  let M := Array2 (length idx) (map (fun r => map (fun j => nth j r 0%Q) js) rs) in
  min_axis1 M = Ok (map row_min (rows M)) /\ Forall (fun r => r <> []) (rows M).
Proof.
  intros Hne Hlen M. split.
  - unfold min_axis1. simpl ncols.
    destruct idx; [congruence | reflexivity].
  - unfold M. simpl rows. apply Forall_forall. intros r Hr.
    apply in_map_iff in Hr. destruct Hr as (r0 & <- & _).
    destruct js; [destruct idx; simpl in *; congruence | discriminate].
Qed.

(** C10: for index sets with at least one train-side active and one
    train-side inactive, [calc_AVE_quick] on [dmat] and [calc_AVE] on
    the four selected submatrices are the same computation: the same
    number when every index is valid, the same [IndexError] otherwise. *)
Theorem calc_AVE_quick_refines (dmat : ndarray2 Q)
    (actives_train actives_test inactives_train inactives_test : list Z) :
  actives_train <> [] -> inactives_train <> [] ->
  Utils.calc_AVE_quick dmat actives_train actives_test inactives_train inactives_test
  = Spec.AVE_of_submatrices dmat actives_train actives_test inactives_train
      inactives_test.
Proof.
  intros Hat Hit.
  unfold Utils.calc_AVE_quick, Spec.AVE_of_submatrices, Spec.submatrix.
  unfold take_rows, take_cols.
  destruct (mapM (index (nrows dmat)) inactives_test) as [ri|e1] eqn:Eri;
    destruct (mapM (index (nrows dmat)) actives_test) as [ra|e2] eqn:Era;
    cbn [Py.bind ncols rows];
    destruct (mapM (index (ncols dmat)) inactives_train) as [ci|e3] eqn:Eci;
    destruct (mapM (index (ncols dmat)) actives_train) as [ca|e4] eqn:Eca;
    cbn [Py.bind ncols rows];
    repeat match goal with
      | H : mapM (index _) _ = Raise _ |- _ => apply mapM_index_raises in H; subst
      end;
    try reflexivity.
  all: try apply mapM_length in Eci; try apply mapM_length in Eca.
  all: repeat match goal with
         | |- context [min_axis1 (Array2 (length ?idx)
                                    (map (fun r => map (fun j => nth j r 0%Q) ?js) ?rs))] =>
             let H := fresh "H" in
             let F := fresh "F" in
             destruct (@min_axis1_selected rs idx js) as [H F];
             [assumption | assumption
             | cbv zeta in H, F; cbn [rows] in H, F; rewrite H; clear H;
               cbn [Py.bind] ]
         end.
  all: try reflexivity.
  all: rewrite !min_S_any_S with (c := 0%nat) by assumption.
  all: reflexivity.
Qed.

(** A 4-by-4 distance matrix, actives at rows 0 and 1, inactives at 2 and 3. *)
Lemma calc_AVE_quick_refines_witness :
  let dmat := Array2 4 [[0; 1 # 4; 3 # 4; 1]; [1 # 4; 0; 1 # 2; 3 # 4];
                        [3 # 4; 1 # 2; 0; 1 # 3]; [1; 3 # 4; 1 # 3; 0]]%Q in
  Utils.calc_AVE_quick dmat [0; -3]%Z [1]%Z [2]%Z [3]%Z
  = Spec.AVE_of_submatrices dmat [0; -3]%Z [1]%Z [2]%Z [3]%Z.
Proof.
  intro dmat. apply (calc_AVE_quick_refines dmat); discriminate.
Defined.

(** ** VE bias: [calc_VE] *)

Lemma Qmin_cases (x y : Q) : Qmin x y = x \/ Qmin x y = y.
Proof.
  unfold Qmin, GenericMinMax.gmin. destruct (x ?= y)%Q; auto.
Qed.

Lemma fold_min_is_min (xs : list Q) (x : Q) :
  Spec.is_min (x :: xs) (fold_left Qmin xs x).
Proof.
  revert x. induction xs as [|y ys IH]; intro x; simpl fold_left.
  - split; [left; reflexivity|].
    intros d [<-|[]]. apply Qle_refl.
  - destruct (IH (Qmin x y)) as [Hin Hle]. split.
    + destruct Hin as [E|Hin]; [|right; right; exact Hin].
      rewrite <- E. destruct (Qmin_cases x y) as [-> | ->]; simpl; auto.
    + intros d Hd.
      assert (Hm : (fold_left Qmin ys (Qmin x y) <= Qmin x y)%Q)
        by (apply Hle; left; reflexivity).
      destruct Hd as [<-|[<-|Hd]].
      * eapply Qle_trans; [exact Hm | apply Q.le_min_l].
      * eapply Qle_trans; [exact Hm | apply Q.le_min_r].
      * apply Hle. right. exact Hd.
Qed.

(** [row_min] of a non-empty row is an entry of the row below all others. *)
Lemma row_min_is_min (r : list Q) : r <> [] -> Spec.is_min r (row_min r).
Proof.
  destruct r as [|x xs]; [congruence|]. intros _. apply fold_min_is_min.
Qed.

Lemma is_min_unique (r : list Q) (m m' : Q) :
  Spec.is_min r m -> Spec.is_min r m' -> (m == m')%Q.
Proof.
  intros [I1 L1] [I2 L2]. apply Qle_antisym; auto.
Qed.








Lemma Qsum_zero (l : list Q) : Forall (fun x => (x == 0)%Q) l -> (Spec.Qsum l == 0)%Q.
Proof.
  induction 1 as [|x l Hx _ IH]; simpl; [reflexivity|].
  rewrite Hx, IH. ring.
Qed.






(** ** Empty groups in the bias estimators *)

Lemma count_occ_le_length (l : list bool) :
  (count_occ bool_dec l true <= length l)%nat.
Proof.
  induction l as [|b l IH]; simpl; [lia|].
  destruct (bool_dec b true); simpl; lia.
Qed.

Lemma mean_bool_finite_or_nan (l : list bool) : Spec.finite_or_nan (mean_bool l).
Proof.
  unfold mean_bool, of_nat, true_divide.
  destruct (Qeq_bool (inject_Z (Z.of_nat (length l))) 0) eqn:E; [|exact I].
  apply Qeq_bool_eq in E. unfold Qeq in E. simpl in E.
  assert (H := count_occ_le_length l).
  assert (C : count_occ bool_dec l true = 0%nat) by lia.
  rewrite C. exact I.
Qed.

Lemma fold_add_finite_or_nan (l : list npfloat) (a : npfloat) :
  Spec.finite_or_nan a -> Forall Spec.finite_or_nan l -> Spec.finite_or_nan (fold_left add l a).
Proof.
  revert a. induction l as [|x l IH]; intros a Ha Hl; simpl; [exact Ha|].
  inversion Hl as [|? ? Hx Hl']; subst. apply IH; [|exact Hl'].
  destruct a, x; simpl in *; tauto.
Qed.

Lemma fold_add_NaN (l : list npfloat) : fold_left add l NaN = NaN.
Proof.
  induction l as [|x l IH]; simpl; [reflexivity | exact IH].
Qed.

Lemma any_S_finite_or_nan (M : ndarray2 Q) : Spec.finite_or_nan (Utils.any_S M).
Proof.
  unfold Utils.any_S, mean, sum.
  set (l := map _ (linspace 0 1 50)).
  assert (F : Spec.finite_or_nan (fold_left add l (Num 0%Q))).
  { apply fold_add_finite_or_nan; [exact I|].
    apply Forall_forall. intros x Hx. apply in_map_iff in Hx.
    destruct Hx as (t & <- & _). apply mean_bool_finite_or_nan. }
  assert (L : length l = 50%nat) by (unfold l; rewrite length_map; reflexivity).
  rewrite L. destruct (fold_left add l (Num 0%Q)); simpl in *; tauto.
Qed.

Lemma fold_add_all_NaN (l : list npfloat) (a : npfloat) :
  l <> [] -> Forall (fun x => x = NaN) l -> fold_left add l a = NaN.
Proof.
  intros Hne Hl. destruct l as [|x l]; [congruence|].
  inversion Hl as [|? ? Hx _]; subst. simpl.
  replace (add a NaN) with (@NaN Q) by (destruct a; reflexivity).
  apply fold_add_NaN.
Qed.

(** A matrix without rows scores NaN: every inner mean is [0/0]. *)
Lemma any_S_no_rows (M : ndarray2 Q) : nrows M = 0%nat -> Utils.any_S M = NaN.
Proof.
  intro H. unfold nrows in H. apply length_zero_iff_nil in H.
  unfold Utils.any_S, mean, sum.
  rewrite fold_add_all_NaN; [reflexivity | |].
  - intro E. apply (f_equal (@length npfloat)) in E.
    rewrite length_map in E. discriminate.
  - apply Forall_forall. intros x Hx. apply in_map_iff in Hx.
    destruct Hx as (t & <- & _).
    unfold any_axis1, less. rewrite H. reflexivity.
Qed.

(** A matrix with rows but no column scores 0: no row has a neighbour. *)
Lemma any_S_no_columns (M : ndarray2 Q) :
  rectangular M -> ncols M = 0%nat -> (0 < nrows M)%nat ->
  exists v : Q, Utils.any_S M = Num v /\ (v == 0)%Q.
Proof.
  intros Hrect Hc Hr.
  destruct (any_S_spec M Hr) as (v & E & Hv).
  exists v. split; [exact E|]. rewrite Hv. unfold Spec.S.
  rewrite Qsum_zero; [unfold Qdiv; ring|].
  apply Forall_forall. intros x Hx. apply in_map_iff in Hx.
  destruct Hx as (t & <- & _). unfold Spec.fraction_below.
  replace (filter (Spec.has_entry_below t) (rows M)) with (@nil (list Q)).
  - simpl. unfold Qdiv. ring.
  - symmetry. unfold rectangular in Hrect. rewrite Hc in Hrect.
    induction Hrect as [|r rs Hlen _ IH]; simpl; [reflexivity|].
    apply length_zero_iff_nil in Hlen. subst r. simpl. exact IH.
Qed.

Lemma calc_AVE_NaN (S1 S2 S3 S4 : npfloat) :
  Spec.finite_or_nan S1 -> Spec.finite_or_nan S2 -> Spec.finite_or_nan S3 -> Spec.finite_or_nan S4 ->
  S1 = NaN \/ S2 = NaN \/ S3 = NaN \/ S4 = NaN ->
  sub (add (sub S1 S2) S3) S4 = NaN.
Proof.
  intros F1 F2 F3 F4 H.
  destruct S1, S2, S3, S4; simpl in *; try contradiction; try reflexivity;
    destruct H as [H|[H|[H|H]]]; discriminate.
Qed.

Lemma subtract_raises (a b : list npfloat) (e : exn) :
  subtract a b = Raise e -> e = ValueError.
Proof.
  unfold subtract. destruct (Nat.eqb _ _); [discriminate|].
  destruct a as [|x [|x' a]]; destruct b as [|y [|y' b]];
    try discriminate; congruence.
Qed.

Lemma sqrt_NaN_l (t : npfloat) : sqrt (add (square NaN) (square t)) = NaN.
Proof. reflexivity. Qed.

Lemma sqrt_NaN_r (t : npfloat) : sqrt (add (square t) (square NaN)) = NaN.
Proof. destruct t as [x|s|]; try reflexivity. Qed.

(** C8, as the code has it: [calc_VE] raises [ValueError] as soon as one
    matrix has no column, since numpy refuses the row-wise minimum.
    [calc_AVE] raises on no input at all: a matrix without rows makes it
    return NaN, and a matrix with rows but no column silently scores 0.
    On matrices that have columns but, for one test group, no rows,
    [calc_VE] returns NaN as well. *)
Theorem empty_group_outcome (aa ai ii ia : ndarray2 Q) :
  (ncols aa = 0%nat \/ ncols ai = 0%nat \/ ncols ii = 0%nat \/ ncols ia = 0%nat ->
   Utils.calc_VE (finite aa, finite ai, finite ii, finite ia) = Raise ValueError)
  /\ (nrows aa = 0%nat \/ nrows ai = 0%nat \/ nrows ii = 0%nat \/ nrows ia = 0%nat ->
      Utils.calc_AVE (aa, ai, ii, ia) = NaN)
  /\ (rectangular aa -> ncols aa = 0%nat -> (0 < nrows aa)%nat ->
      exists v : Q, Utils.any_S aa = Num v /\ (v == 0)%Q)
  /\ ((0 < ncols aa)%nat -> (0 < ncols ai)%nat ->
      (0 < ncols ii)%nat -> (0 < ncols ia)%nat ->
      nrows ai = nrows aa -> nrows ia = nrows ii ->
      nrows aa = 0%nat \/ nrows ii = 0%nat ->
      Utils.calc_VE (finite aa, finite ai, finite ii, finite ia) = Ok NaN).
Proof.
  split; [|split; [|split]].
  - intro H. unfold Utils.calc_VE, amin_axis1, finite. cbn [ncols rows].
    destruct (Nat.eqb_spec (ncols ai) 0); [reflexivity|].
    destruct (Nat.eqb_spec (ncols aa) 0); [reflexivity|].
    cbn [Py.bind].
    destruct (subtract (map amin (map (map Num) (rows ai)))
                (map amin (map (map Num) (rows aa))))
      as [d1|e] eqn:E; cbn [Py.bind].
    + destruct (Nat.eqb_spec (ncols ia) 0); [reflexivity|].
      destruct (Nat.eqb_spec (ncols ii) 0); [reflexivity|]. lia.
    + apply subtract_raises in E. congruence.
  - intro H. unfold Utils.calc_AVE.
    change (sub (add (sub (Utils.any_S aa) (Utils.any_S ai)) (Utils.any_S ii))
              (Utils.any_S ia) = NaN).
    apply (@calc_AVE_NaN (Utils.any_S aa) (Utils.any_S ai) (Utils.any_S ii)
             (Utils.any_S ia)
             (any_S_finite_or_nan aa) (any_S_finite_or_nan ai)
             (any_S_finite_or_nan ii) (any_S_finite_or_nan ia)).
    destruct H as [H|[H|[H|H]]]; apply any_S_no_rows in H.
    + left. exact H.
    + right. left. exact H.
    + right. right. left. exact H.
    + right. right. right. exact H.
  - apply any_S_no_columns.
  - intros Hc1 Hc2 Hc3 Hc4 He1 He2 H. unfold nrows in He1, He2, H.
    unfold Utils.calc_VE, amin_axis1, finite. cbn [ncols rows].
    destruct (Nat.eqb_spec (ncols ai) 0); [lia|].
    destruct (Nat.eqb_spec (ncols aa) 0); [lia|].
    destruct (Nat.eqb_spec (ncols ia) 0); [lia|].
    destruct (Nat.eqb_spec (ncols ii) 0); [lia|].
    cbn [Py.bind]. unfold subtract.
    rewrite !length_map, He1, He2, !Nat.eqb_refl. cbn [Py.bind].
    f_equal.
    destruct H as [H|H]; apply length_zero_iff_nil in H.
    + rewrite H in He1. apply length_zero_iff_nil in He1.
      rewrite H, He1. cbn [map combine]. apply sqrt_NaN_l.
    + rewrite H in He2. apply length_zero_iff_nil in He2.
      rewrite H, He2. cbn [map combine]. apply sqrt_NaN_r.
Qed.

(** A quartet whose active train group is empty: [calc_AVE] returns
    the number 0 and raises nothing.  A quartet whose active test group
    is empty: [calc_VE] and [calc_AVE] return NaN and raise nothing. *)
Lemma empty_group_not_reported :
  let E := Array2 0 [[]] in
  let Z := Array2 1 (@nil (list Q)) in
  let D := Array2 1 [[1 # 2]]%Q in
  (Spec.has_empty_group (E, D, D, E)
   /\ (exists v : Q, Utils.calc_AVE (E, D, D, E) = Num v /\ (v == 0)%Q)
   /\ ~ Spec.reported (Ok (Utils.calc_AVE (E, D, D, E))))
  /\ (Spec.has_empty_group (Z, Z, D, D)
      /\ Utils.calc_VE (finite Z, finite Z, finite D, finite D) = Ok NaN
      /\ ~ Spec.reported (Utils.calc_VE (finite Z, finite Z, finite D, finite D))).
Proof.
  intros E Z D. split; split.
  - left. right. reflexivity.
  - split.
    + destruct (any_S_spec E) as (vE & EE & _); [unfold nrows; simpl; lia|].
      destruct (any_S_spec D) as (vD & ED & _); [unfold nrows; simpl; lia|].
      unfold Utils.calc_AVE. rewrite EE, ED. simpl.
      eexists. split; [reflexivity | ring].
    + intros [e He]. discriminate He.
  - left. left. reflexivity.
  - assert (V : Utils.calc_VE (finite Z, finite Z, finite D, finite D) = Ok NaN)
      by reflexivity.
    split; [exact V|]. rewrite V. intros [e He]. discriminate He.
Qed.

Lemma empty_group_outcome_witness :
  let E := Array2 0 [[]] in
  let Z := Array2 1 (@nil (list Q)) in
  let D := Array2 1 [[1 # 2]]%Q in
  Utils.calc_VE (finite E, finite D, finite D, finite E) = Raise ValueError
  /\ Utils.calc_AVE (Z, Z, D, D) = NaN
  /\ exists v : Q, Utils.any_S E = Num v /\ (v == 0)%Q.
Proof.
  intros E Z D. split; [|split].
  - apply (proj1 (empty_group_outcome E D D E)). left. reflexivity.
  - apply (proj1 (proj2 (empty_group_outcome Z Z D D))). left. reflexivity.
  - apply (proj1 (proj2 (proj2 (empty_group_outcome E D D E)))).
    + repeat constructor.
    + reflexivity.
    + unfold nrows. simpl. lia.
Defined.

(** ** Cluster splitting: [split_clusters] *)

Lemma NoDup_app_In {A : Type} (l l' : list A) (a : A) :
  NoDup (l ++ l') -> In a l -> ~ In a l'.
Proof.
  induction l as [|x l IH]; simpl; [tauto|].
  intros H [<-|Ha] Hin.
  - inversion H as [|? ? Hx _]; subst. apply Hx. apply in_or_app. right. exact Hin.
  - inversion H; subst. apply IH; assumption.
Qed.

Lemma firstn_In {A : Type} (n : nat) (l : list A) (a : A) :
  In a (firstn n l) -> In a l.
Proof.
  intro H. rewrite <- (firstn_skipn n l). apply in_or_app. left. exact H.
Qed.

Lemma skipn_In {A : Type} (n : nat) (l : list A) (a : A) :
  In a (skipn n l) -> In a l.
Proof.
  intro H. rewrite <- (firstn_skipn n l). apply in_or_app. right. exact H.
Qed.

Lemma split4_perm {A : Type} (p1 p2 n1 n2 : list A) :
  Permutation ((p1 ++ p2) ++ (n1 ++ n2)) ((p1 ++ n1) ++ (p2 ++ n2)).
Proof.
  rewrite <- !app_assoc. apply Permutation_app_head.
  rewrite !app_assoc. apply Permutation_app_tail. apply Permutation_app_comm.
Qed.

(** Cutting two lists, each at one point, and pairing the heads and the
    tails keeps ids apart and loses none. *)
Lemma cut_partition (P N : list Z) (a b : nat) :
  NoDup (P ++ N) ->
  Spec.disjoint (firstn a P ++ firstn b N) (skipn a P ++ skipn b N)
  /\ Spec.covers P N (firstn a P ++ firstn b N) (skipn a P ++ skipn b N).
Proof.
  intro H. split.
  - intros c Hc. apply NoDup_app_In with (l := firstn a P ++ firstn b N);
      [|exact Hc].
    eapply Permutation_NoDup; [apply split4_perm|].
    rewrite !firstn_skipn. exact H.
  - intros c Hc. rewrite !in_app_iff.
    rewrite <- (firstn_skipn a P), <- (firstn_skipn b N), !in_app_iff in Hc.
    tauto.
Qed.

(** A pair of proportions summing to at most 1 is accepted: the
    float64 sum does not exceed 1 either. *)
Lemma pair_accepted (f0 f1 : Q) :
  (f0 + f1 <= 1)%Q -> Qltb 1 (Utils.sum_pair f0 f1) = false.
Proof.
  intro H. destruct (Qltb 1 (Utils.sum_pair f0 f1)) eqn:E; [|reflexivity].
  apply Qltb_lt in E. unfold Utils.sum_pair in E.
  assert (B : (float64 (0 + f0 + f1) <= 1)%Q) by (apply float64_le_one; lra).
  exfalso. lra.
Qed.

Section ShuffleFacts.

Variable rng : Type.
Variable np_random_shuffle : rng -> list Z -> rng * list Z.

(** C7, as the code has it: whenever the float64 sum of the test and
    train proportions of a pair [neg_test_fraction], as [sum] computes
    it, is more than 1, [split_clusters] raises [ValueError] and returns
    no partition. *)
Theorem split_clusters_rejects (g : rng) (pos_labels neg_labels : list Z)
    (pos_test_fraction f0 f1 : Q) (shuffle : bool) :
  (1 < Utils.sum_pair f0 f1)%Q ->
  Utils.split_clusters np_random_shuffle g pos_labels neg_labels pos_test_fraction
    (Utils.APair f0 f1) shuffle
  = Raise ValueError.
Proof.
  intro H. unfold Utils.split_clusters.
  assert (E : Qltb 1 (Utils.sum_pair f0 f1) = true) by (apply Qltb_lt; exact H).
  destruct shuffle.
  - destruct (np_random_shuffle g pos_labels) as [g1 P].
    destruct (np_random_shuffle g1 neg_labels) as [g2 N].
    rewrite E. reflexivity.
  - rewrite E. reflexivity.
Qed.

Hypothesis shuffle_permutes :
  forall g l, Permutation l (snd (np_random_shuffle g l)).

(** The lists the slices are taken from are permutations of the inputs. *)
Lemma split_clusters_shuffled (g : rng) (pos_labels neg_labels : list Z)
    (pos_test_fraction : Q) (neg_test_fraction : Utils.neg_fraction) (shuffle : bool) :
  exists P N : list Z,
    Permutation pos_labels P /\ Permutation neg_labels N
    /\ Utils.split_clusters np_random_shuffle g pos_labels neg_labels
         pos_test_fraction neg_test_fraction shuffle
       = ('(test_neg, train_neg) <-
            match neg_test_fraction with
            | Utils.AFloat f =>
                Ok (slice_to N (int (Utils.scale (length N) f)),
                    slice_from N (int (Utils.scale (length N) f)))
            | Utils.APair f0 f1 =>
                if Qltb 1 (Utils.sum_pair f0 f1) then Raise ValueError
                else Ok (slice_to N (round (Utils.scale (length N) f0)),
                         slice_from N (- round (Utils.scale (length N) f1)))
            end ;;
          Ok (slice_to P (Z.max 1 (round (Utils.scale (length P) pos_test_fraction)))
                ++ test_neg,
              slice_from P (Z.max 1 (round (Utils.scale (length P) pos_test_fraction)))
                ++ train_neg)).
Proof.
  unfold Utils.split_clusters. destruct shuffle.
  - assert (HP := shuffle_permutes g pos_labels).
    destruct (np_random_shuffle g pos_labels) as [g1 P].
    assert (HN := shuffle_permutes g1 neg_labels).
    destruct (np_random_shuffle g1 neg_labels) as [g2 N].
    exists P, N. simpl in HP, HN. repeat split; assumption.
  - exists pos_labels, neg_labels. repeat split; apply Permutation_refl.
Qed.

(** C6, as the code has it: for duplicate-free cluster ids, none of them
    both positive and negative, and a float [neg_test_fraction], the
    test and train lists share no id and together hold every id.  For a
    pair of proportions summing to at most 1 the lists hold input ids
    only, not necessarily all of them. *)
Theorem split_clusters_partition (g : rng) (pos_labels neg_labels : list Z)
    (pos_test_fraction : Q) (neg_test_fraction : Utils.neg_fraction) (shuffle : bool) :
  NoDup (pos_labels ++ neg_labels) ->
  match neg_test_fraction with
  | Utils.AFloat _ =>
      exists test train : list Z,
        Utils.split_clusters np_random_shuffle g pos_labels neg_labels
          pos_test_fraction neg_test_fraction shuffle = Ok (test, train)
        /\ Spec.disjoint test train
        /\ Spec.covers pos_labels neg_labels test train
  | Utils.APair f0 f1 =>
      (f0 + f1 <= 1)%Q ->
      exists test train : list Z,
        Utils.split_clusters np_random_shuffle g pos_labels neg_labels
          pos_test_fraction neg_test_fraction shuffle = Ok (test, train)
        /\ forall c, In c test \/ In c train -> In c pos_labels \/ In c neg_labels
  end.
Proof.
  intro Hnd.
  destruct (split_clusters_shuffled g pos_labels neg_labels pos_test_fraction
              neg_test_fraction shuffle) as (P & N & HP & HN & E).
  rewrite E. clear E.
  assert (Hnd' : NoDup (P ++ N)).
  { eapply Permutation_NoDup; [|exact Hnd]. apply Permutation_app; assumption. }
  destruct neg_test_fraction as [f|f0 f1].
  - cbn [Py.bind]. eexists. eexists. split; [reflexivity|].
    unfold slice_to, slice_from.
    destruct (cut_partition P N
                (slice_bound (length P)
                   (Z.max 1 (round (Utils.scale (length P) pos_test_fraction))))
                (slice_bound (length N) (int (Utils.scale (length N) f))) Hnd')
      as [Hd Hc].
    split; [exact Hd|].
    intros c Hc'. apply Hc.
    destruct Hc' as [Hc'|Hc']; [left | right];
      eapply Permutation_in; eassumption.
  - intro Hsum.
    assert (Eq := pair_accepted Hsum).
    rewrite Eq. cbn [Py.bind]. eexists. eexists. split; [reflexivity|].
    intros c Hc. unfold slice_to, slice_from in Hc. rewrite !in_app_iff in Hc.
    assert (Hin : In c P \/ In c N).
    { destruct Hc as [[Hc|Hc]|[Hc|Hc]];
        first [ apply firstn_In in Hc | apply skipn_In in Hc ]; tauto. }
    destruct Hin as [Hin|Hin]; [left | right];
      (eapply Permutation_in; [apply Permutation_sym; eassumption | exact Hin]).
Qed.

End ShuffleFacts.

(** Proportions 0.75 and 0.5, the shuffle reversing its list. *)
Lemma split_clusters_rejects_witness :
  Utils.split_clusters (fun (g : unit) (l : list Z) => (g, rev l)) tt
    [1; 2]%Z [3; 4]%Z (1 # 4) (Utils.APair (3 # 4) (1 # 2)) true
  = Raise ValueError.
Proof.
  apply (@split_clusters_rejects unit (fun (g : unit) (l : list Z) => (g, rev l)) tt
           [1; 2]%Z [3; 4]%Z (1 # 4) (3 # 4) (1 # 2) true).
  reflexivity.
Defined.

(** The proportions 0.5 and 0.5000000000000001, the float64 next above
    0.5, sum to more than 1, but their float64 sum is 1.0: nothing is
    raised, and a split is returned. *)
Lemma split_clusters_rounded_sum :
  let f0 := (1 # 2)%Q in
  let f1 := (4503599627370497 # 9007199254740992)%Q in
  (1 < f0 + f1)%Q
  /\ (Utils.sum_pair f0 f1 == 1)%Q
  /\ Utils.split_clusters (fun (g : unit) (l : list Z) => (g, l)) tt
       [0]%Z [1; 2; 3; 4]%Z (1 # 2) (Utils.APair f0 f1) false
     = Ok ([0; 1; 2]%Z, [3; 4]%Z).
Proof.
  intros f0 f1. split; [reflexivity|]. split; vm_compute; reflexivity.
Qed.

(** Three positive and four negative clusters, a third of the positives
    and half of the negatives held out, the shuffle reversing its list. *)
Lemma split_clusters_partition_witness :
  exists test train : list Z,
    Utils.split_clusters (fun (g : unit) (l : list Z) => (g, rev l)) tt
      [1; 2; 3]%Z [4; 5; 6; 7]%Z (1 # 3) (Utils.AFloat (1 # 2)) true
    = Ok (test, train)
    /\ Spec.disjoint test train
    /\ Spec.covers [1; 2; 3]%Z [4; 5; 6; 7]%Z test train.
Proof.
  apply (@split_clusters_partition unit (fun (g : unit) l => (g, rev l))
           (fun g l => Permutation_rev l) tt [1; 2; 3]%Z [4; 5; 6; 7]%Z (1 # 3)
           (Utils.AFloat (1 # 2)) true).
  repeat constructor; simpl; intuition discriminate.
Defined.

(** With the pair (0.25, 0.25) on four negative clusters, the test list
    takes the first and the train list the last: clusters 2 and 3 are in
    neither. *)
Lemma split_clusters_pair_leaves_out :
  exists test train : list Z,
    Utils.split_clusters (fun (g : unit) (l : list Z) => (g, l)) tt
      [0]%Z [1; 2; 3; 4]%Z (1 # 2) (Utils.APair (1 # 4) (1 # 4)) false
    = Ok (test, train)
    /\ ~ Spec.covers [0]%Z [1; 2; 3; 4]%Z test train.
Proof.
  exists [0; 1]%Z, [4]%Z. split; [reflexivity|].
  intro H. destruct (H 2%Z) as [Hin|Hin]; simpl in *; intuition discriminate.
Qed.

(** With the pair (0.5, 0.5) on three negative clusters both proportions
    round to two clusters, and cluster 2 lands on both sides; with a train
    proportion that rounds to zero clusters the slice [neg_labels[-0:]]
    is the whole list. *)
Lemma split_clusters_pair_overlap :
  Utils.split_clusters (fun (g : unit) (l : list Z) => (g, l)) tt
    [0]%Z [1; 2; 3]%Z (1 # 2) (Utils.APair (1 # 2) (1 # 2)) false
  = Ok ([0; 1; 2]%Z, [2; 3]%Z)
  /\ Utils.split_clusters (fun (g : unit) (l : list Z) => (g, l)) tt
       [0]%Z [1; 2]%Z (1 # 2) (Utils.APair (1 # 2) (1 # 5)) false
     = Ok ([0; 1]%Z, [1; 2]%Z).
Proof.
  split; reflexivity.
Qed.

(** ** Splitting what [merge_feature_matrices] merged *)

(** [merge_feature_matrices] builds 1-D label arrays, and
    [split_feature_matrices] indexes its label arguments with two
    indices: on the merged output the split raises [IndexError],
    whatever the matrices and the target column. *)
Lemma split_of_merge_raises
    (matrices : ndarray2 Q * ndarray2 Q * ndarray2 Q * ndarray2 Q)
    (x_train x_test : ndarray2 Q) (y_train y_test : list Q) (idx : Z) :
  Utils.merge_feature_matrices matrices = Ok (x_train, x_test, y_train, y_test) ->
  Utils.split_feature_matrices x_train x_test (Utils.Arr1 y_train) (Utils.Arr1 y_test) idx
  = Raise IndexError.
Proof.
  intros _. reflexivity.
Qed.

Lemma firstn_length_app {A : Type} (d x : list A) : firstn (length d) (d ++ x) = d.
Proof.
  induction d as [|a d IH]; simpl; [destruct x; reflexivity | rewrite IH; reflexivity].
Qed.

Lemma skipn_length_app {A : Type} (d x : list A) (t : A) :
  skipn (S (length d)) (d ++ t :: x) = x.
Proof.
  induction d as [|a d IH]; simpl; [reflexivity | exact IH].
Qed.

Lemma mask_front {A : Type} (xs ys : list A) :
  map fst (filter (fun p => snd p)
             (combine (xs ++ ys) (repeat true (length xs) ++ repeat false (length ys))))
  = xs.
Proof.
  induction xs as [|x xs IH]; simpl.
  - induction ys as [|y ys IH]; simpl; [reflexivity | exact IH].
  - f_equal. exact IH.
Qed.

Lemma mask_back {A : Type} (xs ys : list A) :
  map fst (filter (fun p => snd p)
             (combine (xs ++ ys) (repeat false (length xs) ++ repeat true (length ys))))
  = ys.
Proof.
  induction xs as [|x xs IH]; simpl.
  - induction ys as [|y ys IH]; simpl; [reflexivity | f_equal; exact IH].
  - exact IH.
Qed.

Lemma zeros_with_ones_prefix_app (a b : nat) :
  Utils.zeros_with_ones_prefix (a + b) a = repeat 1%Q a ++ repeat 0%Q b.
Proof.
  unfold Utils.zeros_with_ones_prefix. rewrite repeat_app.
  replace a with (length (repeat 0%Q a)) at 1 3 by apply repeat_length.
  rewrite firstn_length_app, repeat_length. f_equal.
  induction a as [|a IH]; simpl; [reflexivity | exact IH].
Qed.

Lemma column_as_column (y : list Q) : Utils.column (Spec.as_column y) 0%Z = Ok y.
Proof.
  unfold Utils.column, Spec.as_column. simpl. rewrite map_map. simpl.
  rewrite map_id. reflexivity.
Qed.

Lemma labels_eq_one (a b : nat) :
  map (fun v => Qeq_bool v 1) (repeat 1%Q a ++ repeat 0%Q b)
  = repeat true a ++ repeat false b.
Proof.
  rewrite map_app, !map_repeat. reflexivity.
Qed.

Lemma labels_ne_one (a b : nat) :
  map (fun v => negb (Qeq_bool v 1)) (repeat 1%Q a ++ repeat 0%Q b)
  = repeat false a ++ repeat true b.
Proof.
  rewrite map_app, !map_repeat. reflexivity.
Qed.

Lemma mask_rows_front (c : nat) (xs ys : list (list Q)) :
  Utils.mask_rows (Array2 c (xs ++ ys))
    (repeat true (length xs) ++ repeat false (length ys))
  = Ok (Array2 c xs).
Proof.
  unfold Utils.mask_rows, nrows. simpl.
  rewrite !length_app, !repeat_length, Nat.eqb_refl, mask_front. reflexivity.
Qed.

Lemma mask_rows_back (c : nat) (xs ys : list (list Q)) :
  Utils.mask_rows (Array2 c (xs ++ ys))
    (repeat false (length xs) ++ repeat true (length ys))
  = Ok (Array2 c ys).
Proof.
  unfold Utils.mask_rows, nrows. simpl.
  rewrite !length_app, !repeat_length, Nat.eqb_refl, mask_back. reflexivity.
Qed.

(** What the split does undo: once the two label arrays are reshaped
    into one-column label matrices, splitting at column 0 gives the four
    merged matrices back, rows in order. *)
Lemma split_merge_column (x_actives_train x_actives_test x_inactives_train
    x_inactives_test : ndarray2 Q) :
  ncols x_inactives_train = ncols x_actives_train ->
  ncols x_inactives_test = ncols x_actives_test ->
  exists (x_train x_test : ndarray2 Q) (y_train y_test : list Q),
    Utils.merge_feature_matrices
      (x_actives_train, x_actives_test, x_inactives_train, x_inactives_test)
    = Ok (x_train, x_test, y_train, y_test)
    /\ Utils.split_feature_matrices x_train x_test
         (Spec.as_column y_train) (Spec.as_column y_test) 0%Z
       = Ok (x_actives_train, x_actives_test, x_inactives_train, x_inactives_test).
Proof.
  destruct x_actives_train as [c1 r1], x_actives_test as [c2 r2],
    x_inactives_train as [c3 r3], x_inactives_test as [c4 r4].
  simpl. intros -> ->.
  unfold Utils.merge_feature_matrices, Utils.vstack. simpl ncols.
  rewrite !Nat.eqb_refl. cbn [Py.bind rows]. unfold nrows. cbn [rows].
  rewrite !length_app, !zeros_with_ones_prefix_app.
  eexists. eexists. eexists. eexists. split; [reflexivity|].
  unfold Utils.split_feature_matrices. rewrite !column_as_column. cbn [Py.bind].
  rewrite !labels_eq_one, !labels_ne_one.
  rewrite !mask_rows_front. cbn [Py.bind].
  rewrite !mask_rows_back. cbn [Py.bind]. reflexivity.
Qed.

(** Two active and one inactive training rows, one test row of each kind. *)
Lemma split_merge_column_witness :
  let M := (Array2 2 [[1; 0]; [1; 1]], Array2 2 [[0; 1]],
            Array2 2 [[0; 0]], Array2 2 [[1; 1]])%Q in
  exists (x_train x_test : ndarray2 Q) (y_train y_test : list Q),
    Utils.merge_feature_matrices M = Ok (x_train, x_test, y_train, y_test)
    /\ Utils.split_feature_matrices x_train x_test
         (Spec.as_column y_train) (Spec.as_column y_test) 0%Z
       = Ok M.
Proof.
  intro M.
  apply (@split_merge_column (Array2 2 [[1; 0]; [1; 1]]%Q) (Array2 2 [[0; 1]]%Q)
           (Array2 2 [[0; 0]]%Q) (Array2 2 [[1; 1]]%Q)); reflexivity.
Defined.

(** C5 at a quartet of one-row matrices and target column 0: the merge
    succeeds, and splitting its output raises [IndexError] instead of
    giving the four matrices back. *)
Theorem split_merge_index_error :
  let M := (Array2 1 [[1]], Array2 1 [[2]], Array2 1 [[3]], Array2 1 [[4]])%Q in
  Utils.merge_feature_matrices M
  = Ok (Array2 1 [[1]; [3]], Array2 1 [[2]; [4]], [1; 0], [1; 0])%Q
  /\ ('(x_train, x_test, y_train, y_test) <- Utils.merge_feature_matrices M ;;
      Utils.split_feature_matrices x_train x_test
        (Utils.Arr1 y_train) (Utils.Arr1 y_test) 0%Z)
     = Raise IndexError.
Proof.
  split; reflexivity.
Qed.

(** ** Jaccard and Dice self-distances *)

Lemma combine_map_same {A B C : Type} (f : A -> B) (g : A -> C) (l : list A) :
  combine (map f l) (map g l) = map (fun x => (f x, g x)) l.
Proof.
  induction l as [|a l IH]; simpl; [reflexivity | rewrite IH; reflexivity].
Qed.

(** An elementwise operation on two tabulated matrices is tabulated. *)
Lemma zip_with_tabulated {A B C D E : Type} (f : A -> B -> C)
    (h1 : D -> E -> A) (h2 : D -> E -> B) (xs : list D) (ys : list E) (c c' : nat) :
  Utils.zip_with f (Array2 c (map (fun x => map (h1 x) ys) xs))
    (Array2 c' (map (fun x => map (h2 x) ys) xs))
  = Array2 c (map (fun x => map (fun y => f (h1 x y) (h2 x y)) ys) xs).
Proof.
  unfold Utils.zip_with. simpl. f_equal.
  rewrite combine_map_same, map_map. apply map_ext. intro x. simpl.
  rewrite combine_map_same, map_map. reflexivity.
Qed.

Lemma nth_map_lt {A B : Type} (f : A -> B) (l : list A) (i : nat) (d : A) (d' : B) :
  (i < length l)%nat -> nth i (map f l) d' = f (nth i l d).
Proof.
  intro H. rewrite (nth_indep _ d' (f d)) by (rewrite length_map; exact H).
  apply map_nth.
Qed.




Lemma fold_add_shift (l : list Z) (a : Z) :
  fold_left Z.add l a = (a + fold_left Z.add l 0)%Z.
Proof.
  revert a. induction l as [|x l IH]; intro a; simpl; [lia|].
  rewrite IH, (IH x). lia.
Qed.

Lemma sumZ_cons (a : Z) (l : list Z) : Utils.sumZ (a :: l) = (a + Utils.sumZ l)%Z.
Proof.
  unfold Utils.sumZ. simpl. apply fold_add_shift.
Qed.

Lemma dot_row_nil_l (y : list Z) : Utils.dot_row [] y = 0%Z.
Proof. reflexivity. Qed.

Lemma dot_row_nil_r (x : list Z) : Utils.dot_row x [] = 0%Z.
Proof. destruct x; reflexivity. Qed.

Lemma dot_row_cons (a b : Z) (x y : list Z) :
  Utils.dot_row (a :: x) (b :: y) = (a * b + Utils.dot_row x y)%Z.
Proof.
  unfold Utils.dot_row. simpl combine. simpl map. apply sumZ_cons.
Qed.

Lemma dot_row_comm (x y : list Z) : Utils.dot_row x y = Utils.dot_row y x.
Proof.
  revert y. induction x as [|a x IH]; intros [|b y];
    rewrite ?dot_row_nil_l, ?dot_row_nil_r, ?dot_row_cons; try reflexivity.
  rewrite IH. lia.
Qed.

Lemma sumZ_binary (x : list Z) : Spec.binary x -> (0 <= Utils.sumZ x)%Z.
Proof.
  induction 1 as [|a x Ha _ IH]; [cbv; discriminate|].
  rewrite sumZ_cons. lia.
Qed.


Lemma dot_row_bounds (x y : list Z) :
  Spec.binary x -> Spec.binary y -> (0 <= Utils.dot_row x y <= Utils.sumZ y)%Z.
Proof.
  intros Hx. revert y. induction Hx as [|a x Ha _ IH]; intros y Hy.
  - rewrite dot_row_nil_l. split; [lia | apply sumZ_binary; exact Hy].
  - destruct Hy as [|b y Hb Hy].
    + rewrite dot_row_nil_r. cbv. split; discriminate.
    + rewrite dot_row_cons, sumZ_cons. specialize (IH y Hy).
      destruct Ha, Hb; subst; lia.
Qed.

Lemma nnz_binary (x : list Z) :
  Spec.binary x ->
  Z.of_nat (length (filter (fun v => negb (v =? 0)%Z) x)) = Utils.sumZ x.
Proof.
  induction 1 as [|a x Ha _ IH]; [reflexivity|].
  rewrite sumZ_cons. destruct Ha; subst; simpl filter; simpl length; lia.
Qed.

Lemma binarize_binary (r : list Z) :
  Spec.binary (map (fun v => if (v =? 0)%Z then 0%Z else 1%Z) r).
Proof.
  apply Forall_forall. intros v Hv. apply in_map_iff in Hv.
  destruct Hv as (w & <- & _). destruct (w =? 0)%Z; auto.
Qed.


Lemma true_divide_Z (d u : Z) :
  u <> 0%Z -> true_divide (of_Z d) (of_Z u) = Num (inject_Z d / inject_Z u)%Q.
Proof.
  intro H. unfold true_divide, of_Z.
  destruct (Qeq_bool (inject_Z u) 0) eqn:E; [|reflexivity].
  apply Qeq_bool_eq in E. unfold Qeq in E. simpl in E. lia.
Qed.




Lemma sub_one_Num (q : Q) : sub (Num 1%Q) (Num q) = Num (1 + - q)%Q.
Proof. reflexivity. Qed.











(** ** The fingerprint dictionary *)

Lemma for_each_app {A S : Type} (body : S -> A -> outcome S) (l1 l2 : list A) (s : S) :
  for_each body (l1 ++ l2) s = Py.bind (for_each body l1 s) (for_each body l2).
Proof.
  revert s. induction l1 as [|a l1 IH]; intro s; simpl; [reflexivity|].
  destruct (body s a) as [s'|e]; simpl; [apply IH | reflexivity].
Qed.

Lemma for_each_ext {A S : Type} (f g : S -> A -> outcome S) (l : list A) (s : S) :
  (forall s a, f s a = g s a) -> for_each f l s = for_each g l s.
Proof.
  intro H. revert s. induction l as [|a l IH]; intro s; simpl; [reflexivity|].
  rewrite H. destruct (g s a); simpl; [apply IH | reflexivity].
Qed.

Lemma for_each_map {A B S : Type} (body : S -> B -> outcome S) (f : A -> B)
    (l : list A) (s : S) :
  for_each body (map f l) s = for_each (fun s a => body s (f a)) l s.
Proof.
  revert s. induction l as [|a l IH]; intro s; simpl; [reflexivity|].
  destruct (body s (f a)); simpl; [apply IH | reflexivity].
Qed.

Lemma for_each_flat_map {A B S : Type} (body : S -> B -> outcome S) (g : A -> list B)
    (l : list A) (s : S) :
  for_each body (flat_map g l) s = for_each (fun s a => for_each body (g a) s) l s.
Proof.
  revert s. induction l as [|a l IH]; intro s; simpl; [reflexivity|].
  rewrite for_each_app. destruct (for_each body (g a) s); simpl;
    [apply IH | reflexivity].
Qed.

(** Two nested loops are one loop over the product. *)
Lemma for_each_list_prod {A B S : Type} (body : S -> A * B -> outcome S)
    (xs : list A) (ys : list B) (s : S) :
  for_each (fun s x => for_each (fun s y => body s (x, y)) ys s) xs s
  = for_each body (list_prod xs ys) s.
Proof.
  revert s. induction xs as [|x xs IH]; intro s; simpl; [reflexivity|].
  rewrite for_each_app, for_each_map.
  destruct (for_each (fun s y => body s (x, y)) ys s); simpl;
    [apply IH | reflexivity].
Qed.

(** [getDistances] performs the increments of [Spec.events], in order. *)
Lemma getDistances_events (mol : MakeCats.Mol) (fp : MakeCats.fp_dict) :
  MakeCats.getDistances mol fp
  = for_each (fun fp ev => MakeCats.increment fp (fst ev) (snd ev))
      (Spec.events mol) fp.
Proof.
  unfold MakeCats.getDistances, Spec.events.
  rewrite for_each_flat_map. apply for_each_ext. intros s point.
  cbv zeta.
  destruct (MakeCats.GetDistanceMatrix mol (fst point) (snd point) <? 11)%Z;
    [|reflexivity].
  unfold MakeCats.addBond. rewrite for_each_map.
  rewrite <- (for_each_list_prod
                (fun s xy =>
                   MakeCats.increment s (MakeCats.pair_key (fst xy) (snd xy))
                     (MakeCats.GetDistanceMatrix mol (fst point) (snd point) - 1)%Z)).
  reflexivity.
Qed.

Lemma getitem_present (fp : MakeCats.fp_dict) (key : string) :
  In key (map fst fp) ->
  exists arr, MakeCats.getitem fp key = Ok arr /\ In (key, arr) fp.
Proof.
  induction fp as [|[k v] fp IH]; simpl; [contradiction|].
  intro H. destruct (String.eqb_spec k key) as [->|Hne].
  - exists v. split; [reflexivity | left; reflexivity].
  - destruct H as [H|H]; [contradiction|].
    destruct (IH H) as (arr & E & Hin). exists arr. split; [exact E | right; exact Hin].
Qed.

Lemma getitem_setitem_same (fp : MakeCats.fp_dict) (key : string) (v : list Z) :
  MakeCats.getitem (MakeCats.setitem fp key v) key = Ok v.
Proof.
  induction fp as [|[k w] fp IH]; simpl.
  - rewrite String.eqb_refl. reflexivity.
  - destruct (String.eqb k key) eqn:E; simpl; rewrite E; [reflexivity | exact IH].
Qed.

Lemma getitem_setitem_other (fp : MakeCats.fp_dict) (k key : string) (v : list Z) :
  k <> key ->
  MakeCats.getitem (MakeCats.setitem fp k v) key = MakeCats.getitem fp key.
Proof.
  intro Hne. induction fp as [|[k' w] fp IH]; simpl.
  - destruct (String.eqb_spec k key); [contradiction | reflexivity].
  - destruct (String.eqb_spec k' k) as [->|Hk]; simpl.
    + destruct (String.eqb_spec k key); [contradiction | reflexivity].
    + rewrite IH. reflexivity.
Qed.

Lemma setitem_keys (fp : MakeCats.fp_dict) (key : string) (v : list Z) :
  In key (map fst fp) -> map fst (MakeCats.setitem fp key v) = map fst fp.
Proof.
  induction fp as [|[k w] fp IH]; simpl; [contradiction|].
  intro H. destruct (String.eqb_spec k key) as [->|Hne]; simpl; [reflexivity|].
  f_equal. apply IH. destruct H; [contradiction | assumption].
Qed.

Lemma setitem_lengths (fp : MakeCats.fp_dict) (key : string) (v : list Z) (n : nat) :
  Forall (fun kv => length (snd kv) = n) fp -> length v = n ->
  Forall (fun kv => length (snd kv) = n) (MakeCats.setitem fp key v).
Proof.
  intros H Hv. induction H as [|[k w] fp Hw Hfp IH]; simpl.
  - constructor; [exact Hv | constructor].
  - destruct (String.eqb k key); constructor; assumption.
Qed.

Lemma array_set_length (arr : list Z) (i : nat) (v : Z) :
  length (MakeCats.array_set arr i v) = length arr.
Proof.
  revert i. induction arr as [|a arr IH]; intros [|i]; simpl; auto.
Qed.

Lemma array_set_nth (arr : list Z) (i b : nat) (v : Z) :
  (i < length arr)%nat ->
  nth b (MakeCats.array_set arr i v) 0%Z = if Nat.eqb i b then v else nth b arr 0%Z.
Proof.
  revert i b. induction arr as [|a arr IH]; intros i b H; simpl in H; [lia|].
  destruct i as [|i], b as [|b]; simpl; try reflexivity.
  apply IH. lia.
Qed.

(** One increment at a known key and a bucket in range. *)
Lemma increment_counts (fp : MakeCats.fp_dict) (k : string) (i : Z) :
  Spec.well_formed fp -> In k MakeCats.possible_pairs -> (0 <= i < 10)%Z ->
  exists fp',
    MakeCats.increment fp k i = Ok fp' /\ Spec.well_formed fp'
    /\ forall key bucket,
         Spec.counter fp' key bucket
         = (Spec.counter fp key bucket
            + if String.eqb k key && (i =? Z.of_nat bucket)%Z then 1 else 0)%Z.
Proof.
  intros [Hkeys Hlen] Hk Hi.
  destruct (getitem_present fp k) as (arr & E & Hin); [rewrite Hkeys; exact Hk|].
  assert (La : length arr = 10%nat).
  { rewrite Forall_forall in Hlen. apply (Hlen (k, arr)). exact Hin. }
  unfold MakeCats.increment. rewrite E. cbn [Py.bind]. rewrite La.
  assert (Ei : index 10 i = Ok (Z.to_nat i)).
  { unfold index. destruct (Z.leb_spec 0 i); [|lia].
    destruct (Z.ltb_spec i (Z.of_nat 10)); [reflexivity | lia]. }
  rewrite Ei. cbn [Py.bind]. eexists. split; [reflexivity|]. split.
  - split.
    + rewrite setitem_keys; [exact Hkeys | rewrite Hkeys; exact Hk].
    + apply setitem_lengths; [exact Hlen|]. rewrite array_set_length. exact La.
  - intros key bucket. unfold Spec.counter.
    destruct (String.eqb_spec k key) as [<-|Hne].
    + rewrite getitem_setitem_same, E, array_set_nth by lia. simpl andb.
      destruct (Nat.eqb_spec (Z.to_nat i) bucket) as [<-|Hb].
      * rewrite Z2Nat.id, Z.eqb_refl by lia. reflexivity.
      * destruct (Z.eqb_spec i (Z.of_nat bucket)); [lia|]. lia.
    + rewrite getitem_setitem_other by exact Hne. simpl andb.
      destruct (MakeCats.getitem fp key); lia.
Qed.

(** A run of increments adds, to every counter, the number of
    increments that hit it. *)
Lemma increments_count (evs : list (string * Z)) (fp : MakeCats.fp_dict) :
  Spec.well_formed fp ->
  Forall (fun ev => In (fst ev) MakeCats.possible_pairs /\ (0 <= snd ev < 10)%Z) evs ->
  exists fp',
    for_each (fun fp ev => MakeCats.increment fp (fst ev) (snd ev)) evs fp = Ok fp'
    /\ Spec.well_formed fp'
    /\ forall key bucket,
         Spec.counter fp' key bucket
         = (Spec.counter fp key bucket + Spec.hits evs key bucket)%Z.
Proof.
  intros Hwf Hevs. revert fp Hwf.
  induction Hevs as [|[k i] evs [Hk Hi] _ IH]; intros fp Hwf.
  - exists fp. split; [reflexivity|]. split; [exact Hwf|].
    intros key bucket. unfold Spec.hits. simpl. lia.
  - simpl in Hk, Hi.
    destruct (increment_counts Hwf Hk Hi) as (fp1 & E1 & Hwf1 & C1).
    destruct (IH fp1 Hwf1) as (fp2 & E2 & Hwf2 & C2).
    exists fp2. split; [|split; [exact Hwf2|]].
    + cbn [for_each fst snd]. rewrite E1. cbn [Py.bind]. exact E2.
    + intros key bucket. rewrite C2, C1. unfold Spec.hits.
      cbn [filter fst snd].
      destruct (String.eqb k key && (i =? Z.of_nat bucket)%Z); cbn [length]; lia.
Qed.

(** ** The histogram builder: [getDistances] *)

Lemma filter_all {A : Type} (f : A -> bool) (l : list A) :
  (forall a, In a l -> f a = true) -> filter f l = l.
Proof.
  induction l as [|a l IH]; simpl; intro H; [reflexivity|].
  rewrite (H a) by (left; reflexivity). f_equal. apply IH. intros b Hb. apply H.
  right. exact Hb.
Qed.

Lemma filter_none {A : Type} (f : A -> bool) (l : list A) :
  (forall a, In a l -> f a = false) -> filter f l = [].
Proof.
  induction l as [|a l IH]; simpl; intro H; [reflexivity|].
  rewrite (H a) by (left; reflexivity). apply IH. intros b Hb. apply H.
  right. exact Hb.
Qed.

Lemma filter_prod_skip (xs ys : list nat) (x : nat) :
  (forall a, In a xs -> (x < a)%nat) ->
  filter (fun p => Nat.ltb (fst p) (snd p)) (list_prod xs (x :: ys))
  = filter (fun p => Nat.ltb (fst p) (snd p)) (list_prod xs ys).
Proof.
  induction xs as [|a xs IH]; intro H; [reflexivity|].
  cbn [list_prod map]. rewrite !filter_app. cbn [filter fst snd].
  assert (Ha : (x < a)%nat) by (apply H; left; reflexivity).
  destruct (Nat.ltb_spec a x); [lia|].
  f_equal. apply IH. intros b Hb. apply H. right. exact Hb.
Qed.

(** [itertools.combinations(range(n), 2)] lists the pairs [i < j] once
    each, in the order of the double loop. *)
Lemma combinations2_seq (a n : nat) :
  combinations2 (seq a n)
  = filter (fun p => Nat.ltb (fst p) (snd p)) (list_prod (seq a n) (seq a n)).
Proof.
  revert a. induction n as [|n IH]; intro a; [reflexivity|].
  cbn [seq combinations2 list_prod map]. rewrite filter_app. cbn [filter fst snd].
  rewrite Nat.ltb_irrefl. f_equal.
  - symmetry. apply filter_all. intros p Hp. apply in_map_iff in Hp.
    destruct Hp as (j & <- & Hj). apply in_seq in Hj. simpl.
    apply Nat.ltb_lt. lia.
  - rewrite IH. symmetry. apply filter_prod_skip.
    intros b Hb. apply in_seq in Hb. lia.
Qed.

Lemma combinations2_atom_pairs (n : nat) :
  combinations2 (seq 0 n) = Spec.atom_pairs n.
Proof. apply combinations2_seq. Qed.

Lemma atom_pairs_In (n : nat) (p : nat * nat) :
  In p (Spec.atom_pairs n) -> (fst p < snd p < n)%nat.
Proof.
  unfold Spec.atom_pairs. rewrite filter_In. intros [Hin Hlt].
  apply Nat.ltb_lt in Hlt. destruct p as [i j]. apply in_prod_iff in Hin.
  destruct Hin as [_ Hj]. apply in_seq in Hj. simpl in *. lia.
Qed.

Lemma pair_keys_possible :
  forallb
    (fun xy => existsb (String.eqb (MakeCats.pair_key (fst xy) (snd xy)))
                 MakeCats.possible_pairs)
    (list_prod MakeCats.atomTypes MakeCats.atomTypes) = true.
Proof. vm_compute. reflexivity. Qed.

Lemma pair_key_possible (x y : string) :
  In x MakeCats.atomTypes -> In y MakeCats.atomTypes ->
  In (MakeCats.pair_key x y) MakeCats.possible_pairs.
Proof.
  intros Hx Hy.
  assert (H := pair_keys_possible). rewrite forallb_forall in H.
  specialize (H (x, y) (proj2 (in_prod_iff _ _ x y) (conj Hx Hy))).
  apply existsb_exists in H. destruct H as (k & Hk & E).
  apply String.eqb_eq in E. simpl in E. rewrite E. exact Hk.
Qed.

Lemma labels_atomTypes (mol : MakeCats.Mol) (atom : nat) (x : string) :
  In x (MakeCats.labels mol atom) -> In x MakeCats.atomTypes.
Proof.
  unfold MakeCats.labels. rewrite filter_In. intros [_ H].
  apply existsb_exists in H. destruct H as (t & Ht & E).
  apply String.eqb_eq in E. subst. exact Ht.
Qed.

(** With topological distances every increment is at a pair key and a
    bucket between 0 and 9. *)
Lemma events_valid (mol : MakeCats.Mol) :
  Spec.topological mol ->
  Forall (fun ev => In (fst ev) MakeCats.possible_pairs /\ (0 <= snd ev < 10)%Z)
    (Spec.events mol).
Proof.
  intro Htop. apply Forall_forall. intros ev Hev.
  unfold Spec.events in Hev. apply in_flat_map in Hev.
  destruct Hev as (point & Hp & Hev).
  rewrite combinations2_atom_pairs in Hp. apply atom_pairs_In in Hp.
  cbv zeta in Hev.
  destruct (Z.ltb_spec (MakeCats.GetDistanceMatrix mol (fst point) (snd point)) 11);
    [|contradiction].
  apply in_map_iff in Hev. destruct Hev as ([x y] & <- & Hxy).
  apply in_prod_iff in Hxy. destruct Hxy as [Hx Hy]. simpl. split.
  - apply pair_key_possible; eapply labels_atomTypes; eassumption.
  - specialize (Htop (fst point) (snd point) Hp). lia.
Qed.

Lemma filter_flat_map_length {A B C : Type} (P : B -> bool) (Q : C -> bool)
    (g : A -> list B) (h : A -> list C) (l : list A) :
  (forall a, In a l -> length (filter P (g a)) = length (filter Q (h a))) ->
  length (filter P (flat_map g l)) = length (filter Q (flat_map h l)).
Proof.
  induction l as [|a l IH]; intro H; [reflexivity|].
  cbn [flat_map]. rewrite !filter_app, !length_app.
  rewrite (H a) by (left; reflexivity). f_equal.
  apply IH. intros b Hb. apply H. right. exact Hb.
Qed.

Lemma filter_map_length {A B : Type} (P : B -> bool) (f : A -> B) (l : list A) :
  length (filter P (map f l)) = length (filter (fun a => P (f a)) l).
Proof.
  induction l as [|a l IH]; simpl; [reflexivity|].
  destruct (P (f a)); simpl; congruence.
Qed.

(** The increments that hit a counter are the label pairs the
    specification counts for it. *)
Lemma hits_contributions (mol : MakeCats.Mol) (key : string) (bucket : nat) :
  Spec.hits (Spec.events mol) key bucket = Spec.contributions mol key bucket.
Proof.
  unfold Spec.hits, Spec.contributions, Spec.events, Spec.label_pairs. f_equal.
  rewrite combinations2_atom_pairs.
  apply filter_flat_map_length. intros p _. cbv zeta.
  rewrite (filter_map_length _ (pair p)). cbn [fst snd].
  destruct (MakeCats.GetDistanceMatrix mol (fst p) (snd p) <? 11)%Z.
  - rewrite filter_map_length. cbn [fst snd].
    apply filter_length_ext. intros [x y]. cbn [fst snd andb].
    apply andb_comm.
  - cbn [filter length andb]. symmetry.
    rewrite filter_none; [reflexivity|].
    intros a _. reflexivity.
Qed.

(** No label pair counts when every atom pair is out of range or has an
    unlabelled end. *)
Lemma contributions_none (mol : MakeCats.Mol) (key : string) (bucket : nat) :
  (forall i j : nat, (i < j < MakeCats.GetNumAtoms mol)%nat ->
     (11 <= MakeCats.GetDistanceMatrix mol i j)%Z
     \/ MakeCats.labels mol i = [] \/ MakeCats.labels mol j = []) ->
  Spec.contributions mol key bucket = 0%Z.
Proof.
  intro H. unfold Spec.contributions.
  rewrite filter_none; [reflexivity|].
  intros [p [x y]] Hc. unfold Spec.label_pairs in Hc.
  apply in_flat_map in Hc. destruct Hc as (q & Hq & Hc).
  apply in_map_iff in Hc. destruct Hc as (xy & E & Hxy).
  inversion E; subst q xy. clear E.
  apply in_prod_iff in Hxy. destruct Hxy as [Hx Hy].
  cbn [fst snd].
  destruct (H (fst p) (snd p) (atom_pairs_In _ _ Hq)) as [Hd|[He|He]].
  - destruct (Z.ltb_spec (MakeCats.GetDistanceMatrix mol (fst p) (snd p)) 11);
      [lia | reflexivity].
  - rewrite He in Hx. contradiction.
  - rewrite He in Hy. contradiction.
Qed.

(** *** The labels an atom carries *)

Lemma atomTypes_NoDup : NoDup MakeCats.atomTypes.
Proof.
  unfold MakeCats.atomTypes. repeat constructor; simpl; intuition discriminate.
Qed.

(** The labels [addBond] reads off an atom are the labels the atom
    carries, each once. *)
Lemma labels_carried (mol : MakeCats.Mol) (atom : nat) :
  NoDup (MakeCats.GetPropsAsDict mol atom) ->
  Permutation (MakeCats.labels mol atom) (Spec.carried mol atom).
Proof.
  intro H. apply NoDup_Permutation.
  - apply NoDup_filter. exact H.
  - apply NoDup_filter. exact atomTypes_NoDup.
  - intro x. unfold MakeCats.labels, Spec.carried. rewrite !filter_In.
    rewrite !existsb_exists. split.
    + intros [Hx (y & Hy & E)]. apply String.eqb_eq in E. subst y.
      split; [exact Hy|]. exists x. split; [exact Hx | apply String.eqb_refl].
    + intros [Hx (y & Hy & E)]. apply String.eqb_eq in E. subst y.
      split; [exact Hy|]. exists x. split; [exact Hx | apply String.eqb_refl].
Qed.

Lemma list_prod_perm_r {A B : Type} (a : list A) (b b' : list B) :
  Permutation b b' -> Permutation (list_prod a b) (list_prod a b').
Proof.
  intro H. induction a as [|x a IH]; simpl; [constructor|].
  apply Permutation_app; [apply Permutation_map; exact H | exact IH].
Qed.

Lemma list_prod_perm_l {A B : Type} (a a' : list A) (b : list B) :
  Permutation a a' -> Permutation (list_prod a b) (list_prod a' b).
Proof.
  induction 1 as [|x a a' _ IH|x y a|a a' a'' _ IH1 _ IH2]; simpl.
  - constructor.
  - apply Permutation_app_head. exact IH.
  - rewrite !app_assoc. apply Permutation_app_tail. apply Permutation_app_comm.
  - eapply Permutation_trans; eassumption.
Qed.

Lemma filter_length_perm {A : Type} (f : A -> bool) (l l' : list A) :
  Permutation l l' -> length (filter f l) = length (filter f l').
Proof.
  induction 1 as [|x l l' _ IH|x y l|l l' l'' _ IH1 _ IH2]; simpl.
  - reflexivity.
  - destruct (f x); simpl; congruence.
  - destruct (f x), (f y); reflexivity.
  - congruence.
Qed.

(** Counting over the label pairs the loops meet and over the labels the
    atoms carry gives the same number. *)
Lemma carried_pairs_count (mol : MakeCats.Mol)
    (g : nat * nat * (string * string) -> bool) :
  Spec.dict_keys mol ->
  length (filter g (Spec.label_pairs mol)) = length (filter g (Spec.carried_pairs mol)).
Proof.
  intro H. unfold Spec.label_pairs, Spec.carried_pairs.
  apply filter_flat_map_length. intros p _.
  rewrite !filter_map_length. apply filter_length_perm.
  eapply Permutation_trans.
  - apply list_prod_perm_l. apply labels_carried. apply H.
  - apply list_prod_perm_r. apply labels_carried. apply H.
Qed.

Lemma contributions_counted (mol : MakeCats.Mol) (key : string) (bucket : nat) :
  Spec.dict_keys mol ->
  Spec.contributions mol key bucket = Spec.counted mol key bucket.
Proof.
  intro H. unfold Spec.contributions, Spec.counted. f_equal.
  apply carried_pairs_count. exact H.
Qed.

(** Nothing is counted when every atom pair is out of range or has an
    end that carries no label. *)
Lemma counted_none (mol : MakeCats.Mol) (key : string) (bucket : nat) :
  (forall i j : nat, (i < j < MakeCats.GetNumAtoms mol)%nat ->
     (11 <= MakeCats.GetDistanceMatrix mol i j)%Z
     \/ Spec.carried mol i = [] \/ Spec.carried mol j = []) ->
  Spec.counted mol key bucket = 0%Z.
Proof.
  intro H. unfold Spec.counted.
  rewrite filter_none; [reflexivity|].
  intros [p [x y]] Hc. unfold Spec.carried_pairs in Hc.
  apply in_flat_map in Hc. destruct Hc as (q & Hq & Hc).
  apply in_map_iff in Hc. destruct Hc as (xy & E & Hxy).
  inversion E; subst q xy. clear E.
  apply in_prod_iff in Hxy. destruct Hxy as [Hx Hy].
  cbn [fst snd].
  destruct (H (fst p) (snd p) (atom_pairs_In _ _ Hq)) as [Hd|[He|He]].
  - destruct (Z.ltb_spec (MakeCats.GetDistanceMatrix mol (fst p) (snd p)) 11);
      [lia | reflexivity].
  - rewrite He in Hx. contradiction.
  - rewrite He in Hy. contradiction.
Qed.

(** C2: on a molecule with topological distances whose atoms carry
    labels of the alphabet among the keys of their property dictionaries,
    [getDistances] adds to the counter at each key and bucket exactly the
    number of (atom pair, label, label) combinations with [i < j], a
    label carried by atom [i] and one carried by atom [j], distance
    [bucket + 1] under 11 and canonical key [key]; when every pair is at
    distance 11 or more or has an end without labels, no counter moves. *)
Theorem getDistances_counts (mol : MakeCats.Mol) (fp : MakeCats.fp_dict) :
  Spec.topological mol -> Spec.dict_keys mol -> Spec.well_formed fp ->
  exists fp',
    MakeCats.getDistances mol fp = Ok fp' /\ Spec.well_formed fp'
    /\ (forall key bucket,
          Spec.counter fp' key bucket
          = (Spec.counter fp key bucket + Spec.counted mol key bucket)%Z)
    /\ ((forall i j : nat, (i < j < MakeCats.GetNumAtoms mol)%nat ->
           (11 <= MakeCats.GetDistanceMatrix mol i j)%Z
           \/ Spec.carried mol i = [] \/ Spec.carried mol j = []) ->
        forall key bucket, Spec.counter fp' key bucket = Spec.counter fp key bucket).
Proof.
  intros Htop Hkeys Hwf. rewrite getDistances_events.
  destruct (increments_count Hwf (events_valid Htop)) as (fp' & E & Hwf' & C).
  exists fp'. split; [exact E|]. split; [exact Hwf'|].
  assert (K : forall key bucket,
             Spec.counter fp' key bucket
             = (Spec.counter fp key bucket + Spec.counted mol key bucket)%Z).
  { intros key bucket.
    rewrite C, hits_contributions, (contributions_counted _ _ Hkeys). reflexivity. }
  split; [exact K|].
  intros Hnone key bucket. rewrite K, counted_none by exact Hnone. lia.
Qed.

(** Ethanol, CCO: the two carbons carry [L], the oxygen carries [A]
    beside a property that is no label; the counters of a dictionary that
    already counted one [LL] pair at distance 1 and one [AL] pair at
    distance 2 go to 2 and 2, and the counter of [AL] at distance 1 goes
    from 0 to 1. *)
Lemma getDistances_counts_witness :
  let mol := MakeCats.mkMol 3
               (fun a => match a with
                         | 0%nat | 1%nat => ["L"%string]
                         | 2%nat => ["_CIPRank"%string; "A"%string]
                         | _ => []
                         end)
               (fun i j => Z.abs (Z.of_nat i - Z.of_nat j)) in
  let fp := MakeCats.setitem
              (MakeCats.setitem MakeCats.make_blank_distributions "LL"
                 [1; 0; 0; 0; 0; 0; 0; 0; 0; 0]%Z)
              "AL" [0; 1; 0; 0; 0; 0; 0; 0; 0; 0]%Z in
  (exists fp',
     MakeCats.getDistances mol fp = Ok fp' /\ Spec.well_formed fp'
     /\ (forall key bucket,
           Spec.counter fp' key bucket
           = (Spec.counter fp key bucket + Spec.counted mol key bucket)%Z)
     /\ ((forall i j : nat, (i < j < MakeCats.GetNumAtoms mol)%nat ->
            (11 <= MakeCats.GetDistanceMatrix mol i j)%Z
            \/ Spec.carried mol i = [] \/ Spec.carried mol j = []) ->
         forall key bucket, Spec.counter fp' key bucket = Spec.counter fp key bucket))
  /\ Spec.carried mol 2 = ["A"%string]
  /\ Spec.counted mol "LL" 0 = 1%Z /\ Spec.counted mol "AL" 0 = 1%Z
  /\ Spec.counted mol "AL" 1 = 1%Z /\ Spec.counted mol "LL" 1 = 0%Z.
Proof.
  intros mol fp. split; [|repeat split].
  apply (@getDistances_counts mol fp).
  - intros i j H. simpl in *. lia.
  - intros [|[|[|a]]]; simpl; repeat constructor; simpl; intuition discriminate.
  - split; [reflexivity | repeat constructor].
Defined.

(** ** The fingerprint vector: [make_FP] *)

Lemma fold_left_invariant {A B : Type} (P : A -> Prop) (f : A -> B -> A)
    (l : list B) (a : A) :
  (forall a b, P a -> P (f a b)) -> P a -> P (fold_left f l a).
Proof.
  intro H. revert a. induction l as [|b l IH]; intros a Ha; simpl; auto.
Qed.

(** Typing the atoms changes neither the atoms nor their distances. *)
Lemma setProps_frame (GetSubstructMatches : MakeCats.Mol -> MakeCats.pphore -> list nat)
    (mol : MakeCats.Mol) :
  MakeCats.GetNumAtoms (MakeCats.setProps GetSubstructMatches mol)
  = MakeCats.GetNumAtoms mol
  /\ MakeCats.GetDistanceMatrix (MakeCats.setProps GetSubstructMatches mol)
     = MakeCats.GetDistanceMatrix mol.
Proof.
  unfold MakeCats.setProps.
  apply (fold_left_invariant
           (fun m => MakeCats.GetNumAtoms m = MakeCats.GetNumAtoms mol
                     /\ MakeCats.GetDistanceMatrix m = MakeCats.GetDistanceMatrix mol));
    [|split; reflexivity].
  intros m lp Hm.
  apply (fold_left_invariant
           (fun m => MakeCats.GetNumAtoms m = MakeCats.GetNumAtoms mol
                     /\ MakeCats.GetDistanceMatrix m = MakeCats.GetDistanceMatrix mol));
    [|exact Hm].
  intros m' atom Hm'. exact Hm'.
Qed.

Lemma blank_distributions :
  MakeCats.make_blank_distributions
  = map (fun key => (key, [0; 0; 0; 0; 0; 0; 0; 0; 0; 0]%Z)) MakeCats.possible_pairs.
Proof. reflexivity. Qed.

Lemma blank_well_formed : Spec.well_formed MakeCats.make_blank_distributions.
Proof. split; [reflexivity | repeat constructor]. Qed.

Lemma blank_counter (key : string) (bucket : nat) :
  Spec.counter MakeCats.make_blank_distributions key bucket = 0%Z.
Proof.
  rewrite blank_distributions. unfold Spec.counter.
  induction MakeCats.possible_pairs as [|k ks IH]; simpl; [reflexivity|].
  destruct (String.eqb k key); [|exact IH].
  do 10 (destruct bucket as [|bucket]; [reflexivity|]). destruct bucket; reflexivity.
Qed.

Lemma possible_pairs_order :
  MakeCats.possible_pairs
  = ["DD"; "AD"; "DE"; "DH"; "BD"; "DP"; "DL"; "AA"; "AE"; "AH"; "AB"; "AP"; "AL";
     "EE"; "EH"; "BE"; "EP"; "EL"; "HH"; "BH"; "HP"; "HL"; "BB"; "BP"; "BL";
     "PP"; "LP"; "LL"]%string.
Proof. reflexivity. Qed.

Lemma possible_pairs_NoDup : NoDup MakeCats.possible_pairs.
Proof.
  assert (E : nodup string_dec MakeCats.possible_pairs = MakeCats.possible_pairs)
    by (vm_compute; reflexivity).
  rewrite <- E. apply NoDup_nodup.
Qed.

(** The row assignments of [make_FP] copy the arrays of the dictionary,
    in its order, over the rows of the blank matrix. *)
Lemma assign_rows (items : MakeCats.fp_dict) (done tail : list (list Z)) :
  length tail = length items ->
  Forall (fun kv => length (snd kv) = 10%nat) items ->
  for_each (fun blank_FP cv => MakeCats.assign_row blank_FP (fst cv) (snd (snd cv)))
    (combine (seq (length done) (length items)) items) (done ++ tail)
  = Ok (done ++ map snd items).
Proof.
  revert done tail. induction items as [|[k v] items IH]; intros done tail Hlen Hall.
  - destruct tail; [reflexivity | discriminate].
  - destruct tail as [|t tail]; [discriminate|].
    inversion Hall as [|? ? Hv Hall']; subst. simpl in Hv, Hlen.
    cbn [length seq combine for_each fst snd].
    unfold MakeCats.assign_row at 1.
    assert (L : Nat.ltb (length done) (length (done ++ t :: tail)) = true).
    { apply Nat.ltb_lt. rewrite length_app. simpl. lia. }
    rewrite L, Hv. cbn [Nat.eqb Py.bind].
    rewrite firstn_length_app, skipn_length_app.
    replace (done ++ v :: tail) with ((done ++ [v]) ++ tail)
      by (rewrite <- app_assoc; reflexivity).
    replace (S (length done)) with (length (done ++ [v]))
      by (rewrite length_app; simpl; lia).
    rewrite IH by (try assumption; lia).
    rewrite <- app_assoc. reflexivity.
Qed.

Lemma values_by_key (fp : MakeCats.fp_dict) :
  NoDup (map fst fp) ->
  map snd fp
  = map (fun key => match MakeCats.getitem fp key with
                    | Ok arr => arr
                    | Raise _ => []
                    end) (map fst fp).
Proof.
  induction fp as [|[k v] fp IH]; intro H; [reflexivity|].
  inversion H as [|? ? Hk Hnd]; subst. cbn [map fst snd MakeCats.getitem].
  rewrite String.eqb_refl. f_equal.
  rewrite (IH Hnd) at 1. apply map_ext_in. intros key Hkey.
  destruct (String.eqb_spec k key) as [->|Hne]; [contradiction | reflexivity].
Qed.

Lemma nth_seq_self (l : list Z) : map (fun b => nth b l 0%Z) (seq 0 (length l)) = l.
Proof.
  induction l as [|a l IH]; [reflexivity|].
  cbn [length seq map nth]. f_equal.
  rewrite <- seq_shift, map_map. exact IH.
Qed.

(** The arrays of a well-formed dictionary, read through its counters. *)
Lemma values_by_counter (fp : MakeCats.fp_dict) :
  Spec.well_formed fp ->
  map snd fp
  = map (fun key => map (Spec.counter fp key) (seq 0 10)) MakeCats.possible_pairs.
Proof.
  intros [Hkeys Hlen].
  rewrite values_by_key by (rewrite Hkeys; exact possible_pairs_NoDup).
  rewrite Hkeys. apply map_ext_in. intros key Hkey.
  destruct (getitem_present fp key) as (arr & E & Hin); [rewrite Hkeys; exact Hkey|].
  unfold Spec.counter. rewrite E.
  rewrite Forall_forall in Hlen. specialize (Hlen (key, arr) Hin). simpl in Hlen.
  rewrite <- Hlen. symmetry. apply nth_seq_self.
Qed.

Lemma concat_length_const {A : Type} (ls : list (list A)) (n : nat) :
  Forall (fun l => length l = n) ls -> length (concat ls) = (length ls * n)%nat.
Proof.
  induction 1 as [|l ls Hl _ IH]; simpl; [reflexivity|].
  rewrite length_app, IH, Hl. reflexivity.
Qed.

Lemma concat_Forall {A : Type} (P : A -> Prop) (ls : list (list A)) :
  Forall (Forall P) ls -> Forall P (concat ls).
Proof.
  induction 1 as [|l ls Hl _ IH]; simpl; [constructor|].
  apply Forall_app. split; assumption.
Qed.

Section MakeFPFacts.

Variable GetSubstructMatches : MakeCats.Mol -> MakeCats.pphore -> list nat.

(** C3: on a molecule with topological distances [make_FP] returns a
    vector of exactly 280 entries, none negative: the concatenation, in
    the order of the 28 pair keys, of the ten counters of each key, the
    counter of bucket [b] being the number of label pairs of the typed
    molecule at distance [b + 1]. *)
Theorem make_FP_shape (mol : MakeCats.Mol) :
  Spec.topological mol ->
  exists v : list Z,
    MakeCats.make_FP GetSubstructMatches mol = Ok v
    /\ length v = 280%nat
    /\ Forall (fun c => (0 <= c)%Z) v
    /\ length MakeCats.possible_pairs = 28%nat
    /\ v = concat
             (map (fun key =>
                     map (Spec.contributions
                            (MakeCats.setProps GetSubstructMatches mol) key)
                       (seq 0 10))
                MakeCats.possible_pairs).
Proof.
  intro Htop.
  set (mol' := MakeCats.setProps GetSubstructMatches mol).
  assert (Htop' : Spec.topological mol').
  { destruct (setProps_frame GetSubstructMatches mol) as [EN ED].
    intros i j Hij. unfold mol'. rewrite ED. apply Htop. rewrite <- EN. exact Hij. }
  destruct (increments_count blank_well_formed (events_valid Htop'))
    as (fp & E & Hwf & C).
  rewrite <- getDistances_events in E.
  assert (V : map snd fp
              = map (fun key => map (Spec.contributions mol' key) (seq 0 10))
                  MakeCats.possible_pairs).
  { rewrite (values_by_counter Hwf). apply map_ext. intro key.
    apply map_ext. intro b. rewrite C, blank_counter, hits_contributions. lia. }
  assert (L : length fp = 28%nat).
  { destruct Hwf as [Hkeys _]. rewrite <- (length_map fst), Hkeys. reflexivity. }
  exists (concat (map snd fp)). split; [|split; [|split; [|split]]].
  - unfold MakeCats.make_FP. fold mol'. rewrite E. cbn [Py.bind].
    unfold MakeCats.enumerate.
    assert (A := @assign_rows fp [] (repeat (repeat 0%Z 10) 28)).
    cbn [length app] in A. rewrite A.
    + reflexivity.
    + rewrite repeat_length. symmetry. exact L.
    + destruct Hwf as [_ Hlen]. exact Hlen.
  - rewrite (concat_length_const (n := 10)).
    + rewrite length_map, L. reflexivity.
    + apply Forall_forall. intros arr Harr. apply in_map_iff in Harr.
      destruct Harr as (kv & <- & Hkv). destruct Hwf as [_ Hlen].
      rewrite Forall_forall in Hlen. apply Hlen. exact Hkv.
  - rewrite V. apply concat_Forall. apply Forall_forall. intros arr Harr.
    apply in_map_iff in Harr. destruct Harr as (key & <- & _).
    apply Forall_forall. intros c Hc. apply in_map_iff in Hc.
    destruct Hc as (b & <- & _). unfold Spec.contributions. lia.
  - reflexivity.
  - rewrite V. reflexivity.
Qed.

End MakeFPFacts.

(** Ethanol, CCO, typed by the toolkit: the carbons match the aliphatic
    pattern, the oxygen the acceptor pattern. *)
Lemma make_FP_shape_witness :
  let matches := fun (_ : MakeCats.Mol) (p : MakeCats.pphore) =>
                   match p with
                   | MakeCats.aliphatic_C => [0; 1]%nat
                   | MakeCats.hba => [2]%nat
                   | _ => []
                   end in
  let mol := MakeCats.mkMol 3 (fun _ => [])
               (fun i j => Z.abs (Z.of_nat i - Z.of_nat j)) in
  exists v : list Z,
    MakeCats.make_FP matches mol = Ok v
    /\ length v = 280%nat
    /\ Forall (fun c => (0 <= c)%Z) v
    /\ length MakeCats.possible_pairs = 28%nat
    /\ v = concat
             (map (fun key =>
                     map (Spec.contributions (MakeCats.setProps matches mol) key)
                       (seq 0 10))
                MakeCats.possible_pairs).
Proof.
  intros matches mol. apply (@make_FP_shape matches mol).
  intros i j H. simpl in *. lia.
Defined.

(** The scenario of the specification: in ethanol the only non-zero
    counters are L-L at distance 1 (the two carbons), and A-L at
    distances 1 and 2 (the oxygen and each carbon). *)
Example make_FP_ethanol :
  let matches := fun (_ : MakeCats.Mol) (p : MakeCats.pphore) =>
                   match p with
                   | MakeCats.aliphatic_C => [0; 1]%nat
                   | MakeCats.hba => [2]%nat
                   | _ => []
                   end in
  let mol := MakeCats.mkMol 3 (fun _ => [])
               (fun i j => Z.abs (Z.of_nat i - Z.of_nat j)) in
  MakeCats.make_FP matches mol
  = Ok (repeat 0%Z 120 ++ [1; 1]%Z ++ repeat 0%Z 148 ++ [1]%Z ++ repeat 0%Z 9).
Proof. reflexivity. Qed.

(* ================================================================== *)
(** * Further properties of the code                                   *)
(* ================================================================== *)

(** ** The fingerprint vector as a whole *)

(** The value of [make_FP]: the counters of every key, key after key. *)
Lemma make_FP_value (GetSubstructMatches : MakeCats.Mol -> MakeCats.pphore -> list nat)
    (mol : MakeCats.Mol) :
  Spec.topological mol ->
  MakeCats.make_FP GetSubstructMatches mol
  = Ok (concat
          (map (fun key =>
                  map (Spec.contributions
                         (MakeCats.setProps GetSubstructMatches mol) key)
                    (seq 0 10))
             MakeCats.possible_pairs)).
Proof.
  intro Htop.
  set (mol' := MakeCats.setProps GetSubstructMatches mol).
  assert (Htop' : Spec.topological mol').
  { destruct (setProps_frame GetSubstructMatches mol) as [EN ED].
    intros i j Hij. unfold mol'. rewrite ED. apply Htop. rewrite <- EN. exact Hij. }
  destruct (increments_count blank_well_formed (events_valid Htop'))
    as (fp & E & Hwf & C).
  rewrite <- getDistances_events in E.
  assert (L : length fp = 28%nat).
  { destruct Hwf as [Hkeys _]. rewrite <- (length_map fst), Hkeys. reflexivity. }
  unfold MakeCats.make_FP. fold mol'. rewrite E. cbn [Py.bind].
  unfold MakeCats.enumerate.
  assert (A := @assign_rows fp [] (repeat (repeat 0%Z 10) 28)).
  cbn [length app] in A. rewrite A.
  - cbn [Py.bind]. do 2 f_equal.
    rewrite (values_by_counter Hwf). apply map_ext. intro key.
    apply map_ext. intro b. rewrite C, blank_counter, hits_contributions. lia.
  - rewrite repeat_length. symmetry. exact L.
  - destruct Hwf as [_ Hlen]. exact Hlen.
Qed.

Lemma list_sum_add {A : Type} (f g : A -> nat) (l : list A) :
  list_sum (map (fun a => (f a + g a)%nat) l)
  = (list_sum (map f l) + list_sum (map g l))%nat.
Proof.
  induction l as [|a l IH]; simpl; [reflexivity | rewrite IH; lia].
Qed.

Lemma list_sum_zero {A : Type} (f : A -> nat) (l : list A) :
  (forall a, In a l -> f a = 0%nat) -> list_sum (map f l) = 0%nat.
Proof.
  induction l as [|a l IH]; simpl; intro H; [reflexivity|].
  rewrite (H a) by (left; reflexivity). apply IH. intros b Hb. apply H.
  right. exact Hb.
Qed.

(** Counting by cells: when every counted element falls in exactly one
    cell, the cell counts add up to the number of counted elements. *)
Lemma count_by_cells {A C : Type} (cells : list C) (P : C -> A -> bool)
    (Q : A -> bool) (l : list A) :
  (forall a, In a l ->
     list_sum (map (fun c => if P c a then 1%nat else 0%nat) cells)
     = if Q a then 1%nat else 0%nat) ->
  list_sum (map (fun c => length (filter (P c) l)) cells) = length (filter Q l).
Proof.
  induction l as [|a l IH]; intro H.
  - simpl. apply list_sum_zero. reflexivity.
  - rewrite (map_ext (fun c => length (filter (P c) (a :: l)))
               (fun c => ((if P c a then 1 else 0) + length (filter (P c) l))%nat))
      by (intro c; simpl; destruct (P c a); reflexivity).
    rewrite list_sum_add, (H a) by (left; reflexivity).
    rewrite IH by (intros b Hb; apply H; right; exact Hb).
    simpl. destruct (Q a); reflexivity.
Qed.

Lemma list_sum_cons (a : nat) (l : list nat) :
  list_sum (a :: l) = (a + list_sum l)%nat.
Proof. reflexivity. Qed.

Lemma one_bucket (z : Z) (a n : nat) :
  (Z.of_nat a <= z < Z.of_nat (a + n))%Z ->
  list_sum (map (fun b => if (z =? Z.of_nat b)%Z then 1%nat else 0%nat) (seq a n))
  = 1%nat.
Proof.
  revert a. induction n as [|n IH]; intros a H; [lia|].
  cbn [seq map]. rewrite list_sum_cons.
  destruct (Z.eqb_spec z (Z.of_nat a)) as [E|E].
  - rewrite list_sum_zero; [reflexivity|].
    intros b Hb. apply in_seq in Hb. destruct (Z.eqb_spec z (Z.of_nat b)); [lia|].
    reflexivity.
  - rewrite IH by lia. reflexivity.
Qed.

Lemma one_key (x : string) (keys : list string) :
  NoDup keys -> In x keys ->
  list_sum (map (fun k => if String.eqb x k then 1%nat else 0%nat) keys) = 1%nat.
Proof.
  induction 1 as [|k keys Hk Hnd IH]; intro Hin; [contradiction|].
  cbn [map]. rewrite list_sum_cons.
  destruct (String.eqb_spec x k) as [->|Hne].
  - rewrite list_sum_zero; [reflexivity|].
    intros k' Hk'. destruct (String.eqb_spec k k'); [subst; contradiction|].
    reflexivity.
  - destruct Hin as [->|Hin]; [contradiction|]. rewrite (IH Hin). reflexivity.
Qed.

Lemma list_sum_flat_map {A B : Type} (f : B -> nat) (g : A -> list B) (l : list A) :
  list_sum (map f (flat_map g l)) = list_sum (map (fun a => list_sum (map f (g a))) l).
Proof.
  induction l as [|a l IH]; simpl; [reflexivity|].
  rewrite map_app, list_sum_app, IH. reflexivity.
Qed.

Lemma sumZ_of_nat (l : list nat) :
  Utils.sumZ (map Z.of_nat l) = Z.of_nat (list_sum l).
Proof.
  induction l as [|a l IH]; [reflexivity|].
  cbn [map]. rewrite sumZ_cons, IH. simpl list_sum. lia.
Qed.

Lemma concat_map_prod {A B C : Type} (f : A -> B -> C) (xs : list A) (ys : list B) :
  concat (map (fun x => map (f x) ys) xs)
  = map (fun p => f (fst p) (snd p)) (list_prod xs ys).
Proof.
  induction xs as [|x xs IH]; simpl; [reflexivity|].
  rewrite map_app, map_map, IH. reflexivity.
Qed.

Lemma list_prod_flat_map {A B : Type} (xs : list A) (ys : list B) :
  list_prod xs ys = flat_map (fun x => map (pair x) ys) xs.
Proof.
  induction xs as [|x xs IH]; simpl; [reflexivity | rewrite IH; reflexivity].
Qed.

(** A label pair of the typed molecule within range falls on exactly
    one key and one bucket. *)
Lemma label_pair_one_cell (mol : MakeCats.Mol) (c : nat * nat * (string * string)) :
  Spec.topological mol -> In c (Spec.label_pairs mol) ->
  list_sum
    (map (fun kb : string * nat =>
            if (let d := MakeCats.GetDistanceMatrix mol (fst (fst c)) (snd (fst c)) in
                (d <? 11)%Z && (d - 1 =? Z.of_nat (snd kb))%Z
                && String.eqb (MakeCats.pair_key (fst (snd c)) (snd (snd c))) (fst kb))
            then 1%nat else 0%nat)
       (list_prod MakeCats.possible_pairs (seq 0 10)))
  = if (MakeCats.GetDistanceMatrix mol (fst (fst c)) (snd (fst c)) <? 11)%Z
    then 1%nat else 0%nat.
Proof.
  intros Htop Hc. cbv zeta.
  destruct c as [p [x y]]. cbn [fst snd].
  unfold Spec.label_pairs in Hc. apply in_flat_map in Hc.
  destruct Hc as (q & Hq & Hc). apply in_map_iff in Hc.
  destruct Hc as (xy & E & Hxy). inversion E; subst q xy. clear E.
  apply in_prod_iff in Hxy. destruct Hxy as [Hx Hy].
  assert (Hd := Htop _ _ (atom_pairs_In _ _ Hq)).
  assert (Hk : In (MakeCats.pair_key x y) MakeCats.possible_pairs)
    by (apply pair_key_possible; eapply labels_atomTypes; eassumption).
  destruct (Z.ltb_spec (MakeCats.GetDistanceMatrix mol (fst p) (snd p)) 11) as [Hlt|Hge].
  - rewrite list_prod_flat_map, list_sum_flat_map.
    rewrite (map_ext
               (fun k => list_sum
                           (map (fun kb : string * nat =>
                                   if true
                                      && (MakeCats.GetDistanceMatrix mol (fst p) (snd p) - 1
                                          =? Z.of_nat (snd kb))%Z
                                      && String.eqb (MakeCats.pair_key x y) (fst kb)
                                   then 1%nat else 0%nat)
                              (map (pair k) (seq 0 10))))
               (fun k => if String.eqb (MakeCats.pair_key x y) k then 1%nat else 0%nat)).
    + apply one_key; [exact possible_pairs_NoDup | exact Hk].
    + intro k. rewrite map_map. cbn [fst snd andb].
      destruct (String.eqb (MakeCats.pair_key x y) k).
      * rewrite (map_ext _ (fun b => if (MakeCats.GetDistanceMatrix mol (fst p) (snd p) - 1
                                         =? Z.of_nat b)%Z then 1%nat else 0%nat))
          by (intro b; rewrite andb_true_r; reflexivity).
        apply one_bucket. simpl. lia.
      * apply list_sum_zero. intros b _. rewrite andb_false_r. reflexivity.
  - apply list_sum_zero. intros kb _. reflexivity.
Qed.

Section FingerprintFacts.

Variable GetSubstructMatches : MakeCats.Mol -> MakeCats.pphore -> list nat.

(** The entries of the fingerprint add up to the number of increments
    the loops of [getDistances] make on the typed molecule. *)
Lemma make_FP_total (mol : MakeCats.Mol) :
  Spec.topological mol ->
  exists v : list Z,
    MakeCats.make_FP GetSubstructMatches mol = Ok v
    /\ Utils.sumZ v
       = Z.of_nat
           (length
              (filter
                 (fun c =>
                    (MakeCats.GetDistanceMatrix
                       (MakeCats.setProps GetSubstructMatches mol)
                       (fst (fst c)) (snd (fst c)) <? 11)%Z)
                 (Spec.label_pairs (MakeCats.setProps GetSubstructMatches mol)))).
Proof.
  intro Htop. rewrite (make_FP_value GetSubstructMatches Htop).
  eexists. split; [reflexivity|].
  set (mol' := MakeCats.setProps GetSubstructMatches mol).
  assert (Htop' : Spec.topological mol').
  { destruct (setProps_frame GetSubstructMatches mol) as [EN ED].
    intros i j Hij. unfold mol'. rewrite ED. apply Htop. rewrite <- EN. exact Hij. }
  rewrite (concat_map_prod (Spec.contributions mol')).
  unfold Spec.contributions.
  rewrite <- (map_map
                (fun p : string * nat =>
                   length
                     (filter
                        (fun c =>
                           let d := MakeCats.GetDistanceMatrix mol' (fst (fst c))
                                      (snd (fst c)) in
                           (d <? 11)%Z && (d - 1 =? Z.of_nat (snd p))%Z
                           && String.eqb
                                (MakeCats.pair_key (fst (snd c)) (snd (snd c))) (fst p))
                        (Spec.label_pairs mol')))
                Z.of_nat).
  rewrite sumZ_of_nat. f_equal.
  apply (count_by_cells (list_prod MakeCats.possible_pairs (seq 0 10))
           (fun (kb : string * nat) c =>
              let d := MakeCats.GetDistanceMatrix mol' (fst (fst c)) (snd (fst c)) in
              (d <? 11)%Z && (d - 1 =? Z.of_nat (snd kb))%Z
              && String.eqb (MakeCats.pair_key (fst (snd c)) (snd (snd c))) (fst kb))).
  intros c Hc. apply label_pair_one_cell; assumption.
Qed.

Lemma SetProp_dict_keys (m : MakeCats.Mol) (a : nat) (l : string) :
  Spec.dict_keys m -> Spec.dict_keys (MakeCats.SetProp m a l).
Proof.
  intros H b. unfold MakeCats.SetProp. cbn [MakeCats.GetPropsAsDict].
  destruct (Nat.eqb b a); [|apply H].
  destruct (existsb (String.eqb l) (MakeCats.GetPropsAsDict m b)) eqn:E; [apply H|].
  apply NoDup_app; [apply H | repeat constructor; simpl; tauto |].
  intros x Hx [<-|[]].
  assert (T : existsb (String.eqb l) (MakeCats.GetPropsAsDict m b) = true).
  { apply existsb_exists. exists l. split; [exact Hx | apply String.eqb_refl]. }
  congruence.
Qed.

(** Typing the atoms keeps the keys of every property dictionary
    distinct. *)
Lemma setProps_dict_keys (mol : MakeCats.Mol) :
  Spec.dict_keys mol -> Spec.dict_keys (MakeCats.setProps GetSubstructMatches mol).
Proof.
  intro H. unfold MakeCats.setProps.
  apply (fold_left_invariant Spec.dict_keys); [|exact H].
  intros m lp Hm.
  apply (fold_left_invariant Spec.dict_keys); [|exact Hm].
  intros m' atom Hm'. apply SetProp_dict_keys. exact Hm'.
Qed.

(** Conservation: on a molecule whose property dictionaries have
    distinct keys, the entries of the fingerprint add up to the number of
    (atom pair, label, label) combinations with [i < j], the atoms less
    than 11 bonds apart, one label of the alphabet among the property
    keys of atom [i] after typing and one among those of atom [j]. *)
Theorem make_FP_conservation (mol : MakeCats.Mol) :
  Spec.topological mol -> Spec.dict_keys mol ->
  exists v : list Z,
    MakeCats.make_FP GetSubstructMatches mol = Ok v
    /\ Utils.sumZ v
       = Z.of_nat
           (length
              (filter
                 (fun c =>
                    (MakeCats.GetDistanceMatrix
                       (MakeCats.setProps GetSubstructMatches mol)
                       (fst (fst c)) (snd (fst c)) <? 11)%Z)
                 (Spec.carried_pairs (MakeCats.setProps GetSubstructMatches mol)))).
Proof.
  intros Htop Hkeys. destruct (make_FP_total Htop) as (v & E & S).
  exists v. split; [exact E|].
  rewrite S. f_equal. apply carried_pairs_count.
  apply setProps_dict_keys. exact Hkeys.
Qed.

Lemma flat_map_nil {A B : Type} (g : A -> list B) (l : list A) :
  (forall a, In a l -> g a = []) -> flat_map g l = [].
Proof.
  induction l as [|a l IH]; simpl; intro H; [reflexivity|].
  rewrite (H a) by (left; reflexivity). apply IH. intros b Hb. apply H.
  right. exact Hb.
Qed.

Lemma list_prod_nil_r {A B : Type} (l : list A) : list_prod l (@nil B) = [].
Proof.
  induction l as [|a l IH]; simpl; [reflexivity | exact IH].
Qed.

(** No increment happens when every atom pair is out of range or has an
    end without labels. *)
Lemma events_nil (mol : MakeCats.Mol) :
  (forall i j : nat, (i < j < MakeCats.GetNumAtoms mol)%nat ->
     (11 <= MakeCats.GetDistanceMatrix mol i j)%Z
     \/ MakeCats.labels mol i = [] \/ MakeCats.labels mol j = []) ->
  Spec.events mol = [].
Proof.
  intro H. unfold Spec.events. apply flat_map_nil. intros p Hp.
  rewrite combinations2_atom_pairs in Hp. apply atom_pairs_In in Hp.
  cbv zeta.
  destruct (H _ _ Hp) as [Hd|[He|He]].
  - destruct (Z.ltb_spec (MakeCats.GetDistanceMatrix mol (fst p) (snd p)) 11);
      [lia | reflexivity].
  - rewrite He. destruct (_ <? _)%Z; reflexivity.
  - rewrite He, list_prod_nil_r. destruct (_ <? _)%Z; reflexivity.
Qed.

(** Degenerate input: when no two labelled atoms of the typed molecule
    are less than 11 bonds apart (a single atom, atoms no pattern
    matches, fragments far apart), the fingerprint is the all-zero
    vector, and nothing is raised. *)
Theorem make_FP_all_zero (mol : MakeCats.Mol) :
  (forall i j : nat, (i < j < MakeCats.GetNumAtoms mol)%nat ->
     (11 <= MakeCats.GetDistanceMatrix mol i j)%Z
     \/ MakeCats.labels (MakeCats.setProps GetSubstructMatches mol) i = []
     \/ MakeCats.labels (MakeCats.setProps GetSubstructMatches mol) j = []) ->
  MakeCats.make_FP GetSubstructMatches mol = Ok (repeat 0%Z 280).
Proof.
  intro H. unfold MakeCats.make_FP.
  rewrite getDistances_events, events_nil.
  - reflexivity.
  - destruct (setProps_frame GetSubstructMatches mol) as [EN ED].
    rewrite EN, ED. exact H.
Qed.

Lemma SetProp_props (m : MakeCats.Mol) (a b : nat) (l x : string) :
  In x (MakeCats.GetPropsAsDict (MakeCats.SetProp m a l) b)
  <-> In x (MakeCats.GetPropsAsDict m b) \/ (x = l /\ b = a).
Proof.
  unfold MakeCats.SetProp. cbn [MakeCats.GetPropsAsDict].
  destruct (Nat.eqb_spec b a) as [->|Hne].
  - destruct (existsb (String.eqb l) (MakeCats.GetPropsAsDict m a)) eqn:E.
    + apply existsb_exists in E. destruct E as (y & Hy & Ey).
      apply String.eqb_eq in Ey. subst y.
      split; [tauto|]. intros [Hx|[-> _]]; assumption.
    + rewrite in_app_iff. simpl. split.
      * intros [Hx|[<-|[]]]; auto.
      * intros [Hx|[-> _]]; auto.
  - split; [tauto|]. intros [Hx|[_ E]]; [assumption | contradiction].
Qed.

Hypothesis matches_ignore_props :
  forall m a l p,
    GetSubstructMatches (MakeCats.SetProp m a l) p = GetSubstructMatches m p.

Lemma label_atoms_props (atoms : list nat) (m : MakeCats.Mol) (l : string) :
  let m' := fold_left (fun m a => MakeCats.SetProp m a l) atoms m in
  (forall p, GetSubstructMatches m' p = GetSubstructMatches m p)
  /\ forall b x,
       In x (MakeCats.GetPropsAsDict m' b)
       <-> In x (MakeCats.GetPropsAsDict m b) \/ (x = l /\ In b atoms).
Proof.
  revert m. induction atoms as [|a atoms IH]; intro m; cbn [fold_left].
  - split; [reflexivity|]. intros b x. simpl. tauto.
  - destruct (IH (MakeCats.SetProp m a l)) as [IHm IHp]. split.
    + intro p. rewrite IHm. apply matches_ignore_props.
    + intros b x. rewrite IHp, SetProp_props. simpl. intuition congruence.
Qed.

Lemma label_patterns_props (lps : list (string * MakeCats.pphore)) (m : MakeCats.Mol) :
  let m' := fold_left
              (fun m lp =>
                 fold_left (fun m a => MakeCats.SetProp m a (fst lp))
                   (GetSubstructMatches m (snd lp)) m)
              lps m in
  (forall p, GetSubstructMatches m' p = GetSubstructMatches m p)
  /\ forall b x,
       In x (MakeCats.GetPropsAsDict m' b)
       <-> In x (MakeCats.GetPropsAsDict m b)
           \/ exists p, In (x, p) lps /\ In b (GetSubstructMatches m p).
Proof.
  revert m. induction lps as [|[l q] lps IH]; intro m; cbn [fold_left fst snd].
  - split; [reflexivity|]. intros b x. simpl. split; [tauto|].
    intros [H|(p & [] & _)]. exact H.
  - destruct (label_atoms_props (GetSubstructMatches m q) m l) as [Em Ep].
    cbv zeta in Em, Ep.
    destruct (IH (fold_left (fun m a => MakeCats.SetProp m a l)
                    (GetSubstructMatches m q) m)) as [IHm IHp].
    cbv zeta in IHm, IHp. split.
    + intro p. rewrite IHm. apply Em.
    + intros b x. rewrite IHp, Ep. split.
      * intros [[H|[-> H]]|(p & Hin & Hb)].
        -- left. exact H.
        -- right. exists q. split; [left; reflexivity | exact H].
        -- right. exists p. split; [right; exact Hin | rewrite <- Em; exact Hb].
      * intros [H|(p & [E|Hin] & Hb)].
        -- left. left. exact H.
        -- inversion E; subst. left. right. split; [reflexivity | exact Hb].
        -- right. exists p. split; [exact Hin | rewrite Em; exact Hb].
Qed.

(** The atom typer is additive: after [setProps] an atom carries a
    property key exactly when it carried it before or the toolkit
    matched the atom to the pattern of that label; nothing is removed,
    and the order of the seven patterns plays no role. *)
Theorem setProps_labels (mol : MakeCats.Mol) (atom : nat) (label : string) :
  In label (MakeCats.GetPropsAsDict (MakeCats.setProps GetSubstructMatches mol) atom)
  <-> In label (MakeCats.GetPropsAsDict mol atom)
      \/ exists p,
           In (label, p)
             (combine MakeCats.atomTypes
                [MakeCats.hbd; MakeCats.hba; MakeCats.pi_e; MakeCats.halogen;
                 MakeCats.basic; MakeCats.acidic; MakeCats.aliphatic_C])
           /\ In atom (GetSubstructMatches mol p).
Proof.
  unfold MakeCats.setProps.
  destruct (label_patterns_props
              (combine MakeCats.atomTypes
                 [MakeCats.hbd; MakeCats.hba; MakeCats.pi_e; MakeCats.halogen;
                  MakeCats.basic; MakeCats.acidic; MakeCats.aliphatic_C]) mol)
    as [_ H].
  apply H.
Qed.

End FingerprintFacts.

(** Ethanol, typed by the toolkit: the oxygen, which already has a
    property that is no label, is matched as donor and as acceptor, so
    that five combinations are counted: one between the carbons and two
    between each carbon and the oxygen. *)
Lemma make_FP_conservation_witness :
  let matches := fun (_ : MakeCats.Mol) (p : MakeCats.pphore) =>
                   match p with
                   | MakeCats.aliphatic_C => [0; 1]%nat
                   | MakeCats.hba | MakeCats.hbd => [2]%nat
                   | _ => []
                   end in
  let mol := MakeCats.mkMol 3
               (fun a => match a with 2%nat => ["_CIPRank"%string] | _ => [] end)
               (fun i j => Z.abs (Z.of_nat i - Z.of_nat j)) in
  (exists v : list Z,
    MakeCats.make_FP matches mol = Ok v
    /\ Utils.sumZ v
       = Z.of_nat
           (length
              (filter
                 (fun c =>
                    (MakeCats.GetDistanceMatrix (MakeCats.setProps matches mol)
                       (fst (fst c)) (snd (fst c)) <? 11)%Z)
                 (Spec.carried_pairs (MakeCats.setProps matches mol)))))
  /\ Spec.carried (MakeCats.setProps matches mol) 2 = ["D"; "A"]%string
  /\ length (Spec.carried_pairs (MakeCats.setProps matches mol)) = 5%nat.
Proof.
  intros matches mol. split; [|split; reflexivity].
  apply (@make_FP_conservation matches mol).
  - intros i j H. simpl in *. lia.
  - intros [|[|[|a]]]; simpl; repeat constructor; simpl; tauto.
Defined.

(** A single atom that two patterns match. *)
Lemma make_FP_all_zero_witness :
  let matches := fun (_ : MakeCats.Mol) (p : MakeCats.pphore) =>
                   match p with
                   | MakeCats.hbd | MakeCats.hba => [0%nat]
                   | _ => []
                   end in
  let mol := MakeCats.mkMol 1 (fun _ => []) (fun _ _ => 0%Z) in
  MakeCats.make_FP matches mol = Ok (repeat 0%Z 280).
Proof.
  intros matches mol. apply (@make_FP_all_zero matches mol).
  intros i j H. simpl in H. lia.
Defined.

(** The oxygen of ethanol and the acceptor label. *)
Lemma setProps_labels_witness :
  let matches := fun (_ : MakeCats.Mol) (p : MakeCats.pphore) =>
                   match p with
                   | MakeCats.aliphatic_C => [0; 1]%nat
                   | MakeCats.hba => [2]%nat
                   | _ => []
                   end in
  let mol := MakeCats.mkMol 3 (fun _ => [])
               (fun i j => Z.abs (Z.of_nat i - Z.of_nat j)) in
  In "A"%string (MakeCats.GetPropsAsDict (MakeCats.setProps matches mol) 2)
  <-> In "A"%string (MakeCats.GetPropsAsDict mol 2)
      \/ exists p,
           In ("A"%string, p)
             (combine MakeCats.atomTypes
                [MakeCats.hbd; MakeCats.hba; MakeCats.pi_e; MakeCats.halogen;
                 MakeCats.basic; MakeCats.acidic; MakeCats.aliphatic_C])
           /\ In 2%nat (matches mol p).
Proof.
  intros matches mol.
  apply (@setProps_labels matches (fun m a l p => eq_refl) mol 2%nat "A"%string).
Defined.

(** ** Range and balance of the AVE bias *)

Lemma filter_le_length {A : Type} (f : A -> bool) (l : list A) :
  (length (filter f l) <= length l)%nat.
Proof.
  induction l as [|a l IH]; simpl; [lia|]. destruct (f a); simpl; lia.
Qed.

Lemma fraction_below_bounds (M : ndarray2 Q) (t : Q) :
  (0 < nrows M)%nat -> (0 <= Spec.fraction_below M t <= 1)%Q.
Proof.
  intro H. unfold Spec.fraction_below.
  assert (L := filter_le_length (Spec.has_entry_below t) (rows M)).
  fold (nrows M) in L.
  assert (P : (0 < inject_Z (Z.of_nat (nrows M)))%Q).
  { rewrite <- (Zlt_Qlt 0). lia. }
  split.
  - apply Qle_shift_div_l; [exact P|]. rewrite Qmult_0_l.
    rewrite <- (Zle_Qle 0). lia.
  - apply Qle_shift_div_r; [exact P|]. rewrite Qmult_1_l.
    rewrite <- Zle_Qle. lia.
Qed.

Lemma Qsum_bounds (l : list Q) :
  Forall (fun x => (0 <= x <= 1)%Q) l ->
  (0 <= Spec.Qsum l <= inject_Z (Z.of_nat (length l)))%Q.
Proof.
  induction 1 as [|x l Hx _ IH]; simpl Spec.Qsum.
  - simpl. split; apply Qle_refl.
  - replace (Z.of_nat (length (x :: l))) with (1 + Z.of_nat (length l))%Z
      by (simpl length; lia).
    rewrite inject_Z_plus. change (inject_Z 1) with 1%Q.
    split; lra.
Qed.

(** Every similarity score lies between 0 and 1. *)
Lemma S_bounds (M : ndarray2 Q) : (0 < nrows M)%nat -> (0 <= Spec.S M <= 1)%Q.
Proof.
  intro H. unfold Spec.S.
  assert (B := Qsum_bounds (l := map (Spec.fraction_below M) Spec.thresholds)).
  rewrite length_map in B.
  change (inject_Z (Z.of_nat (length Spec.thresholds))) with 50%Q in B.
  destruct B as [B1 B2].
  { apply Forall_forall. intros x Hx. apply in_map_iff in Hx.
    destruct Hx as (t & <- & _). apply fraction_below_bounds. exact H. }
  split.
  - apply Qle_shift_div_l; [reflexivity | lra].
  - apply Qle_shift_div_r; [reflexivity | lra].
Qed.

(** On matrices with at least one row each, the AVE bias is a number
    between -2 and 2. *)
Theorem calc_AVE_range (aTest_aTrain aTest_iTrain iTest_iTrain iTest_aTrain : ndarray2 Q) :
  (0 < nrows aTest_aTrain)%nat -> (0 < nrows aTest_iTrain)%nat ->
  (0 < nrows iTest_iTrain)%nat -> (0 < nrows iTest_aTrain)%nat ->
  exists v : Q,
    Utils.calc_AVE (aTest_aTrain, aTest_iTrain, iTest_iTrain, iTest_aTrain) = Num v
    /\ (-2 <= v <= 2)%Q.
Proof.
  intros H1 H2 H3 H4.
  destruct (any_S_spec _ H1) as (v1 & E1 & Q1).
  destruct (any_S_spec _ H2) as (v2 & E2 & Q2).
  destruct (any_S_spec _ H3) as (v3 & E3 & Q3).
  destruct (any_S_spec _ H4) as (v4 & E4 & Q4).
  assert (B1 := @S_bounds _ H1). assert (B2 := @S_bounds _ H2).
  assert (B3 := @S_bounds _ H3). assert (B4 := @S_bounds _ H4).
  rewrite <- Q1 in B1. rewrite <- Q2 in B2. rewrite <- Q3 in B3. rewrite <- Q4 in B4.
  unfold Utils.calc_AVE. rewrite E1, E2, E3, E4.
  eexists. split; [reflexivity|]. lra.
Qed.

Lemma calc_AVE_range_witness :
  let near := Array2 2 [[1 # 10; 9 # 10]; [1 # 2; 3 # 4]]%Q in
  let far := Array2 2 [[4 # 5; 9 # 10]; [1; 7 # 10]]%Q in
  exists v : Q,
    Utils.calc_AVE (near, far, near, far) = Num v /\ (-2 <= v <= 2)%Q.
Proof.
  intros near far.
  apply (@calc_AVE_range near far near far); unfold nrows; simpl; lia.
Defined.

(** The AVE bias is 0 when, for each test group, the distances to the
    train actives and to the train inactives are the same matrix. *)
Theorem calc_AVE_balanced (aTest iTest : ndarray2 Q) :
  (0 < nrows aTest)%nat -> (0 < nrows iTest)%nat ->
  exists v : Q,
    Utils.calc_AVE (aTest, aTest, iTest, iTest) = Num v /\ (v == 0)%Q.
Proof.
  intros H1 H2.
  destruct (any_S_spec _ H1) as (v1 & E1 & _).
  destruct (any_S_spec _ H2) as (v2 & E2 & _).
  unfold Utils.calc_AVE. rewrite E1, E2.
  eexists. split; [reflexivity | ring].
Qed.

Lemma calc_AVE_balanced_witness :
  let near := Array2 2 [[1 # 10; 9 # 10]; [1 # 2; 3 # 4]]%Q in
  let far := Array2 2 [[4 # 5; 9 # 10]; [1; 7 # 10]]%Q in
  exists v : Q,
    Utils.calc_AVE (near, near, far, far) = Num v /\ (v == 0)%Q.
Proof.
  intros near far.
  apply (@calc_AVE_balanced near far); unfold nrows; simpl; lia.
Defined.

(** ** Index sets *)

Lemma index_valid (n : nat) (k : Z) :
  (- Z.of_nat n <= k < Z.of_nat n)%Z ->
  exists i, index n k = Ok i /\ (i < n)%nat.
Proof.
  intro H. unfold index.
  destruct (Z.leb_spec 0 k); destruct (Z.ltb_spec k (Z.of_nat n)); cbn [andb];
    try lia.
  - exists (Z.to_nat k). split; [reflexivity | lia].
  - destruct (Z.leb_spec (- Z.of_nat n) k); destruct (Z.ltb_spec k 0); cbn [andb];
      try lia.
    exists (Z.to_nat (Z.of_nat n + k)). split; [reflexivity | lia].
Qed.

Lemma mapM_index_valid (n : nat) (idx : list Z) :
  Spec.valid_indices n idx ->
  exists js, mapM (index n) idx = Ok js /\ Forall (fun j => (j < n)%nat) js.
Proof.
  induction 1 as [|k idx Hk _ IH].
  - exists []. split; [reflexivity | constructor].
  - destruct (@index_valid _ _ Hk) as (i & Ei & Hi). destruct IH as (js & Ejs & Hjs).
    exists (i :: js). split; [|constructor; assumption].
    cbn [mapM]. rewrite Ei. cbn [Py.bind]. rewrite Ejs. reflexivity.
Qed.

(** Unlike [calc_AVE], which scores an empty train group as 0,
    [calc_AVE_quick] raises [ValueError] when one of its train index
    sets is empty (all indices being valid). *)
Theorem calc_AVE_quick_empty_train (dmat : ndarray2 Q)
    (actives_train actives_test inactives_train inactives_test : list Z) :
  Spec.valid_indices (nrows dmat) actives_test ->
  Spec.valid_indices (nrows dmat) inactives_test ->
  Spec.valid_indices (ncols dmat) actives_train ->
  Spec.valid_indices (ncols dmat) inactives_train ->
  actives_train = [] \/ inactives_train = [] ->
  Utils.calc_AVE_quick dmat actives_train actives_test inactives_train inactives_test
  = Raise ValueError.
Proof.
  intros Hate Hite Hat Hit Hempty.
  destruct (mapM_index_valid Hite) as (ri & Eri & _).
  destruct (mapM_index_valid Hit) as (ci & Eci & _).
  destruct (mapM_index_valid Hat) as (ca & Eca & _).
  unfold Utils.calc_AVE_quick, take_rows, take_cols.
  rewrite Eri. cbn [Py.bind ncols rows]. rewrite Eci. cbn [Py.bind].
  unfold min_axis1 at 1. cbn [ncols rows].
  destruct inactives_train as [|k it]; [reflexivity|].
  destruct Hempty as [->|E]; [|discriminate].
  cbn [length Nat.eqb Py.bind]. rewrite Eca. cbn [Py.bind]. reflexivity.
Qed.

Lemma calc_AVE_quick_empty_train_witness :
  let dmat := Array2 3 [[0; 1 # 4; 3 # 4]; [1 # 4; 0; 1 # 2]; [3 # 4; 1 # 2; 0]]%Q in
  Utils.calc_AVE_quick dmat []%Z [1]%Z [0]%Z [2]%Z = Raise ValueError.
Proof.
  intro dmat.
  apply (@calc_AVE_quick_empty_train dmat []%Z [1]%Z [0]%Z [2]%Z);
    try (left; reflexivity);
    repeat constructor; unfold nrows; simpl; lia.
Defined.

(** ** Jaccard and Dice distances between two sets of fingerprints *)

Lemma entry_table (g : list Z -> list Z -> npfloat) (Xs Ys : list (list Z))
    (c i j : nat) :
  (i < length Xs)%nat -> (j < length Ys)%nat ->
  Spec.entry (Array2 c (map (fun x => map (g x) Ys) Xs)) i j
  = g (nth i Xs []) (nth j Ys []).
Proof.
  intros Hi Hj. unfold Spec.entry. simpl rows.
  rewrite (nth_map_lt (fun x => map (g x) Ys) Xs [] [] Hi).
  apply nth_map_lt. exact Hj.
Qed.

Lemma fast_jaccard_table (X Y : ndarray2 Z) :
  ncols X = ncols Y ->
  Utils.fast_jaccard X (Some Y)
  = Ok (Array2 (nrows (Utils.binarize Y))
          (map (fun x => map (Spec.jaccard_rows x) (rows (Utils.binarize Y)))
             (rows (Utils.binarize X)))).
Proof.
  intro H. unfold Utils.fast_jaccard. rewrite H, Nat.eqb_refl. simpl negb. cbv iota.
  f_equal. unfold Utils.dot_T, Utils.outer_add, Utils.sum_axis1.
  set (Xs := rows (Utils.binarize X)). set (Ys := rows (Utils.binarize Y)).
  rewrite !map_map.
  rewrite (map_ext (fun x => map (fun y => (Utils.sumZ x + y)%Z) (map Utils.sumZ Ys))
             (fun x => map (fun y => (Utils.sumZ x + Utils.sumZ y)%Z) Ys))
    by (intro x; apply map_map).
  rewrite (zip_with_tabulated Z.sub
             (fun x y => (Utils.sumZ x + Utils.sumZ y)%Z) Utils.dot_row Xs Ys).
  rewrite (zip_with_tabulated _ Utils.dot_row
             (fun x y => (Utils.sumZ x + Utils.sumZ y - Utils.dot_row x y)%Z) Xs Ys).
  reflexivity.
Qed.

Lemma fast_dice_table (X Y : ndarray2 Z) :
  ncols X = ncols Y ->
  Utils.fast_dice X (Some Y)
  = Ok (Array2 (nrows (Utils.binarize Y))
          (map (fun x => map (Spec.dice_rows x) (rows (Utils.binarize Y)))
             (rows (Utils.binarize X)))).
Proof.
  intro H. unfold Utils.fast_dice.
  change (ncols (Utils.binarize X)) with (ncols X).
  change (ncols (Utils.binarize Y)) with (ncols Y).
  rewrite H, Nat.eqb_refl. simpl negb. cbv iota.
  f_equal. unfold Utils.dot_T, Utils.outer_add, Utils.getnnz1.
  set (Xs := rows (Utils.binarize X)). set (Ys := rows (Utils.binarize Y)).
  set (nnz := fun r : list Z =>
                Z.of_nat (length (filter (fun v => negb (v =? 0)%Z) r))).
  rewrite !map_map.
  rewrite (map_ext (fun x => map (fun y => (nnz x + y)%Z) (map nnz Ys))
             (fun x => map (fun y => (nnz x + nnz y)%Z) Ys))
    by (intro x; apply map_map).
  rewrite (zip_with_tabulated _ Utils.dot_row
             (fun x y => (nnz x + nnz y)%Z) Xs Ys).
  reflexivity.
Qed.

Lemma binarize_row (X : ndarray2 Z) (i : nat) :
  nth i (rows (Utils.binarize X)) []
  = map (fun v => if (v =? 0)%Z then 0%Z else 1%Z) (Spec.row X i).
Proof.
  unfold Utils.binarize, Spec.row. simpl rows.
  change (@nil Z) with (map (fun v => if (v =? 0)%Z then 0%Z else 1%Z) []) at 1.
  apply map_nth.
Qed.


Lemma Qdiv_le_cross (a b c d : Q) :
  (0 < b)%Q -> (0 < d)%Q -> (a * d <= c * b)%Q -> (a / b <= c / d)%Q.
Proof.
  intros Hb Hd H. apply Qle_shift_div_r; [exact Hb|].
  assert (E : (c / d * b == (c * b) / d)%Q) by (field; lra).
  rewrite E. apply Qle_shift_div_l; [exact Hd | exact H].
Qed.

Lemma Qdiv_unit_interval (a b : Q) :
  (0 <= a)%Q -> (a <= b)%Q -> (0 < b)%Q -> (0 <= a / b <= 1)%Q.
Proof.
  intros Ha Hab Hb. split.
  - apply Qle_shift_div_l; [exact Hb | lra].
  - apply Qle_shift_div_r; [exact Hb | lra].
Qed.

(** The two distances of a pair of binarized rows: undefined together,
    exactly when neither row has a set bit; otherwise numbers of the unit
    interval, the Dice distance being the smaller. *)
Lemma row_distances (x y : list Z) :
  Spec.binary x -> Spec.binary y ->
  (Utils.sumZ x = 0%Z /\ Utils.sumZ y = 0%Z
   /\ Spec.jaccard_rows x y = NaN /\ Spec.dice_rows x y = NaN)
  \/ (~ (Utils.sumZ x = 0%Z /\ Utils.sumZ y = 0%Z)
      /\ exists a b : Q,
           Spec.jaccard_rows x y = Num a /\ Spec.dice_rows x y = Num b
           /\ (0 <= b)%Q /\ (b <= a)%Q /\ (a <= 1)%Q).
Proof.
  intros Hx Hy.
  assert (Bx := sumZ_binary Hx). assert (By := sumZ_binary Hy).
  assert (Bd := dot_row_bounds Hx Hy).
  assert (Bd' := dot_row_bounds Hy Hx). rewrite (dot_row_comm y x) in Bd'.
  unfold Spec.jaccard_rows, Spec.dice_rows.
  rewrite (nnz_binary Hx), (nnz_binary Hy).
  set (d := Utils.dot_row x y) in *. set (sx := Utils.sumZ x) in *.
  set (sy := Utils.sumZ y) in *.
  destruct (Z.eq_dec (sx + sy) 0) as [E0|Hpos].
  - left. assert (sx = 0%Z) by lia. assert (sy = 0%Z) by lia.
    assert (d = 0%Z) by lia.
    repeat split; try assumption.
    + replace (sx + sy - d)%Z with 0%Z by lia. replace d with 0%Z by lia.
      reflexivity.
    + replace (sx + sy)%Z with 0%Z by lia. replace (2 * d)%Z with 0%Z by lia.
      reflexivity.
  - right. split; [lia|].
    rewrite !true_divide_Z by lia. rewrite !sub_one_Num.
    eexists. eexists. split; [reflexivity|]. split; [reflexivity|].
    rewrite inject_Z_mult, inject_Z_plus. unfold Zminus.
    rewrite inject_Z_plus, inject_Z_plus, inject_Z_opp.
    change (inject_Z 2) with 2%Q.
    assert (Qd : (0 <= inject_Z d)%Q) by (rewrite <- (Zle_Qle 0); lia).
    assert (Qdx : (inject_Z d <= inject_Z sx)%Q) by (rewrite <- Zle_Qle; lia).
    assert (Qdy : (inject_Z d <= inject_Z sy)%Q) by (rewrite <- Zle_Qle; lia).
    assert (Qs : (0 < inject_Z sx + inject_Z sy)%Q).
    { rewrite <- inject_Z_plus, <- (Zlt_Qlt 0). lia. }
    set (D := inject_Z d) in *. set (SX := inject_Z sx) in *.
    set (SY := inject_Z sy) in *.
    assert (U : (0 < SX + SY + - D)%Q) by lra.
    assert (J := @Qdiv_unit_interval D (SX + SY + - D) Qd ltac:(lra) U).
    assert (C := @Qdiv_unit_interval (2 * D) (SX + SY) ltac:(lra) ltac:(lra) Qs).
    assert (L : (D / (SX + SY + - D) <= 2 * D / (SX + SY))%Q).
    { apply Qdiv_le_cross; [exact U | exact Qs | nra]. }
    split; [lra|]. split; lra.
Qed.



(** ** More on [split_clusters] *)

Lemma slice_bound_zero (n : nat) : slice_bound n 0 = 0%nat.
Proof.
  unfold slice_bound. simpl. apply Nat.min_0_r.
Qed.

Lemma slice_bound_positive (n : nat) (k : Z) :
  (0 < n)%nat -> (1 <= k)%Z -> (0 < slice_bound n k)%nat.
Proof.
  intros Hn Hk. unfold slice_bound.
  destruct (Z.ltb_spec k 0); [lia|]. lia.
Qed.

Lemma firstn_head {A : Type} (k : nat) (l : list A) :
  (0 < k)%nat -> l <> [] -> exists a, In a (firstn k l).
Proof.
  intros Hk Hl. destruct l as [|a l]; [contradiction|].
  destruct k as [|k]; [lia|]. exists a. left. reflexivity.
Qed.

Section SplitFacts.

Variable rng : Type.
Variable np_random_shuffle : rng -> list Z -> rng * list Z.

Hypothesis shuffle_is_permutation :
  forall g l, Permutation l (snd (np_random_shuffle g l)).

(** With a float [neg_test_fraction], [split_clusters] returns, and the
    test list followed by the train list is a rearrangement of the
    positive and negative cluster ids: every id is kept as many times as
    it was given, also when ids repeat. *)
Theorem split_clusters_float_permutation (g : rng) (pos_labels neg_labels : list Z)
    (pos_test_fraction f : Q) (shuffle : bool) :
  exists test train : list Z,
    Utils.split_clusters np_random_shuffle g pos_labels neg_labels
      pos_test_fraction (Utils.AFloat f) shuffle = Ok (test, train)
    /\ Permutation (test ++ train) (pos_labels ++ neg_labels).
Proof.
  destruct (@split_clusters_shuffled rng np_random_shuffle shuffle_is_permutation g pos_labels neg_labels
              pos_test_fraction (Utils.AFloat f) shuffle) as (P & N & HP & HN & E).
  rewrite E. clear E. cbn [Py.bind]. eexists. eexists. split; [reflexivity|].
  unfold slice_to, slice_from.
  eapply Permutation_trans; [apply Permutation_sym, split4_perm|].
  rewrite !firstn_skipn. apply Permutation_sym, Permutation_app; assumption.
Qed.

(** Whatever the fractions, a returned test list holds a positive
    cluster as soon as there is one: the number of positive test clusters
    is at least 1, also for [pos_test_fraction = 0]. *)
Theorem split_clusters_test_has_positive (g : rng) (pos_labels neg_labels : list Z)
    (pos_test_fraction : Q) (neg_test_fraction : Utils.neg_fraction)
    (shuffle : bool) (test train : list Z) :
  pos_labels <> [] ->
  Utils.split_clusters np_random_shuffle g pos_labels neg_labels
    pos_test_fraction neg_test_fraction shuffle = Ok (test, train) ->
  exists c, In c pos_labels /\ In c test.
Proof.
  intros Hne.
  destruct (@split_clusters_shuffled rng np_random_shuffle shuffle_is_permutation g pos_labels neg_labels
              pos_test_fraction neg_test_fraction shuffle) as (P & N & HP & HN & E).
  rewrite E. clear E. intro H.
  assert (HPne : P <> []).
  { intro HP0. subst P. apply Permutation_sym, Permutation_nil in HP.
    contradiction. }
  assert (Hlen : (0 < length P)%nat).
  { destruct P; [contradiction | simpl; lia]. }
  destruct (@firstn_head Z
              (slice_bound (length P)
                 (Z.max 1 (round (Utils.scale (length P) pos_test_fraction)))) P
              (slice_bound_positive Hlen (Z.le_max_l _ _)) HPne) as [c Hc].
  exists c. split.
  - eapply Permutation_in; [apply Permutation_sym; exact HP|].
    eapply firstn_In; exact Hc.
  - destruct neg_test_fraction as [f|f0 f1].
    + cbn [Py.bind] in H. injection H as <- _. apply in_or_app. left. exact Hc.
    + destruct (Qltb 1 (Utils.sum_pair f0 f1)); [discriminate|].
      cbn [Py.bind] in H. injection H as <- _. apply in_or_app. left. exact Hc.
Qed.

(** With a pair of proportions whose train proportion rounds to zero
    clusters, the train slice [neg_labels[-0:]] is the whole list: every
    negative cluster is a train cluster, so every test cluster that is
    negative is a train cluster too. *)
Theorem split_clusters_zero_train_proportion (g : rng)
    (pos_labels neg_labels : list Z) (pos_test_fraction f0 f1 : Q)
    (shuffle : bool) :
  (f0 + f1 <= 1)%Q ->
  round (Utils.scale (length neg_labels) f1) = 0%Z ->
  exists test train : list Z,
    Utils.split_clusters np_random_shuffle g pos_labels neg_labels
      pos_test_fraction (Utils.APair f0 f1) shuffle = Ok (test, train)
    /\ (forall c, In c neg_labels -> In c train)
    /\ (forall c, In c test -> In c pos_labels \/ In c train).
Proof.
  intros Hsum Hround.
  destruct (@split_clusters_shuffled rng np_random_shuffle shuffle_is_permutation g pos_labels neg_labels
              pos_test_fraction (Utils.APair f0 f1) shuffle)
    as (P & N & HP & HN & E).
  rewrite E. clear E.
  assert (Eq := pair_accepted Hsum).
  rewrite Eq. cbn [Py.bind].
  rewrite <- (Permutation_length HN), Hround. simpl Z.opp.
  unfold slice_from at 2. rewrite slice_bound_zero. simpl skipn.
  eexists. eexists. split; [reflexivity|].
  assert (HinN : forall c, In c neg_labels -> In c N)
    by (intros c Hc; eapply Permutation_in; eassumption).
  split.
  - intros c Hc. apply in_or_app. right. apply HinN. exact Hc.
  - intros c Hc. apply in_app_or in Hc. destruct Hc as [Hc|Hc].
    + left. eapply Permutation_in; [apply Permutation_sym; exact HP|].
      eapply firstn_In. exact Hc.
    + right. apply in_or_app. right. eapply firstn_In. exact Hc.
Qed.

End SplitFacts.

(** Three positive clusters, one of them given twice, and four negative
    ones, the shuffle reversing its list. *)
Lemma split_clusters_float_permutation_witness :
  exists test train : list Z,
    Utils.split_clusters (fun (g : unit) (l : list Z) => (g, rev l)) tt
      [1; 2; 2; 3]%Z [4; 5; 6; 7]%Z (1 # 3) (Utils.AFloat (1 # 2)) true
    = Ok (test, train)
    /\ Permutation (test ++ train) ([1; 2; 2; 3] ++ [4; 5; 6; 7])%Z.
Proof.
  apply (@split_clusters_float_permutation unit (fun (g : unit) l => (g, rev l))
           (fun g l => Permutation_rev l) tt [1; 2; 2; 3]%Z [4; 5; 6; 7]%Z
           (1 # 3) (1 # 2) true).
Defined.

(** Two positive clusters and none of them asked for. *)
Lemma split_clusters_test_has_positive_witness :
  exists c, In c [1; 2]%Z /\ In c [2; 4]%Z.
Proof.
  apply (@split_clusters_test_has_positive unit (fun (g : unit) l => (g, rev l))
           (fun g l => Permutation_rev l) tt [1; 2]%Z [3; 4]%Z 0
           (Utils.AFloat (1 # 2)) true [2; 4]%Z [1; 3]%Z).
  - discriminate.
  - reflexivity.
Defined.

(** Two negative clusters, half of them for the test set and a fifth,
    which rounds to none, for the train set. *)
Lemma split_clusters_zero_train_proportion_witness :
  exists test train : list Z,
    Utils.split_clusters (fun (g : unit) (l : list Z) => (g, l)) tt
      [0]%Z [1; 2]%Z (1 # 2) (Utils.APair (1 # 2) (1 # 5)) true
    = Ok (test, train)
    /\ (forall c, In c [1; 2]%Z -> In c train)
    /\ (forall c, In c test -> In c [0]%Z \/ In c train).
Proof.
  apply (@split_clusters_zero_train_proportion unit (fun (g : unit) l => (g, l))
           (fun g l => Permutation_refl l) tt [0]%Z [1; 2]%Z (1 # 2) (1 # 2)
           (1 # 5) true).
  - vm_compute. discriminate.
  - reflexivity.
Defined.

(** ** Label subsets: [get_subset] *)

Lemma mask_pair {A B : Type} (f : B -> bool) (xs : list A) (ys : list B) :
  length xs = length ys ->
  combine (map fst (filter (fun p => snd p) (combine xs (map f ys))))
          (map fst (filter (fun p => snd p) (combine ys (map f ys))))
  = filter (fun p => f (snd p)) (combine xs ys).
Proof.
  revert ys. induction xs as [|x xs IH]; intros [|y ys] H; simpl in *;
    try discriminate; [reflexivity|].
  destruct (f y); simpl; [f_equal|]; apply IH; lia.
Qed.

Lemma Qltb_plus_nonneg (a v : Q) :
  (0 <= a)%Q -> (0 <= v)%Q -> Qltb 0 (a + v) = Qltb 0 a || Qltb 0 v.
Proof.
  intros Ha Hv.
  destruct (Qltb 0 (a + v)) eqn:E, (Qltb 0 a) eqn:Ea, (Qltb 0 v) eqn:Ev;
    try reflexivity; exfalso;
    repeat match goal with
      | H : Qltb _ _ = true |- _ => apply Qltb_lt in H
      | H : Qltb ?x ?y = false |- _ =>
          assert (~ (x < y)%Q)
            by (intro C; apply Qltb_lt in C; congruence);
          clear H
      end; lra.
Qed.

Lemma fold_plus_positive (r : list Q) (a : Q) :
  (0 <= a)%Q -> Forall (fun v => (0 <= v)%Q) r ->
  Qltb 0 (fold_left Qplus r a) = Qltb 0 a || existsb (Qltb 0) r.
Proof.
  intros Ha Hr. revert a Ha. induction Hr as [|v r Hv _ IH]; intros a Ha; simpl.
  - rewrite orb_false_r. reflexivity.
  - rewrite IH by lra. rewrite Qltb_plus_nonneg by assumption.
    rewrite orb_assoc. reflexivity.
Qed.

Lemma sumQ_positive (r : list Q) :
  Forall (fun v => (0 <= v)%Q) r -> Qltb 0 (Utils.sumQ r) = existsb (Qltb 0) r.
Proof.
  intro H. unfold Utils.sumQ. rewrite fold_plus_positive by (try lra; exact H).
  reflexivity.
Qed.

Lemma nth_nonneg (r : list Q) (j : nat) :
  Forall (fun v => (0 <= v)%Q) r -> (0 <= nth j r 0)%Q.
Proof.
  intro H. revert j. induction H as [|v r Hv _ IH]; intros [|j]; simpl;
    try lra; try assumption. apply IH.
Qed.

(** For a label matrix without negative entries and as many rows as the
    feature matrix, [get_subset] returns, for valid column indices, the
    samples that have a positive label in one of the chosen columns:
    features and labels stay aligned, in their order, and every other
    sample is dropped from both. *)
Theorem get_subset_positive_rows (x y : ndarray2 Q) (indices : list Z) :
  nrows x = nrows y ->
  Spec.valid_indices (ncols y) indices ->
  Forall (Forall (fun v => (0 <= v)%Q)) (rows y) ->
  exists (js : list nat) (x_ y_ : ndarray2 Q),
    mapM (index (ncols y)) indices = Ok js
    /\ Utils.get_subset x y indices = Ok (x_, y_)
    /\ ncols x_ = ncols x /\ ncols y_ = length indices
    /\ nrows x_ = nrows y_
    /\ combine (rows x_) (rows y_)
       = filter (fun p => existsb (Qltb 0) (snd p))
           (combine (rows x) (map (fun r => map (fun j => nth j r 0%Q) js) (rows y))).
Proof.
  intros Hrows Hidx Hnn.
  destruct (mapM_index_valid Hidx) as (js & Ejs & _).
  exists js. unfold Utils.get_subset, take_cols. rewrite Ejs. cbn [Py.bind rows].
  set (ys := map (fun r => map (fun j => nth j r 0%Q) js) (rows y)).
  assert (Ly : length ys = nrows y) by (unfold ys, nrows; apply length_map).
  unfold Utils.mask_rows. unfold nrows at 1. cbn [rows ncols].
  rewrite !length_map, Nat.eqb_refl. cbn [Py.bind].
  rewrite Ly, Hrows, Nat.eqb_refl. cbn [Py.bind].
  eexists. eexists. split; [reflexivity|]. split; [reflexivity|].
  cbn [ncols rows]. split; [reflexivity|]. split; [reflexivity|].
  assert (E : combine
                (map fst (filter (fun p => snd p)
                   (combine (rows x) (map (fun r => Qltb 0 (Utils.sumQ r)) ys))))
                (map fst (filter (fun p => snd p)
                   (combine ys (map (fun r => Qltb 0 (Utils.sumQ r)) ys))))
              = filter (fun p => existsb (Qltb 0) (snd p)) (combine (rows x) ys)).
  { rewrite mask_pair by (rewrite Ly; exact Hrows).
    apply filter_ext_in. intros [xr yr] Hin. cbn [snd].
    apply sumQ_positive. apply in_combine_r in Hin. unfold ys in Hin.
    apply in_map_iff in Hin. destruct Hin as (r & <- & Hr).
    rewrite Forall_forall in Hnn. apply Forall_forall. intros v Hv.
    apply in_map_iff in Hv. destruct Hv as (j & <- & _).
    apply nth_nonneg. apply Hnn. exact Hr. }
  split; [|exact E].
  unfold nrows. cbn [rows]. rewrite !length_map.
  assert (L : length (rows x) = length ys) by (rewrite Ly; exact Hrows).
  clear E. revert L. generalize (rows x) as xs.
  generalize ys as l. clear. intros l xs. revert l.
  induction xs as [|a xs IH]; intros [|b l] H; simpl in *; try reflexivity;
    try discriminate.
  destruct (Qltb 0 (Utils.sumQ b)); simpl; [f_equal|]; apply (IH l); lia.
Qed.

(** Three samples and three label columns, of which the last two are
    chosen, one of them by a negative index: the first sample has no
    label there and is dropped. *)
Lemma get_subset_positive_rows_witness :
  let x := Array2 2 [[1; 2]; [3; 4]; [5; 6]]%Q in
  let y := Array2 3 [[1; 0; 0]; [0; 1; 0]; [0; 1; 1]]%Q in
  exists (js : list nat) (x_ y_ : ndarray2 Q),
    mapM (index (ncols y)) [1; -1]%Z = Ok js
    /\ Utils.get_subset x y [1; -1]%Z = Ok (x_, y_)
    /\ ncols x_ = ncols x /\ ncols y_ = length [1; -1]%Z
    /\ nrows x_ = nrows y_
    /\ combine (rows x_) (rows y_)
       = filter (fun p => existsb (Qltb 0) (snd p))
           (combine (rows x) (map (fun r => map (fun j => nth j r 0%Q) js) (rows y))).
Proof.
  intros x y. apply (@get_subset_positive_rows x y [1; -1]%Z).
  - reflexivity.
  - repeat constructor; simpl; lia.
  - repeat constructor; discriminate.
Defined.

(** ** Hold-out splits by cluster: [make_cluster_split] *)

Lemma invert_invert (m : list bool) : Utils.invert (Utils.invert m) = m.
Proof.
  unfold Utils.invert. rewrite map_map. rewrite <- (map_id m) at 2.
  apply map_ext. intro b. apply negb_involutive.
Qed.

Lemma mask_by_label {A : Type} (f : Z -> bool) (xs : list A) (labels : list Z) :
  map fst (filter (fun p => snd p) (combine xs (map f labels)))
  = map fst (filter (fun p => f (snd p)) (combine xs labels)).
Proof.
  revert labels. induction xs as [|x xs IH]; intros [|l labels]; simpl;
    try reflexivity.
  destruct (f l); simpl; [f_equal|]; apply IH.
Qed.

Lemma mask_samples {A B : Type} (f : Z -> bool) (xs : list A) (ys : list B)
    (labels : list Z) :
  length xs = length labels -> length ys = length labels ->
  combine (map fst (filter (fun p => snd p) (combine xs (map f labels))))
          (map fst (filter (fun p => snd p) (combine ys (map f labels))))
  = map fst (filter (fun s => f (snd s)) (combine (combine xs ys) labels)).
Proof.
  revert ys labels. induction xs as [|x xs IH]; intros [|y ys] [|l labels] Hx Hy;
    simpl in *; try discriminate; [reflexivity|].
  destruct (f l); simpl; [f_equal|]; apply IH; lia.
Qed.

Lemma mask_count {A : Type} (f : Z -> bool) (xs : list A) (labels : list Z) :
  length xs = length labels ->
  length (map fst (filter (fun p => snd p) (combine xs (map f labels))))
  = length (filter f labels).
Proof.
  revert labels. induction xs as [|x xs IH]; intros [|l labels] H;
    simpl in *; try discriminate; [reflexivity|].
  destruct (f l); simpl; [f_equal|]; apply IH; lia.
Qed.

Lemma filter_split_length {A : Type} (f : A -> bool) (l : list A) :
  (length (filter (fun a => negb (f a)) l) + length (filter f l) = length l)%nat.
Proof.
  induction l as [|a l IH]; simpl; [reflexivity|].
  destruct (f a); simpl; lia.
Qed.

Lemma amax_bound (a : list Z) (m : Z) :
  Utils.amax a = Ok m -> Forall (fun l => (l <= m)%Z) a.
Proof.
  destruct a as [|x xs]; [discriminate|]. simpl. intro E. injection E as <-.
  assert (G : forall (l : list Z) (b : Z),
             (b <= fold_left Z.max l b)%Z
             /\ Forall (fun v => (v <= fold_left Z.max l b)%Z) l).
  { induction l as [|v l IH]; intro b; simpl.
    - split; [lia | constructor].
    - destruct (IH (Z.max b v)) as [H1 H2]. split; [lia|].
      constructor; [lia | exact H2]. }
  destruct (G xs x) as [H1 H2]. constructor; assumption.
Qed.

Section HoldOut.

Variable rng : Type.
Variable np_random_choice : rng -> Z -> Z -> outcome (list Z).

(** With the hold-out clusters given, and one cluster label per row of
    [x_] and of [y_], [make_cluster_split] returns: the test matrices
    hold the samples whose cluster is held out, the train matrices all
    the others, features and labels staying aligned and in their order;
    no sample is lost. *)
Theorem make_cluster_split_by_cluster (g : rng) (x_ y_ : ndarray2 Q)
    (labels_ : list Z) (percentage_holdout : Q) (test_clusters : list Z) :
  nrows x_ = length labels_ -> nrows y_ = length labels_ ->
  exists x_train x_test y_train y_test : ndarray2 Q,
    Utils.make_cluster_split np_random_choice g x_ y_ labels_ percentage_holdout
      (Some test_clusters) = Ok (x_train, x_test, y_train, y_test)
    /\ combine (rows x_test) (rows y_test)
       = map fst (filter (fun s => existsb (Z.eqb (snd s)) test_clusters)
                    (combine (combine (rows x_) (rows y_)) labels_))
    /\ combine (rows x_train) (rows y_train)
       = map fst (filter (fun s => negb (existsb (Z.eqb (snd s)) test_clusters))
                    (combine (combine (rows x_) (rows y_)) labels_))
    /\ nrows x_test = nrows y_test /\ nrows x_train = nrows y_train
    /\ (nrows x_train + nrows x_test = nrows x_)%nat.
Proof.
  intros Hx Hy. unfold Utils.make_cluster_split. cbn [Py.bind].
  rewrite invert_invert. unfold Utils.mask_rows, Utils.invert, Utils.isin.
  rewrite !length_map, Hx, Hy, Nat.eqb_refl. cbn [Py.bind].
  eexists. eexists. eexists. eexists. split; [reflexivity|].
  unfold nrows in *. cbn [rows]. rewrite map_map.
  split; [apply (mask_samples (fun l => existsb (Z.eqb l) test_clusters));
          assumption|].
  split; [apply (mask_samples (fun l => negb (existsb (Z.eqb l) test_clusters)));
          assumption|].
  rewrite !(mask_count (fun l => existsb (Z.eqb l) test_clusters)) by assumption.
  rewrite !(mask_count (fun l => negb (existsb (Z.eqb l) test_clusters)))
    by assumption.
  split; [reflexivity|]. split; [reflexivity|].
  apply filter_split_length.
Qed.

Hypothesis choice_in_range :
  forall g a size l, np_random_choice g a size = Ok l ->
                     Forall (fun c => (0 <= c < a)%Z) l.

(** With the hold-out clusters drawn at random, the draw is from
    [0 .. max - 1], [max] being the largest cluster label: whenever
    [make_cluster_split] returns, the samples held out are those of some
    clusters below the largest label, so the cluster with the largest
    label, like every sample with a negative label, is always kept for
    training. *)
Theorem make_cluster_split_keeps_largest (g : rng) (x_ y_ : ndarray2 Q)
    (labels_ : list Z) (percentage_holdout : Q)
    (x_train x_test y_train y_test : ndarray2 Q) :
  Utils.make_cluster_split np_random_choice g x_ y_ labels_ percentage_holdout None
  = Ok (x_train, x_test, y_train, y_test) ->
  exists (m : Z) (held : list Z),
    Utils.amax labels_ = Ok m
    /\ Forall (fun l => (l <= m)%Z) labels_
    /\ Forall (fun c => (0 <= c < m)%Z) held
    /\ rows x_test
       = map fst (filter (fun p => existsb (Z.eqb (snd p)) held)
                    (combine (rows x_) labels_))
    /\ rows x_train
       = map fst (filter (fun p => negb (existsb (Z.eqb (snd p)) held))
                    (combine (rows x_) labels_))
    /\ forall i : nat,
         (i < length labels_)%nat ->
         (nth i labels_ 0 = m \/ nth i labels_ 0 < 0)%Z ->
         In (nth i (rows x_) []) (rows x_train).
Proof.
  unfold Utils.make_cluster_split.
  destruct (Utils.amax labels_) as [m|e] eqn:Em; [|discriminate].
  cbn [Py.bind].
  destruct (np_random_choice g m (int (Utils.times m percentage_holdout)))
    as [held|e] eqn:Eh; [|discriminate].
  cbn [Py.bind]. rewrite invert_invert.
  assert (Hheld := @choice_in_range _ _ _ _ Eh).
  unfold Utils.mask_rows, Utils.invert, Utils.isin. rewrite !length_map.
  destruct (Nat.eqb_spec (length labels_) (nrows x_)) as [Lx|]; [|discriminate].
  cbn [Py.bind].
  destruct (Nat.eqb (length labels_) (nrows y_)); [|discriminate].
  cbn [Py.bind]. intro E. injection E as <- <- <- <-.
  exists m, held. split; [reflexivity|].
  split; [apply amax_bound; exact Em|]. split; [exact Hheld|].
  cbn [rows]. rewrite map_map.
  rewrite (mask_by_label (fun l => existsb (Z.eqb l) held)).
  rewrite (mask_by_label (fun l => negb (existsb (Z.eqb l) held))).
  split; [reflexivity|]. split; [reflexivity|].
  intros i Hi Hl.
  apply in_map_iff. exists (nth i (rows x_) [], nth i labels_ 0%Z).
  split; [reflexivity|]. apply filter_In. split.
  - rewrite <- combine_nth by (symmetry; exact Lx).
    apply nth_In. rewrite length_combine. unfold nrows in Lx. lia.
  - cbn [snd]. apply negb_true_iff.
    destruct (existsb (Z.eqb (nth i labels_ 0%Z)) held) eqn:Ex; [|reflexivity].
    apply existsb_exists in Ex. destruct Ex as (c & Hc & Ec).
    apply Z.eqb_eq in Ec. rewrite Forall_forall in Hheld.
    apply Hheld in Hc. lia.
Qed.

End HoldOut.

(** Four samples in clusters 0, 1, 1 and 2, cluster 1 held out. *)
Lemma make_cluster_split_by_cluster_witness :
  let x_ := Array2 2 [[1; 2]; [3; 4]; [5; 6]; [7; 8]]%Q in
  let y_ := Array2 1 [[1]; [0]; [1]; [0]]%Q in
  let labels_ := [0; 1; 1; 2]%Z in
  exists x_train x_test y_train y_test : ndarray2 Q,
    Utils.make_cluster_split (fun (_ : unit) (_ _ : Z) => Ok (@nil Z)) tt x_ y_
      labels_ (1 # 5) (Some [1]%Z) = Ok (x_train, x_test, y_train, y_test)
    /\ combine (rows x_test) (rows y_test)
       = map fst (filter (fun s => existsb (Z.eqb (snd s)) [1]%Z)
                    (combine (combine (rows x_) (rows y_)) labels_))
    /\ combine (rows x_train) (rows y_train)
       = map fst (filter (fun s => negb (existsb (Z.eqb (snd s)) [1]%Z))
                    (combine (combine (rows x_) (rows y_)) labels_))
    /\ nrows x_test = nrows y_test /\ nrows x_train = nrows y_train
    /\ (nrows x_train + nrows x_test = nrows x_)%nat.
Proof.
  intros x_ y_ labels_.
  apply (@make_cluster_split_by_cluster unit (fun _ _ _ => Ok (@nil Z)) tt x_ y_
           labels_ (1 # 5) [1]%Z); reflexivity.
Defined.

Lemma first_cluster_in_range (g : unit) (a size : Z) (l : list Z) :
  (if (0 <? a)%Z then Ok [0%Z] else Ok []) = Ok l ->
  Forall (fun c => (0 <= c < a)%Z) l.
Proof.
  destruct (Z.ltb_spec 0 a); intro E; injection E as <-; repeat constructor; lia.
Qed.

(** Three samples in clusters 0, 1 and 1, a draw that picks cluster 0
    whenever the largest label is positive. *)
Lemma make_cluster_split_keeps_largest_witness :
  let x_ := Array2 1 [[1]; [2]; [3]]%Q in
  let y_ := Array2 1 [[0]; [1]; [1]]%Q in
  let labels_ := [0; 1; 1]%Z in
  exists (m : Z) (held : list Z),
    Utils.amax labels_ = Ok m
    /\ Forall (fun l => (l <= m)%Z) labels_
    /\ Forall (fun c => (0 <= c < m)%Z) held
    /\ rows (Array2 1 [[1]]%Q)
       = map fst (filter (fun p => existsb (Z.eqb (snd p)) held)
                    (combine (rows x_) labels_))
    /\ rows (Array2 1 [[2]; [3]]%Q)
       = map fst (filter (fun p => negb (existsb (Z.eqb (snd p)) held))
                    (combine (rows x_) labels_))
    /\ forall i : nat,
         (i < length labels_)%nat ->
         (nth i labels_ 0 = m \/ nth i labels_ 0 < 0)%Z ->
         In (nth i (rows x_) []) (rows (Array2 1 [[2]; [3]]%Q)).
Proof.
  intros x_ y_ labels_.
  apply (@make_cluster_split_keeps_largest unit
           (fun (_ : unit) (a _ : Z) => if (0 <? a)%Z then Ok [0%Z] else Ok [])
           first_cluster_in_range
           tt x_ y_ labels_ (1 # 2) (Array2 1 [[2]; [3]]%Q) (Array2 1 [[1]]%Q)
           (Array2 1 [[1]; [1]]%Q) (Array2 1 [[0]]%Q)).
  reflexivity.
Defined.

(** ** Index groups: [get_four_matrices] *)

Lemma nonzero_from_spec (m : list bool) (s : nat) (k : Z) :
  In k (Utils.nonzero_from s m)
  <-> exists i : nat, k = Z.of_nat (s + i) /\ nth i m false = true.
Proof.
  revert s. induction m as [|b m IH]; intro s; cbn [Utils.nonzero_from].
  - split; [intros [] | intros ([|i] & _ & H); discriminate].
  - rewrite in_app_iff, IH. split.
    + intros [H|(i & -> & Hi)].
      * destruct b; [|destruct H]. destruct H as [<-|[]].
        exists 0%nat. split; [f_equal; lia | reflexivity].
      * exists (S i). split; [f_equal; lia | exact Hi].
    + intros ([|i] & -> & Hi).
      * left. simpl in Hi. subst b. left. f_equal. lia.
      * right. exists i. split; [f_equal; lia | exact Hi].
Qed.

Lemma nonzero_from_increasing (m : list bool) (s : nat) :
  Spec.increasing (Utils.nonzero_from s m).
Proof.
  revert s. induction m as [|b m IH]; intro s; cbn [Utils.nonzero_from].
  - exact I.
  - destruct b; cbn [app]; [|apply IH]. split; [|apply IH].
    apply Forall_forall. intros k Hk. apply nonzero_from_spec in Hk.
    destruct Hk as (i & -> & _). lia.
Qed.

Lemma logical_and_same_length (a b : list bool) :
  length a = length b ->
  Utils.logical_and a b = Ok (map (fun p => fst p && snd p) (combine a b)).
Proof.
  intro H. unfold Utils.logical_and. rewrite H, Nat.eqb_refl. reflexivity.
Qed.

Lemma nth_and (a b : list bool) (i : nat) :
  nth i (map (fun p => fst p && snd p) (combine a b)) false
  = nth i a false && nth i b false.
Proof.
  revert b i. induction a as [|x a IH]; intros [|y b] [|i]; simpl;
    try reflexivity; try (symmetry; apply andb_false_r).
  apply IH.
Qed.

Lemma nth_isin (labels clusters : list Z) (i : nat) :
  nth i (Utils.isin labels clusters) false = true
  <-> (i < length labels)%nat /\ In (nth i labels 0%Z) clusters.
Proof.
  unfold Utils.isin. destruct (Nat.lt_ge_cases i (length labels)) as [Hi|Hi].
  - rewrite (nth_map_lt _ labels 0%Z false Hi). rewrite existsb_exists. split.
    + intros (c & Hc & E). apply Z.eqb_eq in E. subst c. auto.
    + intros [_ H]. exists (nth i labels 0%Z). split; [exact H | apply Z.eqb_refl].
  - rewrite nth_overflow by (rewrite length_map; exact Hi).
    split; [discriminate | intros [H _]; lia].
Qed.

Lemma nth_astype_bool (c : list Q) (i : nat) :
  nth i (Utils.astype_bool c) false = true
  <-> (i < length c)%nat /\ ~ (nth i c 0 == 0)%Q.
Proof.
  unfold Utils.astype_bool. destruct (Nat.lt_ge_cases i (length c)) as [Hi|Hi].
  - rewrite (nth_map_lt _ c 0%Q false Hi). rewrite negb_true_iff.
    split.
    + intro E. split; [exact Hi|]. intro H. apply Qeq_bool_iff in H. congruence.
    + intros [_ H]. destruct (Qeq_bool (nth i c 0) 0) eqn:E; [|reflexivity].
      apply Qeq_bool_iff in E. contradiction.
  - rewrite nth_overflow by (rewrite length_map; exact Hi).
    split; [discriminate | intros [H _]; lia].
Qed.

Lemma nth_invert_astype_bool (c : list Q) (i : nat) :
  nth i (Utils.invert (Utils.astype_bool c)) false = true
  <-> (i < length c)%nat /\ (nth i c 0 == 0)%Q.
Proof.
  unfold Utils.invert, Utils.astype_bool. rewrite map_map.
  destruct (Nat.lt_ge_cases i (length c)) as [Hi|Hi].
  - rewrite (nth_map_lt _ c 0%Q false Hi). rewrite negb_involutive.
    rewrite Qeq_bool_iff. tauto.
  - rewrite nth_overflow by (rewrite length_map; exact Hi).
    split; [discriminate | intros [H _]; lia].
Qed.

Lemma nth_column (M : ndarray2 Q) (j i : nat) :
  nth i (map (fun r => nth j r 0%Q) (rows M)) 0%Q = nth j (nth i (rows M) []) 0%Q.
Proof.
  assert (E : nth j (@nil Q) 0%Q = 0%Q) by (destruct j; reflexivity).
  pose proof (map_nth (fun r => nth j r 0%Q) (rows M) [] i) as H.
  cbv beta in H. rewrite E in H. exact H.
Qed.

(** The positions of a cluster mask [and] a label mask. *)
Lemma group_positions (labels_ clusters : list Z) (M : ndarray2 Q) (j : nat)
    (active : bool) :
  length labels_ = nrows M ->
  let c := map (fun r => nth j r 0%Q) (rows M) in
  let pos := Utils.astype_bool c in
  let m := if active then pos else Utils.invert pos in
  exists l : list Z,
    (m' <- Utils.logical_and (Utils.isin labels_ clusters) m ;; Ok (Utils.nonzero m'))
    = Ok l
    /\ (forall k, In k l <-> Spec.picks labels_ M j clusters active k)
    /\ Spec.increasing l
    /\ Forall (fun k => (0 <= k < Z.of_nat (nrows M))%Z) l.
Proof.
  intros Hlen c pos m.
  assert (Lc : length c = nrows M) by (unfold c, nrows; apply length_map).
  assert (Lm : length m = length labels_).
  { unfold m, pos, Utils.invert, Utils.astype_bool. destruct active;
      rewrite ?length_map; lia. }
  rewrite logical_and_same_length
    by (unfold Utils.isin; rewrite length_map; symmetry; exact Lm).
  cbn [Py.bind]. eexists. split; [reflexivity|].
  assert (Char : forall k,
             In k (Utils.nonzero
                     (map (fun p => fst p && snd p)
                        (combine (Utils.isin labels_ clusters) m)))
             <-> Spec.picks labels_ M j clusters active k).
  { intro k. unfold Utils.nonzero. rewrite nonzero_from_spec. unfold Spec.picks.
    split.
    - intros (i & -> & Hi). rewrite nth_and in Hi. apply andb_true_iff in Hi.
      destruct Hi as [H1 H2]. apply nth_isin in H1. destruct H1 as [Hi Hin].
      exists i. split; [reflexivity|]. split; [exact Hi|]. split; [exact Hin|].
      unfold m, pos in H2. destruct active.
      + apply nth_astype_bool in H2. unfold c in H2. rewrite nth_column in H2.
        tauto.
      + apply nth_invert_astype_bool in H2. unfold c in H2.
        rewrite nth_column in H2. tauto.
    - intros (i & -> & Hi & Hin & Hv). exists i. split; [reflexivity|].
      rewrite nth_and. apply andb_true_iff. split; [apply nth_isin; auto|].
      unfold m, pos. destruct active.
      + apply nth_astype_bool. unfold c at 2. rewrite nth_column.
        split; [lia | exact Hv].
      + apply nth_invert_astype_bool. unfold c at 2. rewrite nth_column.
        split; [lia | exact Hv]. }
  split; [exact Char|]. split; [apply nonzero_from_increasing|].
  apply Forall_forall. intros k Hk. apply Char in Hk.
  destruct Hk as (i & -> & Hi & _). lia.
Qed.

(** With one cluster label per row of the 2-D label matrix and a valid
    column index, [get_four_matrices] returns four lists of row
    positions, each in increasing order: a position is among the test
    (train) actives exactly when its cluster is a test (train) cluster and
    its label is non-zero, among the test (train) inactives exactly when
    its cluster is a test (train) cluster and its label is zero. *)
Theorem get_four_matrices_spec (M : ndarray2 Q) (idx : Z) (j : nat)
    (labels_ test_clusters train_clusters : list Z) :
  length labels_ = nrows M ->
  index (ncols M) idx = Ok j ->
  exists actives_test actives_train inactives_test inactives_train : list Z,
    Utils.get_four_matrices (Utils.Arr2 M) idx labels_ test_clusters train_clusters
    = Ok (actives_test, actives_train, inactives_test, inactives_train)
    /\ (forall k, In k actives_test
                  <-> Spec.picks labels_ M j test_clusters true k)
    /\ (forall k, In k actives_train
                  <-> Spec.picks labels_ M j train_clusters true k)
    /\ (forall k, In k inactives_test
                  <-> Spec.picks labels_ M j test_clusters false k)
    /\ (forall k, In k inactives_train
                  <-> Spec.picks labels_ M j train_clusters false k)
    /\ Spec.increasing actives_test /\ Spec.increasing actives_train
    /\ Spec.increasing inactives_test /\ Spec.increasing inactives_train.
Proof.
  intros Hlen Hj.
  unfold Utils.get_four_matrices, Utils._split_indices, Utils.column.
  rewrite Hj. cbn [Py.bind].
  destruct (@group_positions labels_ test_clusters M j true Hlen)
    as (l1 & E1 & C1 & I1 & _).
  destruct (@group_positions labels_ train_clusters M j true Hlen)
    as (l2 & E2 & C2 & I2 & _).
  destruct (@group_positions labels_ test_clusters M j false Hlen)
    as (l3 & E3 & C3 & I3 & _).
  destruct (@group_positions labels_ train_clusters M j false Hlen)
    as (l4 & E4 & C4 & I4 & _).
  cbv zeta in E1, E2, E3, E4.
  rewrite E1. cbn [Py.bind]. rewrite E2. cbn [Py.bind].
  rewrite E3. cbn [Py.bind]. rewrite E4. cbn [Py.bind].
  exists l1, l2, l3, l4. tauto.
Qed.

(** Four samples in clusters 0, 0, 1 and 1, the first and third active
    for target 0; cluster 0 is the test cluster. *)
Lemma get_four_matrices_spec_witness :
  let M := Array2 2 [[1; 0]; [0; 1]; [1; 1]; [0; 0]]%Q in
  let labels_ := [0; 0; 1; 1]%Z in
  exists actives_test actives_train inactives_test inactives_train : list Z,
    Utils.get_four_matrices (Utils.Arr2 M) (-2) labels_ [0]%Z [1]%Z
    = Ok (actives_test, actives_train, inactives_test, inactives_train)
    /\ (forall k, In k actives_test <-> Spec.picks labels_ M 0 [0]%Z true k)
    /\ (forall k, In k actives_train <-> Spec.picks labels_ M 0 [1]%Z true k)
    /\ (forall k, In k inactives_test <-> Spec.picks labels_ M 0 [0]%Z false k)
    /\ (forall k, In k inactives_train <-> Spec.picks labels_ M 0 [1]%Z false k)
    /\ Spec.increasing actives_test /\ Spec.increasing actives_train
    /\ Spec.increasing inactives_test /\ Spec.increasing inactives_train.
Proof.
  intros M labels_.
  apply (@get_four_matrices_spec M (-2)%Z 0%nat labels_ [0]%Z [1]%Z); reflexivity.
Defined.

Lemma calc_AVE_quick_valid (dmat : ndarray2 Q)
    (actives_train actives_test inactives_train inactives_test : list Z) :
  Spec.valid_indices (nrows dmat) actives_test ->
  Spec.valid_indices (nrows dmat) inactives_test ->
  Spec.valid_indices (ncols dmat) actives_train ->
  Spec.valid_indices (ncols dmat) inactives_train ->
  (actives_train <> [] /\ inactives_train <> []
   /\ exists v, Utils.calc_AVE_quick dmat actives_train actives_test
                  inactives_train inactives_test = Ok v)
  \/ ((actives_train = [] \/ inactives_train = [])
      /\ Utils.calc_AVE_quick dmat actives_train actives_test
           inactives_train inactives_test = Raise ValueError).
Proof.
  intros Hate Hite Hat Hit.
  destruct (mapM_index_valid Hite) as (ri & Eri & _).
  destruct (mapM_index_valid Hate) as (ra & Era & _).
  destruct (mapM_index_valid Hit) as (ci & Eci & _).
  destruct (mapM_index_valid Hat) as (ca & Eca & _).
  unfold Utils.calc_AVE_quick, take_rows, take_cols.
  rewrite Eri, Era. cbn [Py.bind ncols rows]. rewrite Eci, Eca. cbn [Py.bind].
  unfold min_axis1. cbn [ncols rows].
  destruct inactives_train as [|k1 it].
  - right. split; [right; reflexivity | reflexivity].
  - destruct actives_train as [|k2 at_].
    + right. split; [left; reflexivity | reflexivity].
    + left. split; [discriminate|]. split; [discriminate|].
      cbn [length Nat.eqb Py.bind]. eexists. reflexivity.
Qed.

(** The four index lists of [get_four_matrices] can be passed to
    [calc_AVE_quick] with any distance matrix that has a row and a column
    per sample: no index is out of range, and the bias is returned unless
    the train actives or the train inactives are empty, in which case
    [calc_AVE_quick] raises [ValueError]. *)
Theorem get_four_matrices_feed_AVE (M dmat : ndarray2 Q) (idx : Z)
    (labels_ test_clusters train_clusters : list Z)
    (actives_test actives_train inactives_test inactives_train : list Z) :
  length labels_ = nrows M ->
  nrows dmat = nrows M -> ncols dmat = nrows M ->
  Utils.get_four_matrices (Utils.Arr2 M) idx labels_ test_clusters train_clusters
  = Ok (actives_test, actives_train, inactives_test, inactives_train) ->
  (actives_train <> [] /\ inactives_train <> []
   /\ exists v, Utils.calc_AVE_quick dmat actives_train actives_test
                  inactives_train inactives_test = Ok v)
  \/ ((actives_train = [] \/ inactives_train = [])
      /\ Utils.calc_AVE_quick dmat actives_train actives_test
           inactives_train inactives_test = Raise ValueError).
Proof.
  intros Hlen Hr Hc.
  unfold Utils.get_four_matrices, Utils._split_indices, Utils.column.
  destruct (index (ncols M) idx) as [j|e]; [|discriminate]. cbn [Py.bind].
  destruct (@group_positions labels_ test_clusters M j true Hlen)
    as (l1 & E1 & _ & _ & V1).
  destruct (@group_positions labels_ train_clusters M j true Hlen)
    as (l2 & E2 & _ & _ & V2).
  destruct (@group_positions labels_ test_clusters M j false Hlen)
    as (l3 & E3 & _ & _ & V3).
  destruct (@group_positions labels_ train_clusters M j false Hlen)
    as (l4 & E4 & _ & _ & V4).
  cbv zeta in E1, E2, E3, E4.
  rewrite E1. cbn [Py.bind]. rewrite E2. cbn [Py.bind].
  rewrite E3. cbn [Py.bind]. rewrite E4. cbn [Py.bind].
  intro E. injection E as <- <- <- <-.
  assert (V : forall l,
             Forall (fun k => (0 <= k < Z.of_nat (nrows M))%Z) l ->
             Spec.valid_indices (nrows M) l).
  { intros l H. unfold Spec.valid_indices. eapply Forall_impl; [|exact H].
    cbv beta. intros k Hk. lia. }
  apply calc_AVE_quick_valid; rewrite ?Hr, ?Hc; apply V; assumption.
Qed.

(** Four samples in clusters 0, 0, 1 and 1, cluster 0 for the test set. *)
Lemma get_four_matrices_feed_AVE_witness :
  let M := Array2 1 [[1]; [0]; [1]; [0]]%Q in
  let dmat := Array2 4 [[0; 1 # 4; 3 # 4; 1]; [1 # 4; 0; 1 # 2; 3 # 4];
                        [3 # 4; 1 # 2; 0; 1 # 3]; [1; 3 # 4; 1 # 3; 0]]%Q in
  ([2]%Z <> [] /\ [3]%Z <> []
   /\ exists v, Utils.calc_AVE_quick dmat [2]%Z [0]%Z [3]%Z [1]%Z = Ok v)
  \/ (([2]%Z = [] \/ [3]%Z = [])
      /\ Utils.calc_AVE_quick dmat [2]%Z [0]%Z [3]%Z [1]%Z = Raise ValueError).
Proof.
  intros M dmat.
  apply (@get_four_matrices_feed_AVE M dmat 0%Z [0; 0; 1; 1]%Z [0]%Z [1]%Z
           [0]%Z [2]%Z [1]%Z [3]%Z); reflexivity.
Defined.

(** ** Trimming the train set: [trim] *)

Lemma mapM_nth {A B : Type} (f : A -> outcome B) (l : list A) (bs : list B)
    (d : A) (d' : B) (p : nat) :
  mapM f l = Ok bs -> (p < length l)%nat -> f (nth p l d) = Ok (nth p bs d').
Proof.
  revert bs p. induction l as [|a l IH]; intros bs p E Hp; simpl in *; [lia|].
  destruct (f a) as [b|e] eqn:Ea; simpl in E; [|discriminate].
  destruct (mapM f l) as [bs'|e] eqn:El; simpl in E; [|discriminate].
  injection E as <-. destruct p as [|p]; [exact Ea|].
  simpl. apply IH; [reflexivity | lia].
Qed.

Lemma map_by_position {A B : Type} (h : A -> B) (d : A) (l : list A) :
  map h l = map (fun p => h (nth p l d)) (seq 0 (length l)).
Proof.
  induction l as [|a l IH]; simpl; [reflexivity|].
  f_equal. rewrite <- seq_shift, map_map. exact IH.
Qed.

(** The minima [trim] sorts: one per train index, the smallest entry of
    its column over all rows of [dmat]. *)
Lemma trim_minima (dmat : ndarray2 Q) (train_indices : list Z) :
  (0 < nrows dmat)%nat ->
  Spec.valid_indices (ncols dmat) train_indices ->
  (M <- take_cols 0%Q dmat train_indices ;; Utils.min_axis0 M)
  = Ok (map (Spec.column_min dmat) train_indices).
Proof.
  intros Hrows Hvalid.
  destruct (mapM_index_valid Hvalid) as (js & Ejs & _).
  assert (Ljs := mapM_length _ _ Ejs).
  unfold take_cols. rewrite Ejs. cbn [Py.bind]. unfold Utils.min_axis0.
  unfold nrows at 1. cbn [rows ncols]. rewrite length_map.
  destruct (Nat.eqb_spec (length (rows dmat)) 0) as [E|_];
    [unfold nrows in Hrows; lia|].
  f_equal. rewrite (map_by_position (Spec.column_min dmat) 0%Z train_indices).
  apply map_ext_in. intros p Hp. apply in_seq in Hp.
  unfold Spec.column_min.
  rewrite (mapM_nth (index (ncols dmat)) train_indices 0%Z 0%nat Ejs) by lia.
  f_equal. rewrite map_map. apply map_ext. intro r.
  apply (nth_map_lt (fun j => nth j r 0%Q) js 0%nat 0%Q). lia.
Qed.

Lemma take_positions (a idx : list Z) :
  Forall (fun p => (0 <= p < Z.of_nat (length a))%Z) idx ->
  Utils.take a idx = Ok (map (fun p => nth (Z.to_nat p) a 0%Z) idx).
Proof.
  unfold Utils.take. induction 1 as [|p idx Hp _ IH]; [reflexivity|].
  cbn [mapM map]. rewrite IH. unfold index at 1.
  destruct (Z.leb_spec 0 p); [|lia].
  destruct (Z.ltb_spec p (Z.of_nat (length a))); [|lia].
  reflexivity.
Qed.

Lemma int_nonneg (x : Q) : (0 <= x)%Q -> (0 <= int x)%Z.
Proof.
  intro H. unfold int. destruct x as [a b]. unfold Qle in H.
  cbn [Qnum Qden] in *. rewrite Z.mul_1_r in H.
  rewrite Z.quot_div_nonneg by lia. apply Z.div_pos; lia.
Qed.

Lemma int_scale_nonneg (n : nat) (f : Q) :
  (0 <= f)%Q -> (0 <= int (Utils.scale n f))%Z.
Proof.
  intro H. apply int_nonneg. unfold Utils.scale, Utils.times.
  apply float64_nonneg. apply Qmult_le_0_compat; [|exact H].
  apply float64_nonneg. rewrite <- (Zle_Qle 0). lia.
Qed.

(** The minimum [trim] takes of a column is a smallest entry of it. *)
Lemma column_min_is_min (dmat : ndarray2 Q) (k : Z) :
  (0 < nrows dmat)%nat ->
  (- Z.of_nat (ncols dmat) <= k < Z.of_nat (ncols dmat))%Z ->
  Spec.is_min (Spec.column dmat k) (Spec.column_min dmat k).
Proof.
  intros Hrows Hk. unfold Spec.column, Spec.column_min.
  destruct (@index_valid _ _ Hk) as (j & -> & _).
  apply row_min_is_min. unfold nrows in Hrows.
  destruct (rows dmat); [simpl in Hrows; lia | discriminate].
Qed.

Lemma column_minima (dmat : ndarray2 Q) (train_indices : list Z) :
  (0 < nrows dmat)%nat ->
  Spec.valid_indices (ncols dmat) train_indices ->
  Forall2 (fun k m => Spec.is_min (Spec.column dmat k) m) train_indices
    (map (Spec.column_min dmat) train_indices).
Proof.
  intros Hrows Hvalid. unfold Spec.valid_indices in Hvalid.
  induction Hvalid as [|k l Hk _ IH]; simpl; constructor; [|exact IH].
  apply column_min_is_min; assumption.
Qed.

Lemma ascending_app (l1 l2 : list Q) (x y : Q) :
  Spec.ascending (l1 ++ l2) -> In x l1 -> In y l2 -> (x <= y)%Q.
Proof.
  induction l1 as [|a l1 IH]; simpl; [tauto|].
  intros [Ha Hs] [<-|Hx] Hy.
  - rewrite Forall_forall in Ha. apply Ha. apply in_or_app. right. exact Hy.
  - apply IH; assumption.
Qed.

Section TrimFacts.

Variable argsort : list Q -> list Z.

(** With at least one row in [dmat], valid train indices and a fraction
    that is not negative, and [argsort] putting the positions of the
    column minima in non-decreasing order of their minima, [trim]
    returns: it drops [int(len(train_indices) * fraction_to_trim)] of the
    train indices, the product being the float64 one, or all of them when
    there are fewer, and keeps the others; and no kept index has a column
    whose smallest entry, over all rows of [dmat], is below that of the
    column of a dropped index. *)
Theorem trim_drops_smallest (dmat : ndarray2 Q) (train_indices test_indices : list Z)
    (fraction_to_trim : Q) :
  (0 < nrows dmat)%nat ->
  Spec.valid_indices (ncols dmat) train_indices ->
  (0 <= fraction_to_trim)%Q ->
  (forall mins : list Q,
     Forall2 (fun k m => Spec.is_min (Spec.column dmat k) m) train_indices mins ->
     Permutation (argsort mins) (map Z.of_nat (seq 0 (length train_indices)))
     /\ Spec.ascending (map (fun p => nth (Z.to_nat p) mins 0%Q) (argsort mins))) ->
  exists kept dropped : list Z,
    Utils.trim argsort dmat train_indices test_indices fraction_to_trim = Ok kept
    /\ Permutation (dropped ++ kept) train_indices
    /\ length dropped
       = Nat.min (length train_indices)
           (Z.to_nat (int (Utils.scale (length train_indices) fraction_to_trim)))
    /\ forall (d k : Z) (d_min k_min : Q),
         In d dropped -> In k kept ->
         Spec.is_min (Spec.column dmat d) d_min ->
         Spec.is_min (Spec.column dmat k) k_min ->
         (d_min <= k_min)%Q.
Proof.
  intros Hrows Hvalid Hf0 Hsort.
  set (mins := map (Spec.column_min dmat) train_indices).
  assert (Hmins := @column_minima dmat train_indices Hrows Hvalid). fold mins in Hmins.
  destruct (Hsort mins Hmins) as [Hperm Hsorted].
  set (order := argsort mins) in *.
  set (n := length train_indices) in *.
  set (num := int (Utils.scale n fraction_to_trim)).
  assert (Hnum := @int_scale_nonneg n fraction_to_trim Hf0). fold num in Hnum.
  assert (Lorder : length order = n).
  { rewrite (Permutation_length Hperm), length_map, length_seq. reflexivity. }
  assert (Hpos : Forall (fun p => (0 <= p < Z.of_nat n)%Z) order).
  { apply Forall_forall. intros p Hp.
    apply (Permutation_in _ Hperm) in Hp. apply in_map_iff in Hp.
    destruct Hp as (i & <- & Hi). apply in_seq in Hi. lia. }
  set (cut := Nat.min n (Z.to_nat num)).
  assert (Hb : slice_bound (length order) num = cut).
  { unfold slice_bound, cut. rewrite Lorder.
    destruct (Z.ltb_spec num 0); [lia | reflexivity]. }
  set (at_ := fun p : Z => nth (Z.to_nat p) train_indices 0%Z).
  assert (Hat : forall p, (0 <= p < Z.of_nat n)%Z ->
                          (- Z.of_nat (ncols dmat) <= at_ p < Z.of_nat (ncols dmat))%Z).
  { intros p Hp. unfold Spec.valid_indices in Hvalid.
    rewrite Forall_forall in Hvalid. apply Hvalid. unfold at_.
    apply nth_In. fold n. lia. }
  exists (map at_ (skipn cut order)), (map at_ (firstn cut order)).
  split.
  - unfold Utils.trim. fold n. fold num.
    change (Py.bind (take_cols 0%Q dmat train_indices)
              (fun M => Py.bind (Utils.min_axis0 M)
                 (fun mins0 => Utils.take train_indices
                                 (slice_from (argsort mins0) num)))
            = Ok (map at_ (skipn cut order))).
    assert (E := @trim_minima dmat train_indices Hrows Hvalid). fold mins in E.
    destruct (take_cols 0%Q dmat train_indices) as [M|e]; cbn [Py.bind] in E |- *;
      [|discriminate].
    rewrite E. cbn [Py.bind]. fold order. unfold slice_from. rewrite Hb.
    apply take_positions. fold n.
    apply Forall_forall. intros p Hp. apply skipn_In in Hp.
    rewrite Forall_forall in Hpos. apply Hpos. exact Hp.
  - split; [|split].
    + rewrite <- map_app, firstn_skipn.
      apply (Permutation_map at_) in Hperm.
      eapply Permutation_trans; [exact Hperm|].
      rewrite map_map. unfold at_, n.
      rewrite (map_ext (fun x => nth (Z.to_nat (Z.of_nat x)) train_indices 0%Z)
                 (fun x => nth x train_indices 0%Z))
        by (intro x; rewrite Nat2Z.id; reflexivity).
      rewrite <- (map_by_position (fun x => x) 0%Z train_indices), map_id.
      apply Permutation_refl.
    + rewrite length_map, length_firstn, Lorder. unfold cut. lia.
    + intros d k d_min k_min Hd Hk Hdm Hkm.
      apply in_map_iff in Hd. destruct Hd as (p & <- & Hp).
      apply in_map_iff in Hk. destruct Hk as (q & <- & Hq).
      assert (Hp' : (0 <= p < Z.of_nat n)%Z).
      { rewrite Forall_forall in Hpos. apply Hpos. eapply firstn_In. exact Hp. }
      assert (Hq' : (0 <= q < Z.of_nat n)%Z).
      { rewrite Forall_forall in Hpos. apply Hpos. eapply skipn_In. exact Hq. }
      rewrite <- (firstn_skipn cut order), map_app in Hsorted.
      assert (G : forall r, (0 <= r < Z.of_nat n)%Z ->
                            nth (Z.to_nat r) mins 0%Q = Spec.column_min dmat (at_ r)).
      { intros r Hr. unfold mins, at_.
        apply (nth_map_lt (Spec.column_min dmat) train_indices 0%Z 0%Q).
        fold n. lia. }
      rewrite (is_min_unique Hdm (@column_min_is_min dmat (at_ p) Hrows (Hat p Hp'))).
      rewrite (is_min_unique Hkm (@column_min_is_min dmat (at_ q) Hrows (Hat q Hq'))).
      rewrite <- (G p Hp'), <- (G q Hq').
      apply (@ascending_app _ _ _ _ Hsorted).
      * apply (in_map (fun r => nth (Z.to_nat r) mins 0%Q)). exact Hp.
      * apply (in_map (fun r => nth (Z.to_nat r) mins 0%Q)). exact Hq.
Qed.

(** When no entry of [dmat] is negative and each column holds a zero on
    the diagonal, as in a matrix of distances of the samples to
    themselves, every column minimum is zero: what [trim] returns is then
    decided by how [argsort] orders equal keys, whatever the other
    distances are. *)
Theorem trim_self_distance (dmat : ndarray2 Q) (train_indices test_indices : list Z)
    (fraction_to_trim : Q) :
  (0 < nrows dmat)%nat -> ncols dmat = nrows dmat ->
  Forall (Forall (fun v => (0 <= v)%Q)) (rows dmat) ->
  (forall i, (i < nrows dmat)%nat -> (nth i (nth i (rows dmat) []) 0 == 0)%Q) ->
  Spec.valid_indices (ncols dmat) train_indices ->
  Forall (fun k => (Spec.column_min dmat k == 0)%Q) train_indices
  /\ Utils.trim argsort dmat train_indices test_indices fraction_to_trim
     = Utils.take train_indices
         (slice_from (argsort (map (Spec.column_min dmat) train_indices))
            (int (Utils.scale (length train_indices) fraction_to_trim))).
Proof.
  intros Hrows Hsq Hnn Hdiag Hvalid. split.
  - unfold Spec.valid_indices in Hvalid. eapply Forall_impl; [|exact Hvalid].
    cbv beta. intros k Hk. unfold Spec.column_min.
    destruct (@index_valid _ _ Hk) as (j & -> & Hj). cbv iota beta.
    set (c := map (fun r => nth j r 0%Q) (rows dmat)).
    assert (Hc : c <> []).
    { unfold c, nrows in *. destruct (rows dmat); simpl in *; [lia | discriminate]. }
    destruct (row_min_is_min Hc) as [Hin Hle].
    apply Qle_antisym.
    + rewrite <- (Hdiag j) by lia. apply Hle. unfold c.
      apply in_map_iff. exists (nth j (rows dmat) []). split; [reflexivity|].
      apply nth_In. unfold nrows in Hsq. lia.
    + unfold c in Hin |- *. apply in_map_iff in Hin.
      destruct Hin as (r & <- & Hr).
      apply nth_nonneg. rewrite Forall_forall in Hnn. apply Hnn. exact Hr.
  - unfold Utils.trim.
    change (Py.bind (take_cols 0%Q dmat train_indices)
              (fun M => Py.bind (Utils.min_axis0 M)
                 (fun mins0 => Utils.take train_indices
                                 (slice_from (argsort mins0)
                                    (int (Utils.scale (length train_indices)
                                            fraction_to_trim)))))
            = Utils.take train_indices
                (slice_from (argsort (map (Spec.column_min dmat) train_indices))
                   (int (Utils.scale (length train_indices) fraction_to_trim)))).
    assert (E := @trim_minima dmat train_indices Hrows Hvalid).
    destruct (take_cols 0%Q dmat train_indices) as [M|e]; cbn [Py.bind] in E |- *;
      [|discriminate].
    rewrite E. reflexivity.
Qed.

End TrimFacts.

Lemma second_first_third (dmat : ndarray2 Q) (mins : list Q) :
  dmat = Array2 3 [[1 # 2; 1 # 8; 1]; [5 # 8; 1 # 4; 3 # 4]]%Q ->
  Forall2 (fun k m => Spec.is_min (Spec.column dmat k) m) [0; 1; 2]%Z mins ->
  Permutation [1; 0; 2]%Z (map Z.of_nat (seq 0 (length [0; 1; 2]%Z)))
  /\ Spec.ascending (map (fun p => nth (Z.to_nat p) mins 0%Q) [1; 0; 2]%Z).
Proof.
  intros -> H. split; [apply perm_swap|].
  inversion H as [|? m0 ? ms0 [I0 _] H0]; subst.
  inversion H0 as [|? m1 ? ms1 [I1 _] H1]; subst.
  inversion H1 as [|? m2 ? ms2 [I2 _] H2]; subst.
  inversion H2; subst.
  cbn in I0, I1, I2.
  destruct I0 as [<-|[<-|[]]]; destruct I1 as [<-|[<-|[]]];
    destruct I2 as [<-|[<-|[]]];
    cbn; repeat split; repeat constructor; discriminate.
Qed.

(** Two test rows against three train columns with minima 1/2, 1/8 and
    3/4, and the float64 nearest to a third as the fraction to trim: the
    float64 product with 3 is 1.0, so one index goes, index 1. *)
Lemma trim_drops_smallest_witness :
  let dmat := Array2 3 [[1 # 2; 1 # 8; 1]; [5 # 8; 1 # 4; 3 # 4]]%Q in
  let third := (6004799503160661 # 18014398509481984)%Q in
  (exists kept dropped : list Z,
     Utils.trim (fun _ => [1; 0; 2]%Z) dmat [0; 1; 2]%Z [] third = Ok kept
     /\ Permutation (dropped ++ kept) [0; 1; 2]%Z
     /\ length dropped
        = Nat.min (length [0; 1; 2]%Z)
            (Z.to_nat (int (Utils.scale (length [0; 1; 2]%Z) third)))
     /\ forall (d k : Z) (d_min k_min : Q),
          In d dropped -> In k kept ->
          Spec.is_min (Spec.column dmat d) d_min ->
          Spec.is_min (Spec.column dmat k) k_min ->
          (d_min <= k_min)%Q)
  /\ Utils.trim (fun _ => [1; 0; 2]%Z) dmat [0; 1; 2]%Z [] third = Ok [0; 2]%Z
  /\ int (Utils.scale (length [0; 1; 2]%Z) third) = 1%Z.
Proof.
  intros dmat third. split; [|split; vm_compute; reflexivity].
  apply (@trim_drops_smallest (fun _ => [1; 0; 2]%Z) dmat [0; 1; 2]%Z [] third).
  - unfold nrows. simpl. lia.
  - repeat constructor; simpl; lia.
  - discriminate.
  - intros mins H. apply (@second_first_third dmat mins eq_refl H).
Defined.

(** The distances of three samples to themselves. *)
Lemma trim_self_distance_witness :
  let dmat := Array2 3 [[0; 1 # 4; 3 # 4]; [1 # 4; 0; 1 # 2]; [3 # 4; 1 # 2; 0]]%Q in
  Forall (fun k => (Spec.column_min dmat k == 0)%Q) [0; 2]%Z
  /\ Utils.trim (fun _ => [1; 0]%Z) dmat [0; 2]%Z [1]%Z (1 # 2)
     = Utils.take [0; 2]%Z
         (slice_from ((fun _ : list Q => [1; 0]%Z)
                        (map (Spec.column_min dmat) [0; 2]%Z))
            (int (Utils.scale (length [0; 2]%Z) (1 # 2)))).
Proof.
  intro dmat.
  apply (@trim_self_distance (fun _ => [1; 0]%Z) dmat [0; 2]%Z [1]%Z (1 # 2)).
  - unfold nrows. simpl. lia.
  - reflexivity.
  - repeat constructor; discriminate.
  - intros [|[|[|i]]] Hi; try reflexivity. unfold nrows in Hi. simpl in Hi. lia.
  - repeat constructor; simpl; lia.
Defined.

(** ** Distance zero *)







(** ** The four distance matrices: [calc_distance_matrices] *)

Lemma table_is_distance_table (g : list Z -> list Z -> npfloat) (X Y : ndarray2 Z) :
  (forall x y, Spec.binary x -> Spec.binary y ->
     g x y = NaN \/ exists q : Q, g x y = Num q /\ (0 <= q)%Q /\ (q <= 1)%Q) ->
  Spec.distance_table
    (Array2 (nrows (Utils.binarize Y))
       (map (fun x => map (g x) (rows (Utils.binarize Y))) (rows (Utils.binarize X))))
    X Y.
Proof.
  intro Hg.
  assert (LX : length (rows (Utils.binarize X)) = nrows X)
    by (unfold Utils.binarize, nrows; simpl; apply length_map).
  assert (LY : length (rows (Utils.binarize Y)) = nrows Y)
    by (unfold Utils.binarize, nrows; simpl; apply length_map).
  unfold Spec.distance_table. split; [|split; [|split]].
  - unfold nrows at 1. cbn [rows]. rewrite length_map. exact LX.
  - cbn [ncols]. exact LY.
  - unfold rectangular. cbn [rows ncols]. apply Forall_forall. intros r Hr.
    apply in_map_iff in Hr. destruct Hr as (x & <- & _).
    rewrite length_map. reflexivity.
  - intros i j Hi Hj.
    rewrite entry_table by (rewrite ?LX, ?LY; assumption).
    rewrite !binarize_row. apply Hg; apply binarize_binary.
Qed.

Lemma distance_function_table (metric : Utils.metric) (X Y : ndarray2 Z) :
  ncols X = ncols Y ->
  exists T : ndarray2 npfloat,
    match metric with
    | Utils.Jaccard => Utils.fast_jaccard X (Some Y) = Ok T
    | Utils.Dice => Utils.fast_dice X (Some Y) = Ok T
    | Utils.OtherMetric => True
    end
    /\ Spec.distance_table T X Y.
Proof.
  intro H. destruct metric.
  - rewrite (@fast_jaccard_table X Y H). eexists. split; [reflexivity|].
    apply table_is_distance_table. intros x y Hx Hy.
    destruct (row_distances Hx Hy) as [(_ & _ & E & _)|(_ & a & b & E & _ & B)].
    + left. exact E.
    + right. exists a. split; [exact E|]. split; lra.
  - rewrite (@fast_dice_table X Y H). eexists. split; [reflexivity|].
    apply table_is_distance_table. intros x y Hx Hy.
    destruct (row_distances Hx Hy) as [(_ & _ & _ & E)|(_ & a & b & _ & E & B)].
    + left. exact E.
    + right. exists b. split; [exact E|]. split; lra.
  - exists (Array2 (nrows (Utils.binarize Y))
              (map (fun x => map (Spec.jaccard_rows x) (rows (Utils.binarize Y)))
                 (rows (Utils.binarize X)))).
    split; [exact I|].
    apply table_is_distance_table. intros x y Hx Hy.
    destruct (row_distances Hx Hy) as [(_ & _ & E & _)|(_ & a & b & E & _ & B)].
    + left. exact E.
    + right. exists a. split; [exact E|]. split; lra.
Qed.

(** For the metrics ['jaccard'] and ['dice'], at most 15000 inactive
    train rows and four feature matrices of one width,
    [calc_distance_matrices] returns four matrices in which the rows are
    the test samples and the columns the train samples, every entry being
    NaN or a distance between 0 and 1. *)
Theorem calc_distance_matrices_shapes
    (x_actives_train x_actives_test x_inactives_train x_inactives_test : ndarray2 Z)
    (metric : Utils.metric) :
  metric <> Utils.OtherMetric ->
  (Z.of_nat (nrows x_inactives_train) <= 15000)%Z ->
  ncols x_actives_test = ncols x_actives_train ->
  ncols x_inactives_train = ncols x_actives_train ->
  ncols x_inactives_test = ncols x_actives_train ->
  exists aTest_aTrain_D aTest_iTrain_D iTest_iTrain_D iTest_aTrain_D,
    Utils.calc_distance_matrices
      (x_actives_train, x_actives_test, x_inactives_train, x_inactives_test) metric
    = Utils.Returns (aTest_aTrain_D, aTest_iTrain_D, iTest_iTrain_D, iTest_aTrain_D)
    /\ Spec.distance_table aTest_aTrain_D x_actives_test x_actives_train
    /\ Spec.distance_table aTest_iTrain_D x_actives_test x_inactives_train
    /\ Spec.distance_table iTest_iTrain_D x_inactives_test x_inactives_train
    /\ Spec.distance_table iTest_aTrain_D x_inactives_test x_actives_train.
Proof.
  intros Hm Hn H1 H2 H3.
  assert (C1 : ncols x_actives_test = ncols x_inactives_train) by congruence.
  assert (C2 : ncols x_inactives_test = ncols x_inactives_train) by congruence.
  destruct (@distance_function_table metric x_actives_test x_actives_train H1)
    as (T1 & E1 & D1).
  destruct (@distance_function_table metric x_actives_test x_inactives_train C1)
    as (T2 & E2 & D2).
  destruct (@distance_function_table metric x_inactives_test x_inactives_train C2)
    as (T3 & E3 & D3).
  destruct (@distance_function_table metric x_inactives_test x_actives_train H3)
    as (T4 & E4 & D4).
  exists T1, T2, T3, T4. split; [|tauto].
  unfold Utils.calc_distance_matrices.
  destruct (Z.ltb_spec 15000 (Z.of_nat (nrows x_inactives_train))) as [Hgt|_]; [lia|].
  destruct metric; [| |contradiction];
    rewrite E1; cbn [Py.bind]; rewrite E2; cbn [Py.bind];
    rewrite E3; cbn [Py.bind]; rewrite E4; reflexivity.
Qed.

(** One train active, two test actives, two train inactives and one test
    inactive, three bits wide. *)
Lemma calc_distance_matrices_shapes_witness :
  let a_train := Array2 3 [[1; 0; 1]]%Z in
  let a_test := Array2 3 [[1; 1; 0]; [0; 0; 0]]%Z in
  let i_train := Array2 3 [[0; 1; 0]; [0; 0; 0]]%Z in
  let i_test := Array2 3 [[1; 1; 1]]%Z in
  exists aTest_aTrain_D aTest_iTrain_D iTest_iTrain_D iTest_aTrain_D,
    Utils.calc_distance_matrices (a_train, a_test, i_train, i_test) Utils.Dice
    = Utils.Returns (aTest_aTrain_D, aTest_iTrain_D, iTest_iTrain_D, iTest_aTrain_D)
    /\ Spec.distance_table aTest_aTrain_D a_test a_train
    /\ Spec.distance_table aTest_iTrain_D a_test i_train
    /\ Spec.distance_table iTest_iTrain_D i_test i_train
    /\ Spec.distance_table iTest_aTrain_D i_test a_train.
Proof.
  intros a_train a_test i_train i_test.
  apply (@calc_distance_matrices_shapes a_train a_test i_train i_test Utils.Dice).
  - discriminate.
  - unfold nrows. simpl. lia.
  - reflexivity.
  - reflexivity.
  - reflexivity.
Defined.

(** ** [split_clusters] with a pair of proportions *)

Lemma slice_bound_nonneg (n : nat) (k : Z) :
  (0 <= k <= Z.of_nat n)%Z -> slice_bound n k = Z.to_nat k.
Proof.
  intro H. unfold slice_bound. destruct (Z.ltb_spec k 0); lia.
Qed.

Lemma slice_bound_from_end (n : nat) (k : Z) :
  (1 <= k <= Z.of_nat n)%Z -> slice_bound n (- k) = (n - Z.to_nat k)%nat.
Proof.
  intro H. unfold slice_bound. destruct (Z.ltb_spec (- k) 0); lia.
Qed.

Lemma skipn_later_In {A : Type} (a b : nat) (l : list A) (x : A) :
  (a <= b)%nat -> In x (skipn b l) -> In x (skipn a l).
Proof.
  intros Hab H. replace b with ((b - a) + a)%nat in H by lia.
  rewrite <- skipn_skipn in H. eapply skipn_In. exact H.
Qed.

Section PairFacts.

Variable rng : Type.
Variable np_random_shuffle : rng -> list Z -> rng * list Z.

Hypothesis shuffle_rearranges :
  forall g l, Permutation l (snd (np_random_shuffle g l)).

(** With a pair of proportions, duplicate-free cluster ids that are not
    both positive and negative, a train proportion that rounds to at
    least one cluster and rounded test and train numbers that together do
    not exceed the number of negative clusters, the test and train lists
    share no cluster; they hold the positive clusters and as many negative
    ones as the two rounded numbers say. *)
Theorem split_clusters_pair_disjoint (g : rng) (pos_labels neg_labels : list Z)
    (pos_test_fraction f0 f1 : Q) (shuffle : bool) :
  NoDup (pos_labels ++ neg_labels) ->
  (f0 + f1 <= 1)%Q ->
  (0 <= round (Utils.scale (length neg_labels) f0))%Z ->
  (1 <= round (Utils.scale (length neg_labels) f1))%Z ->
  (round (Utils.scale (length neg_labels) f0)
   + round (Utils.scale (length neg_labels) f1) <= Z.of_nat (length neg_labels))%Z ->
  exists test train : list Z,
    Utils.split_clusters np_random_shuffle g pos_labels neg_labels
      pos_test_fraction (Utils.APair f0 f1) shuffle = Ok (test, train)
    /\ Spec.disjoint test train
    /\ (length test + length train
        = length pos_labels
          + Z.to_nat (round (Utils.scale (length neg_labels) f0))
          + Z.to_nat (round (Utils.scale (length neg_labels) f1)))%nat.
Proof.
  intros Hnd Hsum H0 H1 Hfit.
  destruct (@split_clusters_shuffled rng np_random_shuffle shuffle_rearranges g
              pos_labels neg_labels pos_test_fraction (Utils.APair f0 f1) shuffle)
    as (P & N & HP & HN & E).
  rewrite E. clear E.
  assert (Eq := pair_accepted Hsum).
  rewrite Eq. cbn [Py.bind].
  assert (Hnd' : NoDup (P ++ N)).
  { eapply Permutation_NoDup; [|exact Hnd]. apply Permutation_app; assumption. }
  rewrite (Permutation_length HN) in H0, H1, Hfit.
  rewrite (Permutation_length HP), (Permutation_length HN).
  set (r0 := round (Utils.scale (length N) f0)) in *.
  set (r1 := round (Utils.scale (length N) f1)) in *.
  set (a := slice_bound (length P)
              (Z.max 1 (round (Utils.scale (length P) pos_test_fraction)))).
  unfold slice_to, slice_from. fold a.
  rewrite (@slice_bound_nonneg (length N) r0) by lia.
  rewrite (@slice_bound_from_end (length N) r1) by lia.
  eexists. eexists. split; [reflexivity|]. split.
  - destruct (@cut_partition P N a (Z.to_nat r0) Hnd') as [Hd _].
    intros c Hc Hc'. apply (Hd c Hc).
    apply in_app_or in Hc'. apply in_or_app.
    destruct Hc' as [Hc'|Hc']; [left; exact Hc'|right].
    apply skipn_later_In with (b := (length N - Z.to_nat r1)%nat); [lia | exact Hc'].
  - rewrite !length_app, !length_firstn, !length_skipn. lia.
Qed.

(** With a pair of proportions whose rounded numbers of test and train
    clusters together exceed the number of negative clusters, which
    proportions summing to 1 allow when both round up, some negative
    cluster is in the test list and in the train list. *)
Theorem split_clusters_pair_overlaps (g : rng) (pos_labels neg_labels : list Z)
    (pos_test_fraction f0 f1 : Q) (shuffle : bool) :
  (f0 + f1 <= 1)%Q ->
  (1 <= round (Utils.scale (length neg_labels) f1) <= Z.of_nat (length neg_labels))%Z ->
  (Z.of_nat (length neg_labels)
   < round (Utils.scale (length neg_labels) f0)
     + round (Utils.scale (length neg_labels) f1))%Z ->
  exists test train : list Z,
    Utils.split_clusters np_random_shuffle g pos_labels neg_labels
      pos_test_fraction (Utils.APair f0 f1) shuffle = Ok (test, train)
    /\ exists c, In c neg_labels /\ In c test /\ In c train.
Proof.
  intros Hsum H1 Hover.
  destruct (@split_clusters_shuffled rng np_random_shuffle shuffle_rearranges g
              pos_labels neg_labels pos_test_fraction (Utils.APair f0 f1) shuffle)
    as (P & N & HP & HN & E).
  rewrite E. clear E.
  assert (Eq := pair_accepted Hsum).
  rewrite Eq. cbn [Py.bind].
  rewrite (Permutation_length HN) in H1, Hover.
  set (r0 := round (Utils.scale (length N) f0)) in *.
  set (r1 := round (Utils.scale (length N) f1)) in *.
  unfold slice_to, slice_from.
  rewrite (@slice_bound_from_end (length N) r1) by lia.
  eexists. eexists. split; [reflexivity|].
  set (k := (length N - Z.to_nat r1)%nat).
  assert (Hk : (k < length N)%nat) by (unfold k; lia).
  assert (Hb : (k < slice_bound (length N) r0)%nat).
  { unfold slice_bound, k. destruct (Z.ltb_spec r0 0); lia. }
  exists (nth k N 0%Z). split; [|split].
  - eapply Permutation_in; [apply Permutation_sym; exact HN|].
    apply nth_In. exact Hk.
  - apply in_or_app. right.
    rewrite <- (firstn_skipn (slice_bound (length N) r0) N) at 1.
    rewrite app_nth1 by (rewrite length_firstn; lia).
    apply nth_In. rewrite length_firstn. lia.
  - apply in_or_app. right.
    rewrite <- (firstn_skipn k N) at 1.
    rewrite app_nth2 by (rewrite length_firstn; lia).
    apply nth_In. rewrite length_firstn, length_skipn. lia.
Qed.

End PairFacts.

(** Five negative clusters and the proportion 0.3 for each side, the
    shuffle reversing its list: the float64 product 5 * 0.3 is 1.5 and
    rounds to 2, so two clusters go to each side. *)
Lemma split_clusters_pair_disjoint_witness :
  let f := (5404319552844595 # 18014398509481984)%Q in
  (exists test train : list Z,
     Utils.split_clusters (fun (g : unit) (l : list Z) => (g, rev l)) tt
       [0]%Z [1; 2; 3; 4; 5]%Z (1 # 2) (Utils.APair f f) true
     = Ok (test, train)
     /\ Spec.disjoint test train
     /\ (length test + length train
         = length [0]%Z
           + Z.to_nat (round (Utils.scale (length [1; 2; 3; 4; 5]%Z) f))
           + Z.to_nat (round (Utils.scale (length [1; 2; 3; 4; 5]%Z) f)))%nat)
  /\ round (Utils.scale (length [1; 2; 3; 4; 5]%Z) f) = 2%Z.
Proof.
  intro f. split; [|vm_compute; reflexivity].
  apply (@split_clusters_pair_disjoint unit (fun (g : unit) l => (g, rev l))
           (fun g l => Permutation_rev l) tt [0]%Z [1; 2; 3; 4; 5]%Z (1 # 2)
           f f true).
  - repeat constructor; simpl; intuition discriminate.
  - vm_compute. discriminate.
  - vm_compute. discriminate.
  - vm_compute. discriminate.
  - vm_compute. discriminate.
Defined.

(** Three negative clusters and one half for each side: both halves
    round to two clusters. *)
Lemma split_clusters_pair_overlaps_witness :
  exists test train : list Z,
    Utils.split_clusters (fun (g : unit) (l : list Z) => (g, l)) tt
      [0]%Z [1; 2; 3]%Z (1 # 2) (Utils.APair (1 # 2) (1 # 2)) false
    = Ok (test, train)
    /\ exists c, In c [1; 2; 3]%Z /\ In c test /\ In c train.
Proof.
  apply (@split_clusters_pair_overlaps unit (fun (g : unit) l => (g, l))
           (fun g l => Permutation_refl l) tt [0]%Z [1; 2; 3]%Z (1 # 2)
           (1 # 2) (1 # 2) false).
  - discriminate.
  - split; vm_compute; discriminate.
  - vm_compute. reflexivity.
Defined.
